(** * vaultxfer: the transfer and synchronisation engine (vaultxfer/transfer.py)

    A shallow embedding of [atomic_upload], [atomic_download], [list_local],
    [list_remote], [sync_push], [sync_pull], [sync_bidirectional] and the dry
    runs [dry_run_upload], [dry_run_download] and [dry_run_sync_push], with
    the helpers of vaultxfer/utils.py they use ([human_bytes], [sha256_file],
    the report formatters), over an abstract transport/host interface,
    together with a simulated host used to run the engine on concrete
    inputs. *)

From Stdlib Require Import ZArith QArith Qabs Qround Lia Lqa Ascii String List Bool.
From stdpp Require Import base option list gmap strings.

Local Open Scope string_scope.
Local Open Scope list_scope.

(** ** Strings the way Python slices them *)

Module Str.

Definition chars (s : string) : list ascii := list_ascii_of_string s.
Definition of_chars (l : list ascii) : string := string_of_list_ascii l.

Definition is_empty (s : string) : bool :=
  match s with EmptyString => true | _ => false end.

Definition slash : ascii := "/"%char.

Definition is_slash (c : ascii) : bool := Ascii.eqb c slash.

(** [s.startswith(p)] *)
Fixpoint startswith (s p : string) : bool :=
  match p, s with
  | EmptyString, _ => true
  | String a p', String b s' => Ascii.eqb a b && startswith s' p'
  | String _ _, EmptyString => false
  end.

(** [s.endswith("/")] *)
Fixpoint ends_with_slash (s : string) : bool :=
  match s with
  | EmptyString => false
  | String c EmptyString => is_slash c
  | String _ s' => ends_with_slash s'
  end.

(** [s.rstrip("/")] *)
Fixpoint rstrip_slash (s : string) : string :=
  match s with
  | EmptyString => EmptyString
  | String c s' =>
      let r := rstrip_slash s' in
      if is_slash c && is_empty r then EmptyString else String c r
  end.

(** [s == "/" * len(s)] *)
Fixpoint all_slashes (s : string) : bool :=
  match s with
  | EmptyString => true
  | String c s' => is_slash c && all_slashes s'
  end.

(** [(s[:i], s[i:])] with [i = s.rfind("/") + 1]. *)
Fixpoint rsplit_slash (s : string) : string * string :=
  match s with
  | EmptyString => (EmptyString, EmptyString)
  | String c s' =>
      let (h, t) := rsplit_slash s' in
      if negb (is_empty h) then (String c h, t)
      else if is_slash c then (String c EmptyString, t)
      else (EmptyString, String c t)
  end.

(** [s.split("/")]: never empty. *)
Fixpoint split_slash (s : string) : list string :=
  match s with
  | EmptyString => [EmptyString]
  | String c s' =>
      if is_slash c then EmptyString :: split_slash s'
      else match split_slash s' with
           | x :: xs => String c x :: xs
           | [] => [String c EmptyString]
           end
  end.

(** ["/".join(l)] *)
Fixpoint join_slash (l : list string) : string :=
  match l with
  | [] => EmptyString
  | [x] => x
  | x :: xs => x +:+ "/" +:+ join_slash xs
  end.

End Str.

(** ** [os.path] (posixpath) *)

Module Path.
Import Str.

Definition basename (p : string) : string := snd (rsplit_slash p).

Definition dirname (p : string) : string :=
  let head := fst (rsplit_slash p) in
  if negb (is_empty head) && negb (all_slashes head)
  then rstrip_slash head else head.

(** Two-argument [os.path.join]. *)
Definition join (a b : string) : string :=
  if startswith b "/" then b
  else if is_empty a || ends_with_slash a then a +:+ b
  else a +:+ "/" +:+ b.

(** The component loop of [normpath]; [stack] is [new_comps] reversed. *)
Definition norm_step (initial_slashes : nat) (stack : list string)
    (comp : string) : list string :=
  if String.eqb comp "" || String.eqb comp "." then stack
  else if negb (String.eqb comp "..")
          || (Nat.eqb initial_slashes 0 && match stack with [] => true | _ => false end)
          || match stack with top :: _ => String.eqb top ".." | [] => false end
       then comp :: stack
       else match stack with _ :: rest => rest | [] => [] end.

Definition initial_slashes (p : string) : nat :=
  if startswith p "/" then
    if startswith p "//" && negb (startswith p "///") then 2 else 1
  else 0.

Definition norm_comps (p : string) : list string :=
  rev (fold_left (norm_step (initial_slashes p)) (split_slash p) []).

Definition normpath (p : string) : string :=
  if is_empty p then "." else
  let body := join_slash (norm_comps p) in
  let r := match initial_slashes p with
           | 0 => body
           | 1 => "/" +:+ body
           | _ => "//" +:+ body
           end in
  if is_empty r then "." else r.

Definition isabs (p : string) : bool := startswith p "/".

Definition abspath (cwd p : string) : string :=
  normpath (if isabs p then p else join cwd p).

(** [[x for x in s.split("/") if x]] *)
Definition nonempty_comps (s : string) : list string :=
  List.filter (fun x => negb (is_empty x)) (split_slash s).

(** Length of the common prefix of two component lists. *)
Fixpoint common_len (a b : list string) : nat :=
  match a, b with
  | x :: a', y :: b' => if String.eqb x y then S (common_len a' b') else 0
  | _, _ => 0
  end.

(** [os.path.relpath(path, start)] for a process whose working directory is
    [cwd] ([path] non-empty, as at every call site). *)
Definition relpath (cwd path start : string) : string :=
  let start_list := nonempty_comps (abspath cwd start) in
  let path_list := nonempty_comps (abspath cwd path) in
  let i := common_len start_list path_list in
  let rel_list :=
    repeat ".." (length start_list - i) ++ skipn i path_list in
  match rel_list with
  | [] => "."
  | x :: xs => fold_left join xs x
  end.

(** [pathlib.PurePosixPath(p).parts] *)
Definition parts (p : string) : list string :=
  let comps :=
    List.filter (fun x => negb (is_empty x) && negb (String.eqb x "."))
      (split_slash p) in
  match initial_slashes p with
  | 0 => comps
  | 1 => "/" :: comps
  | _ => "//" :: comps
  end.

(** [str(PurePosixPath)] of a parts tuple. *)
Definition of_parts (ps : list string) : string :=
  match ps with
  | [] => "."
  | r :: rest =>
      if startswith r "/" then r +:+ join_slash rest else join_slash ps
  end.

(** [[str(q) for q in PurePosixPath(p).parents]]: nearest ancestor first. *)
Fixpoint parents_of (anchor : list string) (rcomps : list string)
    : list string :=
  match rcomps with
  | [] => []
  | _ :: rest => of_parts (anchor ++ rev rest) :: parents_of anchor rest
  end.

Definition parents (p : string) : list string :=
  match parts p with
  | r :: rest =>
      if startswith r "/" then parents_of [r] (rev rest)
      else parents_of [] (rev (r :: rest))
  | [] => []
  end.

End Path.


(** ** [fnmatch.fnmatch] on POSIX: shell globs ([*], [?], bracket classes) *)

Module Fnmatch.

Inductive token :=
| TStar
| TAny
| TClass (negated : bool) (body : list ascii)
| TLit (c : ascii).

(** Membership in the body of a bracket class: [lo-hi] is a range, a hyphen
    that cannot form one is a literal, a range with [lo > hi] is empty. *)
Fixpoint in_class (body : list ascii) (c : ascii) : bool :=
  match body with
  | [] => false
  | lo :: rest =>
      match rest with
      | h :: hi :: rest' =>
          if Ascii.eqb h "-"
          then (Nat.leb (nat_of_ascii lo) (nat_of_ascii c)
                && Nat.leb (nat_of_ascii c) (nat_of_ascii hi))
               || in_class rest' c
          else Ascii.eqb lo c || in_class rest c
      | _ => Ascii.eqb lo c || in_class rest c
      end
  end.

(** Scan for the ["]"] that closes a class: the text before it and after it. *)
Fixpoint close_bracket (p : list ascii) : option (list ascii * list ascii) :=
  match p with
  | [] => None
  | c :: p' =>
      if Ascii.eqb c "]" then Some ([], p')
      else match close_bracket p' with
           | Some (body, rest) => Some (c :: body, rest)
           | None => None
           end
  end.

(** After ["["]: an optional ["!"], then an optional literal ["]"], then the
    body up to the closing ["]"]. *)
Definition parse_class (p : list ascii)
    : option (bool * list ascii * list ascii) :=
  let (neg, p1) :=
    match p with
    | c :: p' => if Ascii.eqb c "!" then (true, p') else (false, p)
    | [] => (false, p)
    end in
  let (first, p2) :=
    match p1 with
    | c :: p' => if Ascii.eqb c "]" then ([c], p') else ([], p1)
    | [] => ([], p1)
    end in
  match close_bracket p2 with
  | Some (body, rest) => Some (neg, first ++ body, rest)
  | None => None
  end.

(** The scanning loop of [fnmatch.translate]; [fuel] bounds the pattern
    length. *)
Fixpoint tokenize (fuel : nat) (p : list ascii) : list token :=
  match fuel with
  | O => []
  | S fuel' =>
      match p with
      | [] => []
      | c :: p' =>
          if Ascii.eqb c "*" then TStar :: tokenize fuel' p'
          else if Ascii.eqb c "?" then TAny :: tokenize fuel' p'
          else if Ascii.eqb c "[" then
            match parse_class p' with
            | Some (neg, body, rest) => TClass neg body :: tokenize fuel' rest
            | None => TLit c :: tokenize fuel' p'
            end
          else TLit c :: tokenize fuel' p'
      end
  end.

(** Whole-string match of the token list (the compiled expression is
    anchored at both ends and [*] crosses ["/"]). *)
Fixpoint matches (ts : list token) : list ascii -> bool :=
  match ts with
  | [] => fun s => match s with [] => true | _ => false end
  | TStar :: ts' =>
      fix star (s : list ascii) : bool :=
        matches ts' s || match s with [] => false | _ :: s' => star s' end
  | TAny :: ts' =>
      fun s => match s with [] => false | _ :: s' => matches ts' s' end
  | TClass neg body :: ts' =>
      fun s => match s with
               | [] => false
               | c :: s' => xorb neg (in_class body c) && matches ts' s'
               end
  | TLit a :: ts' =>
      fun s => match s with
               | [] => false
               | c :: s' => Ascii.eqb a c && matches ts' s'
               end
  end.

Definition fnmatch (name pat : string) : bool :=
  let p := Str.chars pat in
  matches (tokenize (length p) p) (Str.chars name).

End Fnmatch.


(** ** Exceptions, file records, ordered dicts *)

(** The exception classes the engine tells apart.  [IOError] stands for an
    [OSError] that is neither of its two subclasses below; [OtherError] for any
    other [Exception] (a transport protocol error, for instance). *)
Inductive exn :=
| FileNotFoundError (msg : string)
| PermissionError (msg : string)
| IOError (msg : string)
| RuntimeError (msg : string)
| NameError (msg : string)
| ValueError (msg : string)
| TypeError (msg : string)
| RecursionError (msg : string)
| OtherError (msg : string).

(** [str(e)] *)
Definition str_exn (e : exn) : string :=
  match e with
  | FileNotFoundError m | PermissionError m | IOError m | RuntimeError m
  | NameError m | ValueError m | TypeError m
  | RecursionError m | OtherError m => m
  end.

(** [isinstance(e, IOError)]: [IOError] is [OSError] and both
    [FileNotFoundError] and [PermissionError] derive from it. *)
Definition is_IOError (e : exn) : bool :=
  match e with
  | FileNotFoundError _ | PermissionError _ | IOError _ => true
  | _ => false
  end.

Inductive result (A : Type) :=
| Ok (a : A)
| Err (e : exn).
Arguments Ok {A} a.
Arguments Err {A} e.

Definition is_Err {A} (r : result A) : bool :=
  match r with Err _ => true | Ok _ => false end.

Definition exn_of {A} (r : result A) : option exn :=
  match r with Err e => Some e | Ok _ => None end.

(** The tuple [(st_mode, st_size, st_mtime)].  Modification times are
    rationals: whole seconds from the transport, fractional ones from
    [os.stat]. *)
Record meta := Meta { st_mode : Z; st_size : Z; st_mtime : Q }.

(** One entry of [sftp.listdir_attr]. *)
Record attr := Attr { filename : string; attr_meta : meta }.

(** [stat.S_ISDIR(mode)]: [(mode & 0o170000) == 0o040000]. *)
Definition S_ISDIR (mode : Z) : bool := Z.eqb (Z.land mode 61440) 16384.

(** A Python [dict] with string keys: insertion ordered, assignment to a
    present key keeps its position. *)
Definition dict (V : Type) : Type := list (string * V).

Fixpoint dict_set {V} (d : dict V) (k : string) (v : V) : dict V :=
  match d with
  | [] => [(k, v)]
  | (k', v') :: d' =>
      if String.eqb k' k then (k', v) :: d' else (k', v') :: dict_set d' k v
  end.

Fixpoint dict_get {V} (d : dict V) (k : string) : option V :=
  match d with
  | [] => None
  | (k', v') :: d' => if String.eqb k' k then Some v' else dict_get d' k
  end.

(** Truthiness of a list-valued argument: [None] and [[]] are both falsy and
    are both written []. *)
Definition truthy {X} (l : list X) : bool :=
  match l with [] => false | _ :: _ => true end.

Definition dict_keys {V} (d : dict V) : list string := map fst d.

(** [set(a) | set(b)] as a duplicate-free list of its elements. *)
Fixpoint set_add (k : string) (s : list string) : list string :=
  match s with
  | [] => [k]
  | x :: s' => if String.eqb x k then s else x :: set_add k s'
  end.

Definition set_union (a b : list string) : list string :=
  fold_left (fun s k => set_add k s) (a ++ b) [].

(** ** The transport and host interface, and the effect monad *)

(** Every call the engine makes on the [sftp] session or on [os]. *)
Inductive call :=
| SftpChdir (d : string)
| SftpMkdir (d : string)
| SftpPut (localpath remotepath : string)
| SftpGet (remotepath localpath : string)
| SftpRename (oldpath newpath : string)
| SftpRemove (p : string)
| SftpListdirAttr (d : string)
| OsMakedirs (d : string)
| OsReplace (src dst : string)
| OsRemove (p : string)
| OsStat (p : string)
| Print (line : string).

(** A call together with the exception it raised, if any. *)
Record event := Ev { ev_call : call; ev_exn : option exn }.

(** The duck-typed [sftp] object and the [os] functions, over a world [W]. *)
Record Env (W : Type) := {
  sftp_chdir : string -> W -> result unit * W;
  sftp_mkdir : string -> W -> result unit * W;
  sftp_put : string -> string -> W -> result unit * W;
  sftp_get : string -> string -> W -> result unit * W;
  sftp_rename : string -> string -> W -> result unit * W;
  sftp_remove : string -> W -> result unit * W;
  sftp_listdir_attr : string -> W -> result (list attr) * W;
  os_path_isdir : string -> W -> bool;
  os_makedirs : string -> W -> result unit * W;
  os_replace : string -> string -> W -> result unit * W;
  os_remove : string -> W -> result unit * W;
  (** [list(os.walk(top))]: the [(root, dirs, files)] triples. *)
  os_walk : string -> W -> list (string * list string * list string);
  os_stat : string -> W -> result meta * W;
  os_getcwd : W -> string;
  (** the order in which a [set] of these strings is iterated *)
  set_iter : list string -> list string;
}.
Arguments sftp_chdir {W}. Arguments sftp_mkdir {W}. Arguments sftp_put {W}.
Arguments sftp_get {W}. Arguments sftp_rename {W}. Arguments sftp_remove {W}.
Arguments sftp_listdir_attr {W}. Arguments os_path_isdir {W}.
Arguments os_makedirs {W}. Arguments os_replace {W}. Arguments os_remove {W}.
Arguments os_walk {W}. Arguments os_stat {W}. Arguments os_getcwd {W}.
Arguments set_iter {W}.

(** A computation over the world: its result, the world it leaves and the
    calls it made, in order.  An exception keeps the effects made before it. *)
Definition M (W A : Type) : Type := W -> result A * W * list event.

Definition ret {W A} (a : A) : M W A := fun w => (Ok a, w, []).

Definition raise {W A} (e : exn) : M W A := fun w => (Err e, w, []).

Definition bind {W A B} (m : M W A) (f : A -> M W B) : M W B :=
  fun w => match m w with
           | (Ok a, w1, l1) => let '(r, w2, l2) := f a w1 in (r, w2, l1 ++ l2)
           | (Err e, w1, l1) => (Err e, w1, l1)
           end.

(** [try: m  except Exception as e: h e] *)
Definition catch {W A} (m : M W A) (h : exn -> M W A) : M W A :=
  fun w => match m w with
           | (Err e, w1, l1) => let '(r, w2, l2) := h e w1 in (r, w2, l1 ++ l2)
           | r => r
           end.

(** [try: m  except IOError: h] *)
Definition catch_IOError {W A} (m : M W A) (h : M W A) : M W A :=
  catch m (fun e => if is_IOError e then h else raise e).

(** [try: m  except Exception: pass] *)
Definition ignore {W} (m : M W unit) : M W unit :=
  catch m (fun _ => ret tt).

Definition lift {W A} (r : result A) : M W A := fun w => (r, w, []).

Definition ask {W A} (f : W -> A) : M W A := fun w => (Ok (f w), w, []).

(** Make one call and record it with its outcome. *)
Definition prim {W A} (c : call) (f : W -> result A * W) : M W A :=
  fun w => let (r, w') := f w in (r, w', [Ev c (exn_of r)]).

Definition print {W} (line : string) : M W unit :=
  prim (Print line) (fun w => (Ok tt, w)).

Declare Scope eng_scope.
Delimit Scope eng_scope with eng.
Notation "x <- m ;; k" := (bind m (fun x => k))
  (at level 100, m at next level, right associativity) : eng_scope.
Notation "m ;; k" := (bind m (fun _ => k))
  (at level 100, right associativity) : eng_scope.

(** [for x in l: body x], stopping at the first exception. *)
Fixpoint for_each {W X} (l : list X) (body : X -> M W unit) : M W unit :=
  match l with
  | [] => ret tt
  | x :: l' => bind (body x) (fun _ => for_each l' body)
  end.

(** A loop that threads an accumulator (a dict being filled). *)
Fixpoint fold_m {W X S} (l : list X) (body : S -> X -> M W S) (acc : S)
    : M W S :=
  match l with
  | [] => ret acc
  | x :: l' => bind (body acc x) (fun acc' => fold_m l' body acc')
  end.

(** ** The engine *)

Section Engine.
Context {W : Type} (env : Env W).
Import Str Path.
Local Open Scope eng_scope.

Definition chdir (d : string) : M W unit := prim (SftpChdir d) (sftp_chdir env d).
Definition mkdir (d : string) : M W unit := prim (SftpMkdir d) (sftp_mkdir env d).
Definition put (l r : string) : M W unit := prim (SftpPut l r) (sftp_put env l r).
Definition get (r l : string) : M W unit := prim (SftpGet r l) (sftp_get env r l).
Definition rename (a b : string) : M W unit :=
  prim (SftpRename a b) (sftp_rename env a b).
Definition remove (p : string) : M W unit := prim (SftpRemove p) (sftp_remove env p).
Definition listdir_attr (d : string) : M W (list attr) :=
  prim (SftpListdirAttr d) (sftp_listdir_attr env d).
Definition makedirs (d : string) : M W unit := prim (OsMakedirs d) (os_makedirs env d).
Definition replace (a b : string) : M W unit :=
  prim (OsReplace a b) (os_replace env a b).
Definition unlink (p : string) : M W unit := prim (OsRemove p) (os_remove env p).
Definition stat (p : string) : M W meta := prim (OsStat p) (os_stat env p).

(** [os.path.relpath(path, start)]; an empty [path] is a [ValueError]. *)
Definition os_path_relpath (path start : string) : M W string :=
  cwd <- ask (os_getcwd env) ;;
  if is_empty path then raise (ValueError "no path specified")
  else ret (relpath cwd path start).

(** *** atomic_upload *)

(** Where the upload lands: lines 20-24. *)
Definition upload_target (local_path remote_path : string) : string :=
  let remote_path :=
    if ends_with_slash remote_path || is_empty (basename remote_path)
    then join remote_path (basename local_path) else remote_path in
  if is_empty (basename remote_path) then remote_path +:+ ".tmp"
  else remote_path.

(** Lines 36-42: create the ancestors one segment at a time. *)
Fixpoint mkdir_parts (current_path : string) (ps : list string) : M W unit :=
  match ps with
  | [] => ret tt
  | part :: ps' =>
      let current_path :=
        if negb (is_empty current_path) then join current_path part else part in
      catch_IOError (mkdir current_path) (ret tt) ;;
      mkdir_parts current_path ps'
  end.

(** Lines 30-42. *)
Definition ensure_remote_dir (remote_path : string) : M W unit :=
  let remote_dir := dirname remote_path in
  if negb (is_empty remote_dir) && negb (String.eqb remote_dir ".")
  then catch_IOError (chdir remote_dir) (mkdir_parts "" (parts remote_dir))
  else ret tt.

Definition aggregate_msg (rename_exc put_exc : exn) : string :=
  "Failed to move uploaded temp file to final path: rename error: "
  +:+ str_exn rename_exc +:+ "; fallback put error: " +:+ str_exn put_exc.

(** How a block ends: by running off its end, or by [return]. *)
Inductive flow := Fallthrough | Returned.

(** Lines 46-69: rename the temporary file into place, with the fallbacks. *)
Definition move_into_place (local_path remote_path tmp : string) : M W flow :=
  catch (rename tmp remote_path ;; ret Fallthrough)
    (fun rename_exc =>
       ignore (remove remote_path) ;;
       catch (rename tmp remote_path ;; ret Fallthrough)
         (fun _ =>
            catch (ignore (remove tmp) ;;
                   put local_path remote_path ;;
                   ret Returned)
              (fun put_exc =>
                 ignore (remove tmp) ;;
                 raise (RuntimeError (aggregate_msg rename_exc put_exc))))).

(** Lines 29-71: the body of the outer [try]. *)
Definition upload_body (local_path remote_path tmp : string) : M W unit :=
  ensure_remote_dir remote_path ;;
  put local_path tmp ;;
  fl <- move_into_place local_path remote_path tmp ;;
  match fl with
  | Returned => ret tt
  | Fallthrough => print ("Uploaded " +:+ local_path +:+ " to " +:+ remote_path)
  end.

(** Lines 72-81: the handlers of the outer [try]. *)
Definition upload_handler (local_path remote_path tmp : string) (e : exn)
    : M W unit :=
  match e with
  | PermissionError _ =>
      print ("Error: Permission denied for remote path: " +:+ remote_path)
  | FileNotFoundError _ =>
      print ("Error: Local file not found: " +:+ local_path)
  | _ =>
      ignore (remove tmp) ;;
      print ("Error uploading " +:+ local_path +:+ " to " +:+ remote_path
             +:+ ": " +:+ str_exn e)
  end.

Definition atomic_upload (local_path remote_path : string) : M W unit :=
  let remote_path := upload_target local_path remote_path in
  let tmp := remote_path +:+ ".tmp" in
  catch (upload_body local_path remote_path tmp)
    (upload_handler local_path remote_path tmp).

(** *** atomic_download *)

(** Where the download lands: lines 84-91. *)
Definition download_target (isdir : bool) (remote_path local_path : string)
    : string :=
  let local_path :=
    if isdir then join local_path (basename remote_path) else local_path in
  let local_path :=
    if ends_with_slash local_path || is_empty (basename local_path)
    then join local_path (basename remote_path) else local_path in
  if is_empty (basename local_path) then local_path +:+ ".tmp" else local_path.

(** Lines 96-102. *)
Definition download_body (remote_path local_path tmp : string) : M W unit :=
  let local_dir := dirname local_path in
  (if negb (is_empty local_dir) && negb (String.eqb local_dir ".")
   then makedirs local_dir else ret tt) ;;
  get remote_path tmp ;;
  replace tmp local_path ;;
  print ("Downloaded " +:+ remote_path +:+ " to " +:+ local_path).

(** Lines 104-114. *)
Definition download_handler (remote_path local_path tmp : string) (e : exn)
    : M W unit :=
  match e with
  | FileNotFoundError _ =>
      print ("Error: Remote file not found: " +:+ remote_path)
  | PermissionError _ =>
      print ("Error: Permission denied for remote file: " +:+ remote_path)
  | _ =>
      print ("Error downloading " +:+ remote_path +:+ " to " +:+ local_path
             +:+ ": " +:+ str_exn e) ;;
      ignore (unlink tmp) ;;
      raise (RuntimeError ("Failed to download " +:+ remote_path +:+ " to "
                           +:+ local_path +:+ ": " +:+ str_exn e))
  end.

Definition atomic_download (remote_path local_path : string) : M W unit :=
  isdir <- ask (os_path_isdir env local_path) ;;
  let local_path := download_target isdir remote_path local_path in
  let tmp := local_path +:+ ".tmp" in
  catch (download_body remote_path local_path tmp)
    (download_handler remote_path local_path tmp).

(** *** list_local, list_remote *)

(** The key a local file is recorded under: lines 122-124. *)
Definition local_key (relroot f : string) : string :=
  let relfile := normpath (join relroot f) in
  if startswith relfile ".." then f else relfile.

(** Lines 119-126: the body of the loop over [os.walk]. *)
Definition scan_dir (path : string) (results : dict meta)
    (entry : string * list string * list string) : M W (dict meta) :=
  let '(root, _, files) := entry in
  relroot <- os_path_relpath root path ;;
  fold_m files
    (fun results f =>
       let lfile := join root f in
       let relfile := local_key relroot f in
       st <- stat lfile ;;
       ret (dict_set results relfile st))
    results.

Definition list_local (path : string) : M W (dict meta) :=
  walks <- ask (os_walk env path) ;;
  fold_m walks (scan_dir path) [].

(** The nested [_walk]; [depth] is the number of frames the interpreter still
    allows, a call beyond it is a [RecursionError]. *)
Fixpoint _walk (depth : nat) (rdir rel : string) (results : dict meta)
    : M W (dict meta) :=
  match depth with
  | O => raise (RecursionError "maximum recursion depth exceeded")
  | S depth' =>
      attrs <- listdir_attr rdir ;;
      fold_m attrs
        (fun results a =>
           let rfile := join rdir (filename a) in
           let relfile := join rel (filename a) in
           if S_ISDIR (st_mode (attr_meta a))
           then _walk depth' rfile relfile results
           else ret (dict_set results rfile (attr_meta a)))
        results
  end.

Definition list_remote (depth : nat) (path : string) : M W (dict meta) :=
  _walk depth path "" [].

(** *** Pattern filters *)

(** No module-level [rel_path] exists: looking the name up raises. *)
Definition global_rel_path : result string :=
  Err (NameError "name 'rel_path' is not defined").

(** [any(fnmatch(fname, pat) or fnmatch(rel_path, pat) for pat in pats)] inside
    [sync_push], where [rel_path] is not a local. *)
Fixpoint any_match_push (fname : string) (pats : list string) : result bool :=
  match pats with
  | [] => Ok false
  | pat :: pats' =>
      if Fnmatch.fnmatch fname pat then Ok true
      else match global_rel_path with
           | Err e => Err e
           | Ok rel_path =>
               if Fnmatch.fnmatch rel_path pat then Ok true
               else any_match_push fname pats'
           end
  end.

(** Lines 149-157: the value [should_include] ends with.  An absent pattern
    list ([None]) and an empty one are both falsy: both are []. *)
Definition push_should_include (fname : string) (include exclude : list string)
    : result bool :=
  match (if truthy include then any_match_push fname include else Ok true) with
  | Err e => Err e
  | Ok should_include =>
      if should_include && truthy exclude then
        match any_match_push fname exclude with
        | Err e => Err e
        | Ok excluded => Ok (if excluded then false else should_include)
        end
      else Ok should_include
  end.

(** [any(fnmatch(fname, pat) for pat in pats)] *)
Definition any_match (fname : string) (pats : list string) : bool :=
  existsb (Fnmatch.fnmatch fname) pats.

(** Lines 181-184 and 214-217: [true] when the loop body goes on, [false] on
    [continue]. *)
Definition passes_filter (fname : string) (include exclude : list string)
    : bool :=
  if truthy include && negb (any_match fname include) then false
  else if truthy exclude && any_match fname exclude then false
  else true.

(** The filter of [dry_run_sync_push] (lines 321-333), where [rel_path] is the
    loop variable. *)
Definition dry_run_should_include (rel_path : string)
    (include exclude : list string) : bool :=
  let fname := basename rel_path in
  let m pats :=
    existsb (fun pat => Fnmatch.fnmatch fname pat || Fnmatch.fnmatch rel_path pat)
      pats in
  let should_include := if truthy include then m include else true in
  if should_include && truthy exclude
  then (if m exclude then false else should_include)
  else should_include.

(** *** sync_push, sync_pull, sync_bidirectional *)

(** Lines 163-171 of [sync_push]. *)
Definition push_ensure_dirs (rfile : string) : M W unit :=
  catch_IOError (chdir (dirname rfile))
    (for_each (rev (parents rfile))
       (fun p => catch_IOError (mkdir p) (ret tt))).

(** The body of the loop of [sync_push]. *)
Definition push_step (local_dir remote_dir : string)
    (include exclude : list string) (rel : string) : M W unit :=
  let fname := basename rel in
  should_include <- lift (push_should_include fname include exclude) ;;
  let lfile := join local_dir rel in
  let rfile := join remote_dir rel in
  push_ensure_dirs rfile ;;
  atomic_upload lfile rfile.

Definition sync_push (local_dir remote_dir : string)
    (include exclude : list string) : M W unit :=
  local_files <- list_local local_dir ;;
  for_each (dict_keys local_files)
    (push_step local_dir remote_dir include exclude).

(** The body of the loop of [sync_pull]; [remote_dir] is already stripped. *)
Definition pull_step (remote_dir local_dir : string)
    (include exclude : list string) (remote_path : string) : M W unit :=
  let fname := basename remote_path in
  if passes_filter fname include exclude then
    rel_path <- os_path_relpath remote_path remote_dir ;;
    let lfile := join local_dir rel_path in
    makedirs (dirname lfile) ;;
    atomic_download remote_path lfile
  else ret tt.

Definition sync_pull (depth : nat) (remote_dir local_dir : string)
    (include exclude : list string) : M W unit :=
  remote_files <- list_remote depth remote_dir ;;
  let remote_dir := rstrip_slash remote_dir in
  for_each (dict_keys remote_files)
    (pull_step remote_dir local_dir include exclude).

(** Lines 206-233: the body of the loop of [sync_bidirectional]. *)
Definition bidir_step (local_dir remote_dir : string)
    (include exclude : list string) (local_files remote_files : dict meta)
    (rel : string) : M W unit :=
  let lfile := join local_dir rel in
  let rfile := join remote_dir rel in
  let lmeta := dict_get local_files rel in
  let rmeta := dict_get remote_files rel in
  let fname := basename rel in
  if negb (passes_filter fname include exclude) then ret tt
  else match lmeta, rmeta with
       | Some _, None => atomic_upload lfile rfile
       | None, Some _ =>
           makedirs (dirname lfile) ;;
           atomic_download rfile lfile
       | Some l, Some r =>
           let ltime := st_mtime l in
           let rtime := st_mtime r in
           if Qle_bool (Qabs (ltime - rtime)) 5 then
             atomic_download rfile (lfile +:+ ".remote") ;;
             print ("  conflict: kept " +:+ rel +:+ ".local and " +:+ rel
                    +:+ ".remote")
           else if negb (Qle_bool ltime rtime) then atomic_upload lfile rfile
           else atomic_download rfile lfile
       | None, None =>
           raise (TypeError "'NoneType' object is not subscriptable")
       end.

(** Lines 197-200: re-key the remote mapping relative to the remote root. *)
Definition rekey_remote (remote_dir : string) (remote_files_raw : dict meta)
    : M W (dict meta) :=
  fold_m remote_files_raw
    (fun remote_files '(path, m) =>
       rel_path <- os_path_relpath path remote_dir ;;
       ret (dict_set remote_files rel_path m))
    [].

(** Lines 192-203: both scans, the re-keyed remote mapping and the union of
    the key sets in the order the loop visits it. *)
Definition bidir_scan (depth : nat) (local_dir remote_dir : string)
    : M W (dict meta * dict meta * list string) :=
  local_files <- list_local local_dir ;;
  remote_files_raw <- list_remote depth remote_dir ;;
  let remote_dir := rstrip_slash remote_dir in
  remote_files <- rekey_remote remote_dir remote_files_raw ;;
  let all_files :=
    set_iter env (set_union (dict_keys local_files) (dict_keys remote_files)) in
  ret (local_files, remote_files, all_files).

Definition sync_bidirectional (depth : nat) (local_dir remote_dir : string)
    (include exclude : list string) : M W unit :=
  scan <- bidir_scan depth local_dir remote_dir ;;
  let '(local_files, remote_files, all_files) := scan in
  for_each all_files
    (bidir_step local_dir (rstrip_slash remote_dir) include exclude
       local_files remote_files).

End Engine.

(** ** A simulated host and transport

    Both sides are flat stores of files and directories keyed by path.  The
    transport follows the contract the engine consumes: [put] and [get] move
    whole files and write their target progressively, [rename] fails when the
    destination exists unless the server replaces on rename, [mkdir] fails on
    an existing path or a missing parent, [chdir] probes for a directory.
    Every transport call first consumes one entry of a fault script, so that
    any call can be made to fail, and a transfer to be cut short.  Each change
    of a file store is recorded in a history of snapshots. *)

Module Sim.
Import Str Path.

Record file := File { data : list Byte.byte; mtime : Q }.

Record side := Side {
  files : gmap string file;
  dirs : gset string;
  denied : gset string;   (* directories that cannot be enumerated *)
}.

Inductive fault :=
| Pass
| Fail (e : exn)
| Cut (e : exn) (n : nat).   (* fail after [n] bytes were written *)

Record world := World {
  loc : side;
  rem : side;
  cwd : string;
  now : Q;
  replace_on_rename : bool;
  faults : list fault;
  hist : list (gmap string file * gmap string file);
}.

Definition next_fault (w : world) : fault * world :=
  match faults w with
  | [] => (Pass, w)
  | f :: fs =>
      (f, World (loc w) (rem w) (cwd w) (now w) (replace_on_rename w) fs (hist w))
  end.

Definition set_files (s : side) (fs : gmap string file) : side :=
  Side fs (dirs s) (denied s).

Definition set_dirs (s : side) (ds : gset string) : side :=
  Side (files s) ds (denied s).

(** Replace the local (remote) file store and take a snapshot. *)
Definition put_loc (w : world) (fs : gmap string file) : world :=
  World (set_files (loc w) fs) (rem w) (cwd w) (now w) (replace_on_rename w)
    (faults w) (hist w ++ [(fs, files (rem w))]).

Definition put_rem (w : world) (fs : gmap string file) : world :=
  World (loc w) (set_files (rem w) fs) (cwd w) (now w) (replace_on_rename w)
    (faults w) (hist w ++ [(files (loc w), fs)]).

Definition put_loc_dirs (w : world) (ds : gset string) : world :=
  World (set_dirs (loc w) ds) (rem w) (cwd w) (now w) (replace_on_rename w)
    (faults w) (hist w).

Definition put_rem_dirs (w : world) (ds : gset string) : world :=
  World (loc w) (set_dirs (rem w) ds) (cwd w) (now w) (replace_on_rename w)
    (faults w) (hist w).

(** Write the first [n] bytes of [d] to [p], one byte at a time, starting from
    the empty file. *)
Fixpoint write_loc (w : world) (p : string) (d : list Byte.byte) (n : nat)
    : world :=
  match n with
  | O => put_loc w (<[p := File [] (now w)]> (files (loc w)))
  | S n' =>
      let w' := write_loc w p d n' in
      put_loc w' (<[p := File (take n d) (now w)]> (files (loc w')))
  end.

Fixpoint write_rem (w : world) (p : string) (d : list Byte.byte) (n : nat)
    : world :=
  match n with
  | O => put_rem w (<[p := File [] (now w)]> (files (rem w)))
  | S n' =>
      let w' := write_rem w p d n' in
      put_rem w' (<[p := File (take n d) (now w)]> (files (rem w')))
  end.

(** A directory is found with or without trailing separators. *)
Definition has_dir (s : side) (d : string) : bool :=
  bool_decide (d ∈ dirs s) || bool_decide (rstrip_slash d ∈ dirs s).

Definition has_file (s : side) (p : string) : bool :=
  match files s !! p with Some _ => true | None => false end.

(** The directory a new entry [p] goes into exists; the empty directory name
    is the working directory. *)
Definition parent_ok (s : side) (p : string) : bool :=
  is_empty (dirname p) || has_dir s (dirname p).

Definition enoent : exn := FileNotFoundError "[Errno 2] No such file".
Definition eacces : exn := PermissionError "[Errno 13] Permission denied".
Definition failure : exn := IOError "Failure".

Definition chdir (d : string) (w : world) : result unit * world :=
  let (f, w) := next_fault w in
  match f with
  | Fail e | Cut e _ => (Err e, w)
  | Pass =>
      if has_dir (rem w) d then (Ok tt, w)
      else if has_file (rem w) d then (Err (OtherError "Not a directory"), w)
      else (Err enoent, w)
  end.

Definition mkdir (d : string) (w : world) : result unit * world :=
  let (f, w) := next_fault w in
  match f with
  | Fail e | Cut e _ => (Err e, w)
  | Pass =>
      if has_dir (rem w) d || has_file (rem w) d || negb (parent_ok (rem w) d)
      then (Err failure, w)
      else (Ok tt, put_rem_dirs w ({[d]} ∪ dirs (rem w)))
  end.

Definition put (l r : string) (w : world) : result unit * world :=
  let (f, w) := next_fault w in
  match f with
  | Fail e => (Err e, w)
  | _ =>
      match files (loc w) !! l with
      | None => (Err enoent, w)
      | Some src =>
          if negb (parent_ok (rem w) r) then (Err enoent, w)
          else if has_dir (rem w) r then (Err failure, w)
          else match f with
               | Cut e n =>
                   (Err e, write_rem w r (data src) (min n (length (data src))))
               | _ => (Ok tt, write_rem w r (data src) (length (data src)))
               end
      end
  end.

(** The local file is opened for writing before the remote one is read. *)
Definition get (r l : string) (w : world) : result unit * world :=
  let (f, w) := next_fault w in
  match f with
  | Fail e => (Err e, w)
  | _ =>
      if negb (parent_ok (loc w) l) then (Err enoent, w)
      else if has_dir (loc w) l
      then (Err (IOError "[Errno 21] Is a directory"), w)
      else
        let w := write_loc w l [] 0 in
        match files (rem w) !! r with
        | None => (Err enoent, w)
        | Some src =>
            match f with
            | Cut e n =>
                (Err e, write_loc w l (data src) (min n (length (data src))))
            | _ => (Ok tt, write_loc w l (data src) (length (data src)))
            end
        end
  end.

Definition rename (a b : string) (w : world) : result unit * world :=
  let (f, w) := next_fault w in
  match f with
  | Fail e | Cut e _ => (Err e, w)
  | Pass =>
      match files (rem w) !! a with
      | None => (Err enoent, w)
      | Some src =>
          if has_dir (rem w) b || negb (parent_ok (rem w) b)
          then (Err failure, w)
          else if has_file (rem w) b && negb (replace_on_rename w)
          then (Err failure, w)
          else (Ok tt, put_rem w (<[b := src]> (delete a (files (rem w)))))
      end
  end.

Definition remove (p : string) (w : world) : result unit * world :=
  let (f, w) := next_fault w in
  match f with
  | Fail e | Cut e _ => (Err e, w)
  | Pass =>
      if has_file (rem w) p
      then (Ok tt, put_rem w (delete p (files (rem w))))
      else (Err enoent, w)
  end.

(** [p] is an entry of directory [d]. *)
Definition child_of (d p : string) : bool :=
  negb (is_empty (basename p)) && String.eqb (join d (basename p)) p.

Definition dir_entries (s : side) (d : string) : list string :=
  List.filter (child_of d) (elements (dirs s)).

Definition file_entries (s : side) (d : string) : list (string * file) :=
  List.filter (fun e => child_of d (fst e)) (map_to_list (files s)).

Definition dir_meta : meta := Meta 16877 4096 0.

Definition file_meta (f : file) : meta :=
  Meta 33188 (Z.of_nat (length (data f))) (mtime f).

Definition listdir_attr (d : string) (w : world)
    : result (list attr) * world :=
  let (f, w) := next_fault w in
  match f with
  | Fail e | Cut e _ => (Err e, w)
  | Pass =>
      if negb (has_dir (rem w) d) then (Err enoent, w)
      else if bool_decide (d ∈ denied (rem w)) then (Err eacces, w)
      else
        (Ok (map (fun p => Attr (basename p) dir_meta) (dir_entries (rem w) d)
             ++ map (fun e => Attr (basename (fst e)) (file_meta (snd e)))
                  (file_entries (rem w) d)),
         w)
  end.

Definition isdir (p : string) (w : world) : bool := has_dir (loc w) p.

(** [d] and the directories above it, nearest first. *)
Fixpoint ancestors (fuel : nat) (d : string) : list string :=
  match fuel with
  | O => []
  | S fuel' =>
      if is_empty d then []
      else d :: (if String.eqb (dirname d) d then []
                 else ancestors fuel' (dirname d))
  end.

(** [os.makedirs(d, exist_ok=True)] *)
Definition makedirs (d : string) (w : world) : result unit * world :=
  if is_empty d then (Err enoent, w)
  else if existsb (has_file (loc w)) (ancestors (String.length d) d)
  then (Err (IOError "[Errno 17] File exists"), w)
  else (Ok tt,
        put_loc_dirs w (list_to_set (ancestors (String.length d) d)
                        ∪ dirs (loc w))).

(** [os.replace(a, b)] *)
Definition replace (a b : string) (w : world) : result unit * world :=
  match files (loc w) !! a with
  | None => (Err enoent, w)
  | Some src =>
      if has_dir (loc w) b then (Err (IOError "[Errno 21] Is a directory"), w)
      else if negb (parent_ok (loc w) b) then (Err enoent, w)
      else (Ok tt, put_loc w (<[b := src]> (delete a (files (loc w)))))
  end.

(** [os.remove(p)] *)
Definition unlink (p : string) (w : world) : result unit * world :=
  if has_file (loc w) p
  then (Ok tt, put_loc w (delete p (files (loc w))))
  else (Err enoent, w).

(** [os.walk(top)], top-down, with the default [onerror=None]: a directory
    that cannot be listed is skipped without any report. *)
Fixpoint walk (fuel : nat) (s : side) (top : string)
    : list (string * list string * list string) :=
  match fuel with
  | O => []
  | S fuel' =>
      if has_dir s top && negb (bool_decide (top ∈ denied s)) then
        let ds := map basename (dir_entries s top) in
        let fs := map (fun e => basename (fst e)) (file_entries s top) in
        (top, ds, fs) :: flat_map (fun d => walk fuel' s (join top d)) ds
      else []
  end.

Definition stat (p : string) (w : world) : result meta * world :=
  match files (loc w) !! p with
  | Some f => (Ok (file_meta f), w)
  | None => if has_dir (loc w) p then (Ok dir_meta, w) else (Err enoent, w)
  end.

Definition env : Env world := {|
  sftp_chdir := chdir;
  sftp_mkdir := mkdir;
  sftp_put := put;
  sftp_get := get;
  sftp_rename := rename;
  sftp_remove := remove;
  sftp_listdir_attr := listdir_attr;
  os_path_isdir := isdir;
  os_makedirs := makedirs;
  os_replace := replace;
  os_remove := unlink;
  os_walk := fun top w => walk (S (size (dirs (loc w)))) (loc w) top;
  os_stat := stat;
  os_getcwd := cwd;
  set_iter := fun l => l;
|}.

(** The content found at a path of a file store. *)
Definition content (fs : gmap string file) (p : string)
    : option (list Byte.byte) :=
  data <$> fs !! p.

End Sim.

(** ** Observations on runs *)

Definition result_of {W A} (r : result A * W * list event) : result A :=
  fst (fst r).
Definition world_of {W A} (r : result A * W * list event) : W := snd (fst r).
Definition log_of {W A} (r : result A * W * list event) : list event := snd r.

(** The first exception raised by a call of the run. *)
Fixpoint first_exn (l : list event) : option exn :=
  match l with
  | [] => None
  | ev :: l' =>
      match ev_exn ev with Some e => Some e | None => first_exn l' end
  end.

Definition is_dir_call (c : call) : bool :=
  match c with SftpChdir _ | SftpMkdir _ => true | _ => false end.

Definition is_rename (c : call) : bool :=
  match c with SftpRename _ _ => true | _ => false end.

(** The log from the first [sftp.rename] on. *)
Fixpoint from_first_rename (l : list event) : list event :=
  match l with
  | [] => []
  | ev :: l' => if is_rename (ev_call ev) then l else from_first_rename l'
  end.

(** What [atomic_upload] does after its first rename failed with [e1]. *)
Inductive fallback_shape (local_path target tmp : string) (e1 : exn)
    : list event -> Prop :=
| fb_retry o :
    fallback_shape local_path target tmp e1
      [Ev (SftpRemove target) o;
       Ev (SftpRename tmp target) None;
       Ev (Print ("Uploaded " +:+ local_path +:+ " to " +:+ target)) None]
| fb_direct o e2 o' :
    fallback_shape local_path target tmp e1
      [Ev (SftpRemove target) o;
       Ev (SftpRename tmp target) (Some e2);
       Ev (SftpRemove tmp) o';
       Ev (SftpPut local_path target) None]
| fb_both o e2 o' e3 o'' o''' :
    fallback_shape local_path target tmp e1
      [Ev (SftpRemove target) o;
       Ev (SftpRename tmp target) (Some e2);
       Ev (SftpRemove tmp) o';
       Ev (SftpPut local_path target) (Some e3);
       Ev (SftpRemove tmp) o'';
       Ev (SftpRemove tmp) o''';
       Ev (Print ("Error uploading " +:+ local_path +:+ " to " +:+ target
                  +:+ ": " +:+ aggregate_msg e1 e3)) None].

Definition is_os_remove (c : call) : bool :=
  match c with OsRemove _ => true | _ => false end.

(** How a run made of a scan followed by a loop over the scanned items fares
    at item [p]: when the step for [p] raises, the run ends there with that
    exception and nothing is done for the items after it; when the step
    returns, the run goes on with the items after it. *)
Definition loop_policy {W S X} (scan : M W S) (items : S -> list X)
    (step : S -> X -> M W unit) (run : M W unit) : Prop :=
  forall w s pre p post,
    result_of (scan w) = Ok s ->
    items s = pre ++ p :: post ->
    let before := bind scan (fun _ => for_each pre (step s)) w in
    result_of before = Ok tt ->
    let at_p := step s p (world_of before) in
    match result_of at_p with
    | Err e =>
        run w = (Err e, world_of at_p, log_of before ++ log_of at_p)
    | Ok _ =>
        let rest := for_each post (step s) (world_of at_p) in
        run w = (result_of rest, world_of rest,
                 log_of before ++ log_of at_p ++ log_of rest)
    end.

(** The first pattern of a non-empty list does not match [fname]. *)
Definition first_mismatch (fname : string) (pats : list string) : bool :=
  match pats with
  | pat :: _ => negb (Fnmatch.fnmatch fname pat)
  | [] => false
  end.

(** The rule of the Pattern Filter in the words of the specification: with a
    non-empty include set a path is a candidate only if its basename or its
    full relative path matches an include pattern; a candidate is rejected if
    the exclude set is non-empty and its basename or full path matches an
    exclude pattern. *)
Definition spec_included (path_key : string) (include exclude : list string)
    : bool :=
  let matches pats :=
    existsb (fun pat => Fnmatch.fnmatch (Path.basename path_key) pat
                        || Fnmatch.fnmatch path_key pat) pats in
  (negb (truthy include) || matches include)
  && negb (truthy exclude && matches exclude).

Definition is_get_of (remote_path : string) (c : call) : bool :=
  match c with SftpGet r _ => String.eqb r remote_path | _ => false end.

Definition is_put_of (local_path : string) (c : call) : bool :=
  match c with SftpPut l _ => String.eqb l local_path | _ => false end.



(** The calls of a download of [remote_path] to [target]. *)
Definition download_call (remote_path target : string) (c : call) : bool :=
  match c with
  | OsMakedirs d => String.eqb d (Path.dirname target)
  | SftpGet r l =>
      String.eqb r remote_path && String.eqb l (target +:+ ".tmp")
  | OsReplace a b => String.eqb a (target +:+ ".tmp") && String.eqb b target
  | OsRemove p => String.eqb p (target +:+ ".tmp")
  | Print _ => true
  | _ => false
  end.

(** ** Observations on the simulated host *)

(** The transport touched remote files at the paths [T] only, and no local
    file, on the way from [w] to [w']: in the final stores and in every
    snapshot taken in between. *)
Definition rem_step (T : list string) (w w' : Sim.world) : Prop :=
  Sim.files (Sim.loc w') = Sim.files (Sim.loc w)
  /\ (forall q, ~ In q T ->
        Sim.files (Sim.rem w') !! q = Sim.files (Sim.rem w) !! q)
  /\ exists new,
       Sim.hist w' = Sim.hist w ++ new
       /\ Forall (fun s =>
                    fst s = Sim.files (Sim.loc w)
                    /\ forall q, ~ In q T ->
                         snd s !! q = Sim.files (Sim.rem w) !! q) new.

(** The same for local files. *)
Definition loc_step (T : list string) (w w' : Sim.world) : Prop :=
  Sim.files (Sim.rem w') = Sim.files (Sim.rem w)
  /\ (forall q, ~ In q T ->
        Sim.files (Sim.loc w') !! q = Sim.files (Sim.loc w) !! q)
  /\ exists new,
       Sim.hist w' = Sim.hist w ++ new
       /\ Forall (fun s =>
                    snd s = Sim.files (Sim.rem w)
                    /\ forall q, ~ In q T ->
                         fst s !! q = Sim.files (Sim.loc w) !! q) new.

(** The snapshots taken on the way from [w] to [w']. *)
Definition new_snapshots (w w' : Sim.world)
    : list (gmap string Sim.file * gmap string Sim.file) :=
  skipn (length (Sim.hist w)) (Sim.hist w').

(** Some line printed by the run starts with [prefix]. *)
Definition reports (prefix : string) (log : list event) : bool :=
  existsb (fun ev => match ev_call ev with
                     | Print line => Str.startswith line prefix
                     | _ => false
                     end) log.

(** Some rename of the run failed. *)
Definition rename_failed (log : list event) : bool :=
  existsb (fun ev => is_rename (ev_call ev)
                     && match ev_exn ev with Some _ => true | None => false end)
    log.

(** A transfer writes file content ([put], [get]) to [tmp] only. *)
Definition writes_only (tmp : string) (c : call) : bool :=
  match c with
  | SftpPut _ r => String.eqb r tmp
  | SftpGet _ l => String.eqb l tmp
  | _ => true
  end.

(** Upload [lp] to [rp], then download it back from where it landed to
    [lp2]. *)
Definition round_trip (lp rp lp2 : string) (w : Sim.world)
    : result unit * Sim.world * list event :=
  atomic_download Sim.env (upload_target lp rp) lp2
    (world_of (atomic_upload Sim.env lp rp w)).

(** [s] contains no separator. *)
Fixpoint slash_free (s : string) : bool :=
  match s with
  | EmptyString => true
  | String c s' => negb (Str.is_slash c) && slash_free s'
  end.

(** ** Directory trees, as the scanners see them *)

(** A directory is the forest of its entries; an entry is a file or a
    directory, with the attributes its listing reports. *)
Inductive tree :=
| TFile (m : meta)
| TDir (m : meta) (entries : forest)
with forest :=
| FNil
| FCons (name : string) (t : tree) (rest : forest).

Definition tree_meta (t : tree) : meta :=
  match t with TFile m => m | TDir m _ => m end.

(** What [listdir_attr] returns for a directory. *)
Fixpoint attrs_of (f : forest) : list attr :=
  match f with
  | FNil => []
  | FCons name t rest => Attr name (tree_meta t) :: attrs_of rest
  end.

(** The mode bits say "directory" exactly for the directories. *)
Fixpoint modes_ok (f : forest) : Prop :=
  match f with
  | FNil => True
  | FCons _ t rest =>
      match t with
      | TFile m => S_ISDIR (st_mode m) = false
      | TDir m sub => S_ISDIR (st_mode m) = true /\ modes_ok sub
      end /\ modes_ok rest
  end.

(** Number of directory levels below a directory. *)
Fixpoint levels (f : forest) : nat :=
  match f with
  | FNil => 0
  | FCons _ t rest =>
      Nat.max (match t with TFile _ => 0 | TDir _ sub => S (levels sub) end)
        (levels rest)
  end.

(** The transport lists every directory below [rdir] as the forest says, and
    listing changes nothing. *)
Fixpoint lists_below {W} (env : Env W) (w : W) (rdir : string) (f : forest)
    : Prop :=
  match f with
  | FNil => True
  | FCons name t rest =>
      match t with
      | TFile _ => True
      | TDir _ sub =>
          sftp_listdir_attr env (Path.join rdir name) w = (Ok (attrs_of sub), w)
          /\ lists_below env w (Path.join rdir name) sub
      end /\ lists_below env w rdir rest
  end.

Definition lists_tree {W} (env : Env W) (w : W) (rdir : string) (f : forest)
    : Prop :=
  sftp_listdir_attr env rdir w = (Ok (attrs_of f), w)
  /\ lists_below env w rdir f.

(** The files below directory [rdir], each under [rdir] joined with the names
    on the way to it, in the order of the walk; directories contribute their
    files only. *)
Fixpoint remote_entries (rdir : string) (f : forest) : list (string * meta) :=
  match f with
  | FNil => []
  | FCons name t rest =>
      match t with
      | TFile m => [(Path.join rdir name, m)]
      | TDir _ sub => remote_entries (Path.join rdir name) sub
      end ++ remote_entries rdir rest
  end.

(** The dict obtained by assigning the pairs in order. *)
Definition dict_of_list {V} (l : list (string * V)) (d : dict V) : dict V :=
  fold_left (fun d kv => dict_set d (fst kv) (snd kv)) l d.

(** A computation in which the first exception of a call is the outcome. *)
Definition aborting {W A} (m : M W A) : Prop :=
  forall w e, first_exn (log_of (m w)) = Some e -> result_of (m w) = Err e.

(** A directory entry name: not empty, no separator, neither [.] nor [..]. *)
Definition name_ok (n : string) : bool :=
  negb (Str.is_empty n) && slash_free n
  && negb (String.eqb n ".") && negb (String.eqb n "..").

(** The directory reached from [top] through the directories [ds]. *)
Definition walk_root (top : string) (ds : list string) : string :=
  fold_left Path.join ds top.

(** The key of the file with components [comps] below the scanned root: its
    relative path, or its basename alone when that path begins with [..]. *)
Definition rel_key (comps : list string) : string :=
  let relfile := Str.join_slash comps in
  if Str.startswith relfile ".." then List.last comps "" else relfile.

(** [os.walk] on a readable tree, top-down: the triple of a directory, then
    the walks of its sub-directories in listing order. *)
Fixpoint dir_names (f : forest) : list string :=
  match f with
  | FNil => []
  | FCons name t rest =>
      match t with TDir _ _ => [name] | TFile _ => [] end ++ dir_names rest
  end.

Fixpoint file_names (f : forest) : list string :=
  match f with
  | FNil => []
  | FCons name t rest =>
      match t with TFile _ => [name] | TDir _ _ => [] end ++ file_names rest
  end.

Fixpoint sub_walks (top : string) (f : forest)
    : list (string * list string * list string) :=
  match f with
  | FNil => []
  | FCons name t rest =>
      match t with
      | TDir _ sub =>
          (Path.join top name, dir_names sub, file_names sub)
          :: sub_walks (Path.join top name) sub
      | TFile _ => []
      end ++ sub_walks top rest
  end.

Definition tree_walk (top : string) (f : forest)
    : list (string * list string * list string) :=
  (top, dir_names f, file_names f) :: sub_walks top f.

(** [os.stat] answers for every file below [top] as the forest says. *)
Fixpoint stats_below {W} (env : Env W) (w : W) (top : string) (f : forest)
    : Prop :=
  match f with
  | FNil => True
  | FCons name t rest =>
      match t with
      | TFile m => os_stat env (Path.join top name) w = (Ok m, w)
      | TDir _ sub => stats_below env w (Path.join top name) sub
      end /\ stats_below env w top rest
  end.

Fixpoint names_ok (f : forest) : bool :=
  match f with
  | FNil => true
  | FCons name t rest =>
      name_ok name
      && match t with TFile _ => true | TDir _ sub => names_ok sub end
      && names_ok rest
  end.

(** The files of the directory reached through [prefix], keyed by relative
    path. *)
Fixpoint file_entries (prefix : list string) (f : forest)
    : list (string * meta) :=
  match f with
  | FNil => []
  | FCons name t rest =>
      match t with
      | TFile m => [(rel_key (prefix ++ [name]), m)]
      | TDir _ _ => []
      end ++ file_entries prefix rest
  end.

(** The files of the directories below it, in walk order. *)
Fixpoint sub_entries (prefix : list string) (f : forest)
    : list (string * meta) :=
  match f with
  | FNil => []
  | FCons name t rest =>
      match t with
      | TDir _ sub =>
          file_entries (prefix ++ [name]) sub
          ++ sub_entries (prefix ++ [name]) sub
      | TFile _ => []
      end ++ sub_entries prefix rest
  end.

Definition local_entries (f : forest) : list (string * meta) :=
  file_entries [] f ++ sub_entries [] f.

(** A path component that normalisation keeps. *)
Definition comp_ok (c : string) : Prop :=
  slash_free c = true /\ Str.is_empty c = false.

(** The path [abspath] normalises. *)
Definition abs_of (cwd p : string) : string :=
  if Path.isabs p then p else Path.join cwd p.

(** ** Sample worlds *)

Module Demo.
Import Sim.

Definition bytes (s : string) : list Byte.byte := list_byte_of_string s.

(** Local tree [/l]: [a.txt], [b/c.txt].  Remote tree [/r]: [a.txt] (three
    seconds newer than the local one), [n/z.txt]. *)
Definition local_side : side :=
  Side (<["/l/a.txt" := File (bytes "hi") 100]>
          (<["/l/b/c.txt" := File (bytes "yo") 200]> ∅))
       ({["/l"]} ∪ {["/l/b"]}) ∅.

Definition remote_side : side :=
  Side (<["/r/a.txt" := File (bytes "remote") 103]>
          (<["/r/n/z.txt" := File (bytes "zz") 200]> ∅))
       ({["/r"]} ∪ {["/r/n"]}) ∅.

Definition w0 : world :=
  World local_side remote_side "/home/u" 1000 false [] [].

(** The same world with a fault script. *)
Definition with_faults (fs : list fault) : world :=
  World local_side remote_side "/home/u" 1000 false fs [].

(** The same world, with the local directory [/l/b] unreadable. *)
Definition w_denied : world :=
  World (Side (files local_side) (dirs local_side) {["/l/b"]})
        remote_side "/home/u" 1000 false [] [].

(** The same world, with the remote directory [/r/n] unreadable. *)
Definition w_rdenied : world :=
  World local_side
        (Side (files remote_side) (dirs remote_side) {["/r/n"]})
        "/home/u" 1000 false [] [].

End Demo.

(** ** The helpers of vaultxfer/utils.py *)

Module Utils.
Import Str.

(** [str(n)] for a natural number: its decimal digits. *)
Definition digit (d : N) : ascii := ascii_of_N (48 + d).

Fixpoint dec_go (fuel : nat) (n : N) (acc : string) : string :=
  match fuel with
  | O => acc
  | S fuel' =>
      let acc' := String (digit (n mod 10)) acc in
      if (n / 10 =? 0)%N then acc' else dec_go fuel' (n / 10) acc'
  end.

Definition dec (n : N) : string := dec_go (S (N.to_nat (N.log2 n))) n "".

(** The integer nearest to [q], a tie going to the even one. *)
Definition round_half_even (q : Q) : Z :=
  let f := Qfloor q in
  match (q - inject_Z f ?= 1 # 2)%Q with
  | Lt => f
  | Gt => (f + 1)%Z
  | Eq => if Z.even f then f else (f + 1)%Z
  end.

(** A number of tenths, written with one decimal. *)
Definition show_tenths (t : Z) : string :=
  dec (Z.to_N (t / 10)) +:+ "." +:+ dec (Z.to_N (t mod 10)).

(** [f"{x:.1f}"] for a float whose value is exactly [x]: the decimal with one
    digit after the point that is nearest to [x], a tie going to the even
    digit. *)
Definition format_1f (x : Q) : string :=
  (if Qle_bool 0 x then "" else "-")
  +:+ show_tenths (round_half_even (Qabs x * 10)).

(** The loop of [human_bytes] (lines 43-47).  The argument is an [int]; after
    the first division it is a float, which holds the quotient exactly as long
    as the argument is below 2^53 in absolute value: dividing by 1024 only
    changes the exponent.  The rational [n] is that exact value. *)
Fixpoint human_loop (units : list string) (n : Q) : string :=
  match units with
  | [] => format_1f n +:+ " PiB"
  | unit :: units' =>
      if negb (Qle_bool 1024 n) then format_1f n +:+ " " +:+ unit
      else human_loop units' (n / 1024)
  end.

Definition human_bytes (n : Z) : string :=
  human_loop ["B"; "KiB"; "MiB"; "GiB"; "TiB"] (inject_Z n).

(** *** sha256_file, sha256_remote *)

(** The part of [hashlib] the two functions use. *)
Record hasher := Hasher {
  h_state : Type;
  h_new : h_state;
  h_update : h_state -> list Byte.byte -> h_state;
  h_hexdigest : h_state -> string;
}.

(** [iter(lambda: f.read(size), b"")] on a file holding [data]: successive
    reads of at most [size] bytes, up to the first empty one. *)
Fixpoint read_chunks (fuel size : nat) (data : list Byte.byte)
    : list (list Byte.byte) :=
  match fuel with
  | O => []
  | S fuel' =>
      match take size data with
      | [] => []
      | chunk => chunk :: read_chunks fuel' size (drop size data)
      end
  end.

(** Lines 29-33 and 36-40, once the file is open and holds [data]. *)
Definition sha256_stream (hashlib_sha256 : hasher) (data : list Byte.byte)
    : string :=
  let h := h_new hashlib_sha256 in
  let h :=
    fold_left (h_update hashlib_sha256)
      (read_chunks (S (length data)) (N.to_nat 65536) data) h in
  h_hexdigest hashlib_sha256 h.

(** *** The dry-run report *)

Definition nl : string := String (ascii_of_nat 10) "".

(** [c * n] for a one-character string. *)
Fixpoint replicate (n : nat) (c : ascii) : string :=
  match n with
  | O => ""
  | S n' => String c (replicate n' c)
  end.

(** [f"{key:<15}"]: pad on the right with spaces up to [width] characters.
    Characters are counted as the model's strings have them, one per byte. *)
Definition ljust (width : nat) (key : string) : string :=
  key +:+ replicate (width - String.length key) " "%char.

Definition rule : string := replicate 81 "-"%char.

Section Report.
Context {W : Type}.
Local Open Scope eng_scope.

(** [now] is [datetime.now().strftime('%Y-%m-%d %H:%M:%S')]. *)
Definition format_dry_run_header (now : W -> string)
    (operation target : string) : M W unit :=
  print (nl +:+ "DRY RUN: " +:+ operation) ;;
  print ("Target: " +:+ target) ;;
  t <- ask now ;;
  print ("Time: " +:+ t) ;;
  print rule.

Definition format_dry_run_footer : M W unit :=
  print rule ;;
  print ("DRY RUN COMPLETE: No changes were made" +:+ nl).

Definition format_dry_run_section (title : string) : M W unit :=
  print (nl +:+ title +:+ ":").

Definition format_dry_run_item (key value : string) (indent : nat)
    : M W unit :=
  let indent_str := replicate indent " "%char in
  print (indent_str +:+ ljust 15 key +:+ ": " +:+ value).

Definition format_dry_run_action (action : string) (indent : nat)
    : M W unit :=
  let indent_str := replicate indent " "%char in
  print (indent_str +:+ "→ " +:+ action).

End Report.

End Utils.

(** ** The dry runs of vaultxfer/transfer.py *)

(** What the dry runs read from the host besides the [os] functions of the
    engine.  None of it changes the world. *)
Record Host (W : Type) := {
  (** [datetime.now().strftime('%Y-%m-%d %H:%M:%S')] *)
  now_str : W -> string;
  (** the content [open(path, "rb")] gives access to *)
  open_rb : string -> W -> result (list Byte.byte);
  (** the same for [sftp.file(path, "rb")] *)
  sftp_file_rb : string -> W -> result (list Byte.byte);
  os_getsize : string -> W -> result Z;
  os_getmtime : string -> W -> result Q;
  (** [datetime.fromtimestamp(t).strftime('%Y-%m-%d %H:%M:%S')] *)
  fromtimestamp_str : Q -> result string;
  hashlib_sha256 : Utils.hasher;
}.
Arguments now_str {W}. Arguments open_rb {W}. Arguments sftp_file_rb {W}.
Arguments os_getsize {W}.
Arguments os_getmtime {W}. Arguments fromtimestamp_str {W}.
Arguments hashlib_sha256 {W}.

Section DryRun.
Context {W : Type} (env : Env W) (host : Host W).
Import Str Path Utils.
Local Open Scope eng_scope.

(** A read of the host that may raise. *)
Definition query {A} (f : W -> result A) : M W A := fun w => (f w, w, []).

Definition sha256_file (path : string) : M W string :=
  data <- query (open_rb host path) ;;
  ret (sha256_stream (hashlib_sha256 host) data).

Definition sha256_remote (path : string) : M W string :=
  data <- query (sftp_file_rb host path) ;;
  ret (sha256_stream (hashlib_sha256 host) data).

Definition header := format_dry_run_header (now_str host).

Definition arrow : string := " → ".

(** Lines 236-237 of [dry_run_upload]. *)
Definition dry_upload_target (local_path remote_path : string) : string :=
  if ends_with_slash remote_path || is_empty (basename remote_path)
  then join remote_path (basename local_path) else remote_path.

(** Lines 242-260: the body of the [try]. *)
Definition dry_upload_body (local_path remote_path tmp_path : string)
    : M W unit :=
  file_size <- query (os_getsize host local_path) ;;
  file_hash <- sha256_file local_path ;;
  t <- query (os_getmtime host local_path) ;;
  mod_time <- lift (fromtimestamp_str host t) ;;
  header "File Upload" (local_path +:+ arrow +:+ remote_path) ;;
  format_dry_run_section "File Details" ;;
  format_dry_run_item "Local path" local_path 0 ;;
  format_dry_run_item "Remote path" remote_path 0 ;;
  format_dry_run_item "File size" (human_bytes file_size) 0 ;;
  format_dry_run_item "SHA-256" file_hash 0 ;;
  format_dry_run_item "Modified" mod_time 0 ;;
  format_dry_run_section "Operation Plan" ;;
  format_dry_run_action ("Create temporary file: " +:+ tmp_path) 0 ;;
  format_dry_run_action "Transfer data to temporary file" 0 ;;
  format_dry_run_action
    ("Verify SHA-256 hash: " +:+ substring 0 16 file_hash +:+ "...") 0 ;;
  format_dry_run_action
    ("Atomically rename: " +:+ tmp_path +:+ arrow +:+ remote_path) 0 ;;
  format_dry_run_footer.

(** Lines 262-273: the handlers. *)
Definition dry_upload_handler (local_path remote_path : string) (e : exn)
    : M W unit :=
  match e with
  | FileNotFoundError _ =>
      header "File Upload" (local_path +:+ arrow +:+ remote_path) ;;
      format_dry_run_section "Error" ;;
      format_dry_run_item "Status" "FAILED" 0 ;;
      format_dry_run_item "Reason"
        ("Local file not found: " +:+ local_path) 0 ;;
      format_dry_run_footer
  | _ =>
      header "File Upload" (local_path +:+ arrow +:+ remote_path) ;;
      format_dry_run_section "Error" ;;
      format_dry_run_item "Status" "FAILED" 0 ;;
      format_dry_run_item "Reason"
        ("Error simulating upload: " +:+ str_exn e) 0 ;;
      format_dry_run_footer
  end.

Definition dry_run_upload (local_path remote_path : string) : M W unit :=
  let remote_path := dry_upload_target local_path remote_path in
  let tmp_path := remote_path +:+ ".tmp" in
  catch (dry_upload_body local_path remote_path tmp_path)
    (dry_upload_handler local_path remote_path).

(** Lines 276-277 of [dry_run_download]. *)
Definition dry_download_target (isdir : bool) (remote_path local_path : string)
    : string :=
  if isdir then join local_path (basename remote_path) else local_path.

Definition dry_run_download (remote_path local_path : string) : M W unit :=
  isdir <- ask (os_path_isdir env local_path) ;;
  let local_path := dry_download_target isdir remote_path local_path in
  let tmp_path := local_path +:+ ".tmp" in
  header "File Download" (remote_path +:+ arrow +:+ local_path) ;;
  format_dry_run_section "Operation Plan" ;;
  format_dry_run_action ("Create temporary file: " +:+ tmp_path) 0 ;;
  format_dry_run_action "Transfer data to temporary file" 0 ;;
  format_dry_run_action
    ("Atomically rename: " +:+ tmp_path +:+ arrow +:+ local_path) 0 ;;
  format_dry_run_section "Note" ;;
  format_dry_run_item "Information"
    "Remote file details cannot be determined in dry-run mode" 0 ;;
  format_dry_run_footer.

(** [str(b)] for a [bool]. *)
Definition str_bool (b : bool) : string := if b then "True" else "False".

(** [", ".join(l)] *)
Fixpoint join_comma (l : list string) : string :=
  match l with
  | [] => ""
  | [x] => x
  | x :: l' => x +:+ ", " +:+ join_comma l'
  end.

(** [str(n)] for an [int]. *)
Definition str_int (n : Z) : string :=
  (if (n <? 0)%Z then "-" else "") +:+ dec (Z.to_N (Z.abs n)).

(** Lines 317-348: the body of the loop over the scanned files, threading
    [transferred_count]. *)
Definition dry_push_step (include exclude : list string)
    (transferred_count : Z) (entry : string * meta) : M W Z :=
  let '(rel_path, m) := entry in
  if negb (dry_run_should_include rel_path include exclude)
  then ret transferred_count
  else
    let transferred_count := (transferred_count + 1)%Z in
    (if (transferred_count <=? 10)%Z
     then format_dry_run_item rel_path (human_bytes (st_size m)) 2
     else ret tt) ;;
    ret transferred_count.

(** Lines 306-355: the body of the [try]. *)
Definition dry_push_body (local_dir : string) (include exclude : list string)
    : M W unit :=
  local_files <- list_local env local_dir ;;
  let file_count := Z.of_nat (length local_files) in
  let total_size :=
    fold_left (fun acc kv => (acc + st_size (snd kv))%Z) local_files 0%Z in
  format_dry_run_section "File Analysis" ;;
  format_dry_run_item "Files found" (str_int file_count) 0 ;;
  format_dry_run_item "Total size" (human_bytes total_size) 0 ;;
  if (0 <? file_count)%Z then
    format_dry_run_section "Files to be transferred" ;;
    transferred_count <-
      fold_m local_files (dry_push_step include exclude) 0%Z ;;
    if (10 <? transferred_count)%Z then
      format_dry_run_item
        ("... and " +:+ str_int (transferred_count - 10) +:+ " more") "" 2
    else if (transferred_count =? 0)%Z then
      format_dry_run_item "No files match the filter criteria" "" 2
    else
      format_dry_run_item (nl +:+ "Total files to transfer")
        (str_int transferred_count) 2
  else ret tt.

(** Lines 357-360: the handler. *)
Definition dry_push_handler (e : exn) : M W unit :=
  format_dry_run_section "Error" ;;
  format_dry_run_item "Status" "FAILED" 0 ;;
  format_dry_run_item "Reason"
    ("Error scanning local directory: " +:+ str_exn e) 0.

Definition dry_run_sync_push (local_dir remote_dir : string) (recursive : bool)
    (include exclude : list string) : M W unit :=
  header "Synchronization push" (local_dir +:+ arrow +:+ remote_dir) ;;
  format_dry_run_section "Operation Parameters" ;;
  format_dry_run_item "Direction" (local_dir +:+ arrow +:+ remote_dir) 0 ;;
  format_dry_run_item "Recursive" (str_bool recursive) 0 ;;
  (if truthy include
   then format_dry_run_item "Include patterns" (join_comma include) 0
   else ret tt) ;;
  (if truthy exclude
   then format_dry_run_item "Exclude patterns" (join_comma exclude) 0
   else ret tt) ;;
  catch (dry_push_body local_dir include exclude) dry_push_handler ;;
  format_dry_run_footer.

End DryRun.

(** ** Observations on reports *)

(** The lines a run printed, in order. *)
Fixpoint printed (log : list event) : list string :=
  match log with
  | [] => []
  | ev :: log' =>
      match ev_call ev with
      | Print line => line :: printed log'
      | _ => printed log'
      end
  end.

(** The scale of the [k]-th unit of [human_bytes]. *)
Definition unit_name (k : nat) : string :=
  nth k ["B"; "KiB"; "MiB"; "GiB"; "TiB"] "PiB".

(** Every call of the computation is one of [allowed], however it ends. *)
Definition calls_only {W A} (allowed : call -> bool) (m : M W A) : Prop :=
  forall w, forallb (fun ev => allowed (ev_call ev)) (log_of (m w)) = true.

Definition is_stat_call (c : call) : bool :=
  match c with OsStat _ => true | _ => false end.

(** The calls that change nothing: output and [os.stat]. *)
Definition is_report_call (c : call) : bool :=
  match c with Print _ | OsStat _ => true | _ => false end.

(** The calls that create, write, move or delete something on the remote
    side. *)
Definition writes_remote (c : call) : bool :=
  match c with
  | SftpMkdir _ | SftpPut _ _ | SftpRename _ _ | SftpRemove _ => true
  | _ => false
  end.

(** The same for the local side. *)
Definition writes_local (c : call) : bool :=
  match c with
  | SftpGet _ _ | OsMakedirs _ | OsReplace _ _ | OsRemove _ => true
  | _ => false
  end.

(** The calls an upload can make, and those a download can make. *)
Definition upload_call (c : call) : bool :=
  match c with
  | SftpChdir _ | SftpMkdir _ | SftpPut _ _ | SftpRename _ _ | SftpRemove _
  | Print _ => true
  | _ => false
  end.

Definition local_call (c : call) : bool :=
  match c with
  | SftpGet _ _ | OsMakedirs _ | OsReplace _ _ | OsRemove _ | Print _ => true
  | _ => false
  end.

(** The lines of a dry-run report. *)
Definition header_lines (now operation target : string) : list string :=
  [Utils.nl +:+ "DRY RUN: " +:+ operation; "Target: " +:+ target;
   "Time: " +:+ now; Utils.rule].

Definition footer_lines : list string :=
  [Utils.rule; "DRY RUN COMPLETE: No changes were made" +:+ Utils.nl].

Definition section_line (title : string) : string :=
  Utils.nl +:+ title +:+ ":".

Definition item_line (key value : string) (indent : nat) : string :=
  Utils.replicate indent " "%char +:+ Utils.ljust 15 key +:+ ": " +:+ value.

Definition action_line (action : string) : string := "→ " +:+ action.

(** The parameters [dry_run_sync_push] shows before it scans. *)
Definition push_parameter_lines (local_dir remote_dir : string)
    (recursive : bool) (include exclude : list string) : list string :=
  [section_line "Operation Parameters";
   item_line "Direction" (local_dir +:+ arrow +:+ remote_dir) 0;
   item_line "Recursive" (str_bool recursive) 0]
  ++ (if truthy include
      then [item_line "Include patterns" (join_comma include) 0] else [])
  ++ (if truthy exclude
      then [item_line "Exclude patterns" (join_comma exclude) 0] else []).

(** The scanned files that pass the filter of the dry run. *)
Definition dry_selected (include exclude : list string) (files : dict meta)
    : dict meta :=
  List.filter (fun kv => dry_run_should_include (fst kv) include exclude) files.

(** The line that closes the list of files, for [count] files selected. *)
Definition dry_summary_line (count : nat) : string :=
  if (10 <? count)%nat then
    item_line ("... and " +:+ str_int (Z.of_nat count - 10) +:+ " more") "" 2
  else if (count =? 0)%nat then
    item_line "No files match the filter criteria" "" 2
  else
    item_line (Utils.nl +:+ "Total files to transfer")
      (str_int (Z.of_nat count)) 2.

(** What [dry_run_sync_push] prints between the parameters and the footer,
    for the outcome [scan] of the local scan: the analysis, the first ten
    selected files and the summary; or the error. *)
Definition dry_push_lines (include exclude : list string)
    (scan : result (dict meta)) : list string :=
  match scan with
  | Ok local_files =>
      [section_line "File Analysis";
       item_line "Files found" (str_int (Z.of_nat (length local_files))) 0;
       item_line "Total size"
         (Utils.human_bytes
            (fold_left (fun acc kv => (acc + st_size (snd kv))%Z)
               local_files 0%Z)) 0]
      ++ match local_files with
         | [] => []
         | _ =>
             let selected := dry_selected include exclude local_files in
             [section_line "Files to be transferred"]
             ++ map (fun kv =>
                       item_line (fst kv)
                         (Utils.human_bytes (st_size (snd kv))) 2)
                  (take 10 selected)
             ++ [dry_summary_line (length selected)]
         end
  | Err e =>
      [section_line "Error"; item_line "Status" "FAILED" 0;
       item_line "Reason"
         ("Error scanning local directory: " +:+ str_exn e) 0]
  end.

(** What [dry_run_upload] reads about the local file, in the order it reads
    it: the size, the digest and the modification time; or the first
    exception. *)
Definition dry_upload_inputs {W} (host : Host W) (local_path : string) (w : W)
    : result (Z * string * string) :=
  match os_getsize host local_path w with
  | Err e => Err e
  | Ok file_size =>
      match open_rb host local_path w with
      | Err e => Err e
      | Ok data =>
          match os_getmtime host local_path w with
          | Err e => Err e
          | Ok t =>
              match fromtimestamp_str host t with
              | Err e => Err e
              | Ok mod_time =>
                  Ok (file_size,
                      Utils.sha256_stream (hashlib_sha256 host) data,
                      mod_time)
              end
          end
      end
  end.

(** What [dry_run_upload] prints between the header and the footer. *)
Definition dry_upload_lines (local_path target : string)
    (inputs : result (Z * string * string)) : list string :=
  match inputs with
  | Ok (file_size, file_hash, mod_time) =>
      [section_line "File Details";
       item_line "Local path" local_path 0;
       item_line "Remote path" target 0;
       item_line "File size" (Utils.human_bytes file_size) 0;
       item_line "SHA-256" file_hash 0;
       item_line "Modified" mod_time 0;
       section_line "Operation Plan";
       action_line ("Create temporary file: " +:+ target +:+ ".tmp");
       action_line "Transfer data to temporary file";
       action_line
         ("Verify SHA-256 hash: " +:+ substring 0 16 file_hash +:+ "...");
       action_line
         ("Atomically rename: " +:+ (target +:+ ".tmp") +:+ arrow +:+ target)]
  | Err e =>
      [section_line "Error";
       item_line "Status" "FAILED" 0;
       item_line "Reason"
         (match e with
          | FileNotFoundError _ => "Local file not found: " +:+ local_path
          | _ => "Error simulating upload: " +:+ str_exn e
          end) 0]
  end.

(** ** A sample host for the dry runs *)

Module DemoHost.

(** A hash object that keeps what it was fed. *)
Definition keep : Utils.hasher :=
  Utils.Hasher (list Byte.byte) [] (fun s a => s ++ a) string_of_list_byte.

Definition read_local (p : string) (w : Sim.world)
    : result (list Byte.byte) :=
  match Sim.files (Sim.loc w) !! p with
  | Some f => Ok (Sim.data f)
  | None => Err Sim.enoent
  end.

Definition read_remote (p : string) (w : Sim.world)
    : result (list Byte.byte) :=
  match Sim.files (Sim.rem w) !! p with
  | Some f => Ok (Sim.data f)
  | None => Err Sim.enoent
  end.

Definition host : Host Sim.world := {|
  now_str := fun _ => "2024-01-01 12:00:00";
  open_rb := read_local;
  sftp_file_rb := read_remote;
  os_getsize := fun p w =>
    match read_local p w with
    | Ok d => Ok (Z.of_nat (length d))
    | Err e => Err e
    end;
  os_getmtime := fun p w =>
    match Sim.files (Sim.loc w) !! p with
    | Some f => Ok (Sim.mtime f)
    | None => Err Sim.enoent
    end;
  fromtimestamp_str := fun _ => Ok "1970-01-01 00:03:20";
  hashlib_sha256 := keep;
|}.

(** The simulated host with every [os.stat] refused. *)
Definition env_unreadable : Env Sim.world := {|
  sftp_chdir := Sim.chdir;
  sftp_mkdir := Sim.mkdir;
  sftp_put := Sim.put;
  sftp_get := Sim.get;
  sftp_rename := Sim.rename;
  sftp_remove := Sim.remove;
  sftp_listdir_attr := Sim.listdir_attr;
  os_path_isdir := Sim.isdir;
  os_makedirs := Sim.makedirs;
  os_replace := Sim.replace;
  os_remove := Sim.unlink;
  os_walk := os_walk Sim.env;
  os_stat := fun _ w => (Err Sim.eacces, w);
  os_getcwd := Sim.cwd;
  set_iter := fun l => l;
|}.

End DemoHost.

(** The directories from [cur] down through [names]: [cur], [cur/n1],
    [cur/n1/n2], ... *)
Fixpoint descend (cur : string) (names : list string) : list string :=
  cur :: match names with
         | [] => []
         | n :: names' => descend (Path.join cur n) names'
         end.

(** A local tree [/l] with the directories [..a] and [..b], each holding a
    file [f]. *)
Module DemoEscape.

Definition local_side : Sim.side :=
  Sim.Side (<["/l/..a/f" := Sim.File (Demo.bytes "one") 100]>
              (<["/l/..b/f" := Sim.File (Demo.bytes "second") 200]> ∅))
           ({["/l"]} ∪ {["/l/..a"]} ∪ {["/l/..b"]}) ∅.

Definition w : Sim.world :=
  Sim.World local_side Demo.remote_side "/home/u" 1000 false [] [].

End DemoEscape.

(** The tree that holds the single file [f], below the directories [ds]. *)
Fixpoint chain (s : meta) (ds : list string) (f : string) (m : meta)
    : forest :=
  match ds with
  | [] => FCons f (TFile m) FNil
  | d :: ds' => FCons d (TDir s (chain s ds' f m)) FNil
  end.

(** A local tree [/l] with the single file [..old/z.txt]. *)
Module DemoChain.

Definition local_side : Sim.side :=
  Sim.Side (<["/l/..old/z.txt" := Sim.File (Demo.bytes "zz") 200]> ∅)
           ({["/l"]} ∪ {["/l/..old"]}) ∅.

Definition w : Sim.world :=
  Sim.World local_side Demo.remote_side "/home/u" 1000 false [] [].

End DemoChain.

(** The file [n/z.txt] on both sides, the local one 100 seconds newer. *)
Module DemoBoth.

Definition local_side : Sim.side :=
  Sim.Side (<["/l/n/z.txt" := Sim.File (Demo.bytes "newer") 300]> ∅)
           ({["/l"]} ∪ {["/l/n"]}) ∅.

Definition remote_side : Sim.side :=
  Sim.Side (<["/r/n/z.txt" := Sim.File (Demo.bytes "zz") 200]> ∅)
           ({["/r"]} ∪ {["/r/n"]}) ∅.

Definition w : Sim.world :=
  Sim.World local_side remote_side "/home/u" 1000 false [] [].

End DemoBoth.

(** The number of renames of the run that failed. *)
Definition failed_renames (log : list event) : nat :=
  length
    (List.filter
       (fun ev => is_rename (ev_call ev)
                  && match ev_exn ev with Some _ => true | None => false end)
       log).

(** Some [put] of the run to [target] returned. *)
Definition put_landed (target : string) (log : list event) : bool :=
  existsb (fun ev => match ev_call ev, ev_exn ev with
                     | SftpPut _ r, None => String.eqb r target
                     | _, _ => false
                     end) log.

(** The upload brought the file to [target]: it reported so after a rename,
    or its direct transfer to the final path (lines 57-63) returned. *)
Definition upload_done (target : string) (log : list event) : bool :=
  reports "Uploaded " log || put_landed target log.

(** Some removal of [p] by the run failed. *)
Definition remove_failed (p : string) (log : list event) : bool :=
  existsb (fun ev => match ev_call ev, ev_exn ev with
                     | SftpRemove q, Some _ => String.eqb q p
                     | _, _ => false
                     end) log.

(** * Properties *)

(** ** Running the monad *)

Section Runs.
Context {W : Type} (env : Env W).

Lemma prim_run {A} (c : call) (f : W -> result A * W) (w : W) :
  prim c f w = (fst (f w), snd (f w), [Ev c (exn_of (fst (f w)))]).
Proof. unfold prim. destruct (f w); reflexivity. Qed.

Lemma bind_ask {A B} (f : W -> A) (k : A -> M W B) (w : W) :
  bind (ask f) k w = k (f w) w.
Proof. unfold bind, ask. destruct (k (f w) w) as [[r w2] l2]. reflexivity. Qed.

Lemma from_first_rename_app (l1 l2 : list event) :
  forallb (fun ev => negb (is_rename (ev_call ev))) l1 = true ->
  from_first_rename (l1 ++ l2) = from_first_rename l2.
Proof.
  induction l1 as [|ev l1 IH]; simpl; [reflexivity|].
  intros H. apply andb_true_iff in H as [Hev Hl1].
  destruct (is_rename (ev_call ev)); [discriminate|]. auto.
Qed.

Lemma forallb_weaken {X} (f g : X -> bool) (l : list X) :
  (forall x, f x = true -> g x = true) ->
  forallb f l = true -> forallb g l = true.
Proof.
  intros Hfg. induction l as [|x l IH]; cbn; [reflexivity|].
  intros H. apply andb_true_iff in H as [Hx Hl].
  rewrite (Hfg x Hx), (IH Hl). reflexivity.
Qed.

Lemma existsb_none {X} (f g : X -> bool) (l : list X) :
  (forall x, f x = true -> g x = false) ->
  forallb f l = true -> existsb g l = false.
Proof.
  intros Hfg. induction l as [|x l IH]; cbn; [reflexivity|].
  intros H. apply andb_true_iff in H as [Hx Hl].
  rewrite (Hfg x Hx), (IH Hl). reflexivity.
Qed.

(** The directory probes and creations are [chdir] and [mkdir] calls only. *)
Lemma mkdir_parts_calls (ps : list string) :
  forall cur w,
    forallb (fun ev => is_dir_call (ev_call ev))
      (log_of (mkdir_parts env cur ps w)) = true.
Proof.
  induction ps as [|p ps IH]; intros cur w; [reflexivity|].
  cbn [mkdir_parts]. unfold bind, catch_IOError, catch, mkdir.
  rewrite prim_run.
  set (cur' := if negb (Str.is_empty cur) then Path.join cur p else p).
  destruct (sftp_mkdir env cur' w) as [[[]|e] w1]; cbn.
  - specialize (IH cur' w1).
    destruct (mkdir_parts env cur' ps w1) as [[r w2] l2]. exact IH.
  - destruct (is_IOError e); cbn; [|reflexivity].
    specialize (IH cur' w1).
    destruct (mkdir_parts env cur' ps w1) as [[r w2] l2].
    cbn. exact IH.
Qed.

Lemma ensure_remote_dir_calls (remote_path : string) (w : W) :
  forallb (fun ev => is_dir_call (ev_call ev))
    (log_of (ensure_remote_dir env remote_path w)) = true.
Proof.
  unfold ensure_remote_dir.
  destruct (negb _ && negb _); [|reflexivity].
  unfold catch_IOError, catch, chdir. rewrite prim_run.
  destruct (sftp_chdir env _ w) as [[[]|e] w1]; cbn; [reflexivity|].
  destruct (is_IOError e); cbn; [|reflexivity].
  pose proof (mkdir_parts_calls (Path.parts (Path.dirname remote_path)) "" w1) as H.
  destruct (mkdir_parts env "" _ w1) as [[r w2] l2]. exact H.
Qed.

Lemma mkdir_parts_log (ps : list string) :
  forall cur w,
    forallb (fun ev => negb (is_rename (ev_call ev)))
      (log_of (mkdir_parts env cur ps w)) = true.
Proof.
  induction ps as [|p ps IH]; intros cur w; [reflexivity|].
  cbn [mkdir_parts]. unfold bind, catch_IOError, catch, mkdir.
  rewrite prim_run.
  set (cur' := if negb (Str.is_empty cur) then Path.join cur p else p).
  destruct (sftp_mkdir env cur' w) as [[[]|e] w1]; cbn.
  - specialize (IH cur' w1).
    destruct (mkdir_parts env cur' ps w1) as [[r w2] l2]. exact IH.
  - destruct (is_IOError e); cbn; [|reflexivity].
    specialize (IH cur' w1).
    destruct (mkdir_parts env cur' ps w1) as [[r w2] l2].
    cbn. exact IH.
Qed.

Lemma ensure_remote_dir_log (remote_path : string) (w : W) :
  forallb (fun ev => negb (is_rename (ev_call ev)))
    (log_of (ensure_remote_dir env remote_path w)) = true.
Proof.
  unfold ensure_remote_dir.
  destruct (negb _ && negb _); [|reflexivity].
  unfold catch_IOError, catch, chdir. rewrite prim_run.
  destruct (sftp_chdir env _ w) as [[[]|e] w1]; cbn; [reflexivity|].
  destruct (is_IOError e); cbn; [|reflexivity].
  pose proof (mkdir_parts_log (Path.parts (Path.dirname remote_path)) "" w1) as H.
  destruct (mkdir_parts env "" _ w1) as [[r w2] l2]. exact H.
Qed.

End Runs.

(** ** atomic_upload: the rename fallback *)

(** Case analysis on the next call whose world is known. *)
Ltac step_env env :=
  match goal with
  | |- context [sftp_put env ?a ?b ?w] =>
      is_var w; destruct (sftp_put env a b w) as [[[]|?] ?] eqn:?
  | |- context [sftp_get env ?a ?b ?w] =>
      is_var w; destruct (sftp_get env a b w) as [[[]|?] ?] eqn:?
  | |- context [sftp_rename env ?a ?b ?w] =>
      is_var w; destruct (sftp_rename env a b w) as [[[]|?] ?] eqn:?
  | |- context [os_replace env ?a ?b ?w] =>
      is_var w; destruct (os_replace env a b w) as [[[]|?] ?] eqn:?
  | |- context [sftp_chdir env ?a ?w] =>
      is_var w; destruct (sftp_chdir env a w) as [[[]|?] ?] eqn:?
  | |- context [sftp_mkdir env ?a ?w] =>
      is_var w; destruct (sftp_mkdir env a w) as [[[]|?] ?] eqn:?
  | |- context [sftp_remove env ?a ?w] =>
      is_var w; destruct (sftp_remove env a w) as [[[]|?] ?] eqn:?
  | |- context [os_makedirs env ?a ?w] =>
      is_var w; destruct (os_makedirs env a w) as [[[]|?] ?] eqn:?
  | |- context [os_remove env ?a ?w] =>
      is_var w; destruct (os_remove env a w) as [[[]|?] ?] eqn:?
  end; cbn.

Ltac unfold_engine :=
  unfold move_into_place, upload_body, upload_handler, download_body,
    download_handler, catch_IOError, ignore, catch, bind, ret, raise, lift,
    ask, print, chdir, mkdir, put, get, rename, remove, makedirs, replace,
    unlink, prim, result_of, log_of, world_of; cbn.

Section Upload.
Context {W : Type} (env : Env W).

(** The log of the rename block and what it returns. *)
Lemma move_into_place_cases (lp target tmp : string) (w : W) :
  let r := move_into_place env lp target tmp w in
  (result_of r = Ok Fallthrough /\ log_of r = [Ev (SftpRename tmp target) None])
  \/ exists e1 post,
       log_of r = Ev (SftpRename tmp target) (Some e1) :: post
       /\ ((exists o, result_of r = Ok Fallthrough
                      /\ post = [Ev (SftpRemove target) o;
                                 Ev (SftpRename tmp target) None])
           \/ (exists o e2 o', result_of r = Ok Returned
                 /\ post = [Ev (SftpRemove target) o;
                            Ev (SftpRename tmp target) (Some e2);
                            Ev (SftpRemove tmp) o';
                            Ev (SftpPut lp target) None])
           \/ (exists o e2 o' e3 o'',
                 result_of r = Err (RuntimeError (aggregate_msg e1 e3))
                 /\ post = [Ev (SftpRemove target) o;
                            Ev (SftpRename tmp target) (Some e2);
                            Ev (SftpRemove tmp) o';
                            Ev (SftpPut lp target) (Some e3);
                            Ev (SftpRemove tmp) o''])).
Proof.
  unfold_engine.
  repeat step_env env.
  all: first [ left; split; reflexivity | right; eexists _, _; split; [reflexivity|] ].
  all: first [ left; eexists; split; reflexivity
             | right; left; eexists _, _, _; split; reflexivity
             | right; right; eexists _, _, _, _, _; split; reflexivity ].
Qed.

(** C6. When the first rename of the temporary file fails, [atomic_upload]
    removes the existing target and retries the rename; when the retry fails
    too it removes the temporary file and puts the local file directly at the
    final path; and when that put fails as well it cleans the temporary file up
    (best effort) and reports one error line that carries both the message of
    the first rename failure and the message of the fallback failure.  In each
    case the function itself returns to its caller. *)
Theorem atomic_upload_rename_fallback
    (lp rp : string) (w : W) (e1 : exn) (post : list event) :
  from_first_rename (log_of (atomic_upload env lp rp w))
    = Ev (SftpRename (upload_target lp rp +:+ ".tmp") (upload_target lp rp))
         (Some e1) :: post ->
  fallback_shape lp (upload_target lp rp) (upload_target lp rp +:+ ".tmp")
    e1 post
  /\ result_of (atomic_upload env lp rp w) = Ok tt.
Proof.
  set (target := upload_target lp rp). set (tmp := target +:+ ".tmp").
  unfold atomic_upload. fold target. fold tmp.
  pose proof (ensure_remote_dir_log env target w) as Hdirs.
  unfold upload_body, catch, bind.
  destruct (ensure_remote_dir env target w) as [[r0 w0] l0].
  unfold log_of in Hdirs. cbn in Hdirs.
  destruct r0 as [[]|e0].
  2:{ destruct e0; unfold_engine; repeat step_env env;
      rewrite <- ?app_assoc; rewrite from_first_rename_app by assumption;
      cbn; discriminate. }
  unfold_engine.
  repeat step_env env.
  all: try match goal with
       | |- context [match ?e with FileNotFoundError _ => _ | _ => _ end] =>
           destruct e; cbn; repeat step_env env
       end.
  all: rewrite <- ?app_assoc; rewrite from_first_rename_app by assumption; cbn.
  all: try discriminate.
  all: intros H; inversion H; subst; split; [constructor | reflexivity].
Qed.

End Upload.

(** The target exists and the server does not replace on rename, the retry is
    made to fail and so is the direct put. *)
Lemma atomic_upload_rename_fallback_witness :
  fallback_shape "/l/a.txt" "/r/a.txt" "/r/a.txt.tmp" Sim.failure
    [Ev (SftpRemove "/r/a.txt") None;
     Ev (SftpRename "/r/a.txt.tmp" "/r/a.txt") (Some (OtherError "lost"));
     Ev (SftpRemove "/r/a.txt.tmp") None;
     Ev (SftpPut "/l/a.txt" "/r/a.txt") (Some (PermissionError "denied"));
     Ev (SftpRemove "/r/a.txt.tmp") (Some Sim.enoent);
     Ev (SftpRemove "/r/a.txt.tmp") (Some Sim.enoent);
     Ev (Print "Error uploading /l/a.txt to /r/a.txt: Failed to move uploaded temp file to final path: rename error: Failure; fallback put error: denied") None]
  /\ result_of
       (atomic_upload Sim.env "/l/a.txt" "/r/a.txt"
          (Demo.with_faults
             [Sim.Pass; Sim.Pass; Sim.Pass; Sim.Pass;
              Sim.Fail (OtherError "lost"); Sim.Pass;
              Sim.Fail (PermissionError "denied")])) = Ok tt.
Proof.
  apply (atomic_upload_rename_fallback Sim.env "/l/a.txt" "/r/a.txt").
  vm_compute. reflexivity.
Defined.

(** ** atomic_download: which failures reach the caller *)

Section Download.
Context {W : Type} (env : Env W).

(** The outcome of [atomic_download] by the first exception of its run. *)
Lemma atomic_download_outcome (rp lp : string) (w : W) :
  let target := download_target (os_path_isdir env lp w) rp lp in
  let r := atomic_download env rp lp w in
  match first_exn (log_of r) with
  | None => result_of r = Ok tt
  | Some e =>
      match e with
      | FileNotFoundError _ | PermissionError _ =>
          result_of r = Ok tt
          /\ forallb (fun ev => negb (is_os_remove (ev_call ev))) (log_of r)
             = true
      | _ =>
          result_of r
          = Err (RuntimeError ("Failed to download " +:+ rp +:+ " to "
                               +:+ target +:+ ": " +:+ str_exn e))
          /\ exists pre o,
               log_of r
               = pre ++ [Ev (Print ("Error downloading " +:+ rp +:+ " to "
                                    +:+ target +:+ ": " +:+ str_exn e)) None;
                         Ev (OsRemove (target +:+ ".tmp")) o]
      end
  end.
Proof.
  intros target r.
  assert (E : r = catch (download_body env rp target (target +:+ ".tmp"))
                    (download_handler env rp target (target +:+ ".tmp")) w).
  { subst r. unfold atomic_download. rewrite bind_ask. reflexivity. }
  rewrite E. clear E r. clearbody target.
  unfold_engine.
  destruct (negb _ && negb _); cbn.
  all: repeat step_env env.
  all: try reflexivity.
  all: match goal with
       | e : exn |- _ => destruct e; cbn; repeat step_env env
       end.
  all: try (split; reflexivity).
  all: split; [reflexivity|].
  all: first [ exists []; eexists; reflexivity
             | eexists [_]; eexists; reflexivity
             | eexists [_; _]; eexists; reflexivity
             | eexists [_; _; _]; eexists; reflexivity ].
Qed.

(** C3, as the code has it. A download that fails with anything but a missing
    file or a denied permission is reported, the temporary file is removed
    (best effort) and a [RuntimeError] is raised to the caller; a download that
    fails with [FileNotFoundError] or [PermissionError] is only reported:
    [atomic_download] returns normally and leaves the temporary file alone. *)
Theorem atomic_download_failure (rp lp : string) (w : W) (e : exn) :
  first_exn (log_of (atomic_download env rp lp w)) = Some e ->
  match e with
  | FileNotFoundError _ | PermissionError _ =>
      result_of (atomic_download env rp lp w) = Ok tt
      /\ forallb (fun ev => negb (is_os_remove (ev_call ev)))
           (log_of (atomic_download env rp lp w)) = true
  | _ =>
      result_of (atomic_download env rp lp w)
      = Err (RuntimeError
               ("Failed to download " +:+ rp +:+ " to "
                +:+ download_target (os_path_isdir env lp w) rp lp
                +:+ ": " +:+ str_exn e))
      /\ exists pre o,
           log_of (atomic_download env rp lp w)
           = pre ++ [Ev (Print ("Error downloading " +:+ rp +:+ " to "
                                +:+ download_target (os_path_isdir env lp w) rp lp
                                +:+ ": " +:+ str_exn e)) None;
                     Ev (OsRemove (download_target (os_path_isdir env lp w) rp lp
                                   +:+ ".tmp")) o]
  end.
Proof.
  intros H. pose proof (atomic_download_outcome rp lp w) as Hout.
  cbv zeta in Hout. rewrite H in Hout. exact Hout.
Qed.

End Download.

(** A transfer that the transport cuts short after two bytes: reported,
    temporary file removed, [RuntimeError] raised. *)
Lemma atomic_download_failure_witness :
  result_of (atomic_download Sim.env "/r/a.txt" "/l/q.txt"
               (Demo.with_faults [Sim.Cut (IOError "Connection reset") 2]))
  = Err (RuntimeError
           "Failed to download /r/a.txt to /l/q.txt: Connection reset")
  /\ exists pre o,
       log_of (atomic_download Sim.env "/r/a.txt" "/l/q.txt"
                 (Demo.with_faults [Sim.Cut (IOError "Connection reset") 2]))
       = pre ++ [Ev (Print "Error downloading /r/a.txt to /l/q.txt: Connection reset") None;
                 Ev (OsRemove "/l/q.txt.tmp") o].
Proof.
  apply (atomic_download_failure Sim.env "/r/a.txt" "/l/q.txt"
           (Demo.with_faults [Sim.Cut (IOError "Connection reset") 2])
           (IOError "Connection reset")).
  vm_compute. reflexivity.
Defined.

(** C3, as stated, fails: the remote source is missing, the download fails
    with [FileNotFoundError], and [atomic_download] returns normally, without
    removing the (empty) temporary file it created. *)
Lemma atomic_download_swallows_missing_source :
  first_exn (log_of (atomic_download Sim.env "/r/missing.txt" "/l/q.txt" Demo.w0))
  = Some Sim.enoent
  /\ result_of (atomic_download Sim.env "/r/missing.txt" "/l/q.txt" Demo.w0)
     = Ok tt
  /\ forallb (fun ev => negb (is_os_remove (ev_call ev)))
       (log_of (atomic_download Sim.env "/r/missing.txt" "/l/q.txt" Demo.w0))
     = true
  /\ Sim.has_file
       (Sim.loc (world_of (atomic_download Sim.env "/r/missing.txt" "/l/q.txt"
                             Demo.w0)))
       "/l/q.txt.tmp" = true.
Proof. vm_compute. repeat split. Qed.

(** ** Failures inside a multi-file run *)

Section Policy.
Context {W : Type} (env : Env W).

(** [atomic_upload] catches whatever its body raises. *)
Lemma atomic_upload_returns (lp rp : string) (w : W) :
  result_of (atomic_upload env lp rp w) = Ok tt.
Proof.
  unfold atomic_upload.
  set (target := upload_target lp rp). set (tmp := target +:+ ".tmp").
  unfold upload_body, catch, bind.
  destruct (ensure_remote_dir env target w) as [[r0 w0] l0].
  destruct r0 as [[]|e0].
  2:{ destruct e0; unfold_engine; repeat step_env env; reflexivity. }
  unfold_engine.
  repeat step_env env.
  all: try reflexivity.
  all: match goal with
       | |- context [match ?e with FileNotFoundError _ => _ | _ => _ end] =>
           destruct e; cbn; repeat step_env env
       end.
  all: reflexivity.
Qed.

Lemma for_each_app {X} (body : X -> M W unit) (l1 l2 : list X) (w : W) :
  for_each (l1 ++ l2) body w
  = bind (for_each l1 body) (fun _ => for_each l2 body) w.
Proof.
  revert w. induction l1 as [|x l1 IH]; intros w; cbn.
  - unfold bind, ret. destruct (for_each l2 body w) as [[r w2] l2']. reflexivity.
  - unfold bind at 1 2 3. destruct (body x w) as [[[[]|e] w1] la]; [|reflexivity].
    rewrite IH. unfold bind.
    destruct (for_each l1 body w1) as [[[[]|e] w2] lb]; [|reflexivity].
    destruct (for_each l2 body w2) as [[r w3] lc].
    rewrite app_assoc. reflexivity.
Qed.

(** A scan followed by a plain loop has the loop policy: no handler stands
    between a step and the end of the run. *)
Lemma scan_then_loop {S X} (scan : M W S) (items : S -> list X)
    (step : S -> X -> M W unit) (run : M W unit) :
  (forall w, run w = bind scan (fun s => for_each (items s) (step s)) w) ->
  loop_policy scan items step run.
Proof.
  intros Hrun w s pre p post Hscan Hitems before Hbefore at_p.
  rewrite Hrun. subst before at_p. revert Hscan Hbefore.
  unfold bind, result_of, world_of, log_of.
  destruct (scan w) as [[r0 w0] l0]. cbn. intros ->.
  rewrite Hitems, for_each_app. unfold bind. cbn [for_each].
  destruct (for_each pre (step s) w0) as [[r1 w1] l1]. cbn. intros ->.
  unfold bind.
  destruct (step s p w1) as [[[[]|e] w2] l2]; cbn.
  - destruct (for_each post (step s) w2) as [[r3 w3] l3]. cbn.
    rewrite <- !app_assoc. reflexivity.
  - rewrite <- !app_assoc. reflexivity.
Qed.

(** C4, as the code has it.  A failing upload never leaves [atomic_upload], and
    a download that fails for a missing file or a denied permission never
    leaves [atomic_download]: those are reported and the run goes on.  Any
    other failing download leaves [atomic_download] as an exception; the three
    entry points have no handler around a step, so a step that raises ends the
    run at that path, and a step that returns is followed by the next path. *)
Theorem sync_failure_policy :
  (forall lp rp w, result_of (atomic_upload env lp rp w) = Ok tt)
  /\ (forall rp lp w,
        match first_exn (log_of (atomic_download env rp lp w)) with
        | None | Some (FileNotFoundError _) | Some (PermissionError _) =>
            result_of (atomic_download env rp lp w) = Ok tt
        | Some _ => is_Err (result_of (atomic_download env rp lp w)) = true
        end)
  /\ (forall depth rd ld inc exc,
        loop_policy (list_remote env depth rd) dict_keys
          (fun _ => pull_step env (Str.rstrip_slash rd) ld inc exc)
          (sync_pull env depth rd ld inc exc))
  /\ (forall depth ld rd inc exc,
        loop_policy (bidir_scan env depth ld rd) snd
          (fun s => bidir_step env ld (Str.rstrip_slash rd) inc exc
                      (fst (fst s)) (snd (fst s)))
          (sync_bidirectional env depth ld rd inc exc))
  /\ (forall ld rd inc exc,
        loop_policy (list_local env ld) dict_keys
          (fun _ => push_step env ld rd inc exc)
          (sync_push env ld rd inc exc)).
Proof.
  split; [exact atomic_upload_returns|].
  split.
  { intros rp lp w. pose proof (atomic_download_outcome env rp lp w) as H.
    cbv zeta in H.
    destruct (first_exn (log_of (atomic_download env rp lp w))) as [e|];
      [|exact H].
    destruct e; try (destruct H as [-> _]; reflexivity). }
  split; [|split].
  - intros. apply scan_then_loop. reflexivity.
  - intros. apply scan_then_loop. intros w.
    unfold sync_bidirectional, bind.
    destruct (bidir_scan env depth ld rd w) as [[[[[lf rf] al]|e] w1] l1];
      reflexivity.
  - intros. apply scan_then_loop. reflexivity.
Qed.

End Policy.

(** A transfer of the first remote file is cut by the transport: C4, as stated,
    fails.  [sync_pull] ends with the [RuntimeError] of that download and the
    second remote file, [/r/a.txt], is never fetched. *)
Lemma sync_pull_aborts_on_failed_download :
  result_of (sync_pull Sim.env 10 "/r" "/l" [] []
               (Demo.with_faults
                  [Sim.Pass; Sim.Pass; Sim.Fail (IOError "Connection reset")]))
  = Err (RuntimeError
           "Failed to download /r/n/z.txt to /l/n/z.txt: Connection reset")
  /\ dict_keys
       (match result_of (list_remote Sim.env 10 "/r" Demo.w0) with
        | Ok files => files
        | Err _ => []
        end) = ["/r/n/z.txt"; "/r/a.txt"]
  /\ existsb (fun ev => is_get_of "/r/a.txt" (ev_call ev))
       (log_of (sync_pull Sim.env 10 "/r" "/l" [] []
                  (Demo.with_faults
                     [Sim.Pass; Sim.Pass;
                      Sim.Fail (IOError "Connection reset")]))) = false.
Proof. vm_compute. repeat split. Qed.

(** ** The pattern filters *)

Section Filters.
Context {W : Type} (env : Env W).

Lemma push_should_include_cases (fname : string) (inc exc : list string) :
  push_should_include fname inc exc
  = if first_mismatch fname inc || first_mismatch fname exc
    then Err (NameError "name 'rel_path' is not defined")
    else Ok (negb (truthy exc)).
Proof.
  unfold push_should_include, first_mismatch.
  destruct inc as [|p inc]; destruct exc as [|q exc]; cbn;
    repeat match goal with
           | |- context [Fnmatch.fnmatch ?a ?b] =>
               destruct (Fnmatch.fnmatch a b); cbn
           end; reflexivity.
Qed.

(** C10, as the code has it.  The step of [sync_push] for a path raises
    [NameError], before any call is made for that path, exactly when its
    basename does not match the first pattern of a non-empty include list or,
    otherwise, the first pattern of a non-empty exclude list; in every other
    case the step creates the remote directories and uploads the file, whatever
    the filter said.  The whole push ends with the [NameError] at the first
    such path of the scan. *)
Theorem sync_push_name_error (ld rd : string) (inc exc : list string) :
  (forall rel w,
     push_step env ld rd inc exc rel w
     = if first_mismatch (Path.basename rel) inc
          || first_mismatch (Path.basename rel) exc
       then (Err (NameError "name 'rel_path' is not defined"), w, [])
       else bind (push_ensure_dirs env (Path.join rd rel))
              (fun _ => atomic_upload env (Path.join ld rel) (Path.join rd rel))
              w)
  /\ (forall w files pre rel post,
        result_of (list_local env ld w) = Ok files ->
        dict_keys files = pre ++ rel :: post ->
        result_of (bind (list_local env ld)
                     (fun _ => for_each pre (push_step env ld rd inc exc)) w)
        = Ok tt ->
        first_mismatch (Path.basename rel) inc
        || first_mismatch (Path.basename rel) exc = true ->
        result_of (sync_push env ld rd inc exc w)
        = Err (NameError "name 'rel_path' is not defined")
        /\ log_of (sync_push env ld rd inc exc w)
           = log_of (bind (list_local env ld)
                       (fun _ => for_each pre (push_step env ld rd inc exc)) w)).
Proof.
  assert (Hstep : forall rel w,
     push_step env ld rd inc exc rel w
     = if first_mismatch (Path.basename rel) inc
          || first_mismatch (Path.basename rel) exc
       then (Err (NameError "name 'rel_path' is not defined"), w, [])
       else bind (push_ensure_dirs env (Path.join rd rel))
              (fun _ => atomic_upload env (Path.join ld rel) (Path.join rd rel))
              w).
  { intros rel w. unfold push_step. rewrite push_should_include_cases.
    destruct (first_mismatch _ inc || first_mismatch _ exc); [reflexivity|].
    unfold bind at 1, lift.
    destruct (bind _ _ w) as [[r w1] l1]. reflexivity. }
  split; [exact Hstep|].
  intros w files pre rel post Hscan Hkeys Hbefore Hmis.
  pose proof (scan_then_loop (list_local env ld) dict_keys
                (fun _ => push_step env ld rd inc exc)
                (sync_push env ld rd inc exc) (fun _ => eq_refl)
                w files pre rel post Hscan Hkeys Hbefore) as H.
  cbv beta zeta in H. rewrite Hstep, Hmis in H.
  change (result_of (Err (NameError "name 'rel_path' is not defined"),
                     world_of (bind (list_local env ld)
                       (fun _ => for_each pre (push_step env ld rd inc exc)) w),
                     @nil event))
    with (@Err unit (NameError "name 'rel_path' is not defined")) in H.
  cbv iota in H. rewrite H. unfold result_of, log_of. cbn.
  rewrite app_nil_r. split; reflexivity.
Qed.

End Filters.

(** A push of [/l] filtered by [*.md]: the first basename, [a.txt], does not
    match, and the push ends with the [NameError] right after the scan. *)
Lemma sync_push_name_error_witness :
  result_of (sync_push Sim.env "/l" "/r" ["*.md"] [] Demo.w0)
  = Err (NameError "name 'rel_path' is not defined")
  /\ log_of (sync_push Sim.env "/l" "/r" ["*.md"] [] Demo.w0)
     = log_of (bind (list_local Sim.env "/l")
                 (fun _ => for_each []
                             (push_step Sim.env "/l" "/r" ["*.md"] [])) Demo.w0).
Proof.
  apply (proj2 (sync_push_name_error Sim.env "/l" "/r" ["*.md"] []) Demo.w0
           [("a.txt", Meta 33188 2 100); ("b/c.txt", Meta 33188 2 200)]
           [] "a.txt" ["b/c.txt"]).
  - vm_compute. reflexivity.
  - reflexivity.
  - vm_compute. reflexivity.
  - vm_compute. reflexivity.
Defined.

(** C10, as stated, fails: a push with the non-empty include set [*] over a
    local tree of two files raises nothing and uploads both files. *)
Lemma sync_push_with_filter_completes :
  result_of (sync_push Sim.env "/l" "/r" ["*"] [] Demo.w0) = Ok tt
  /\ existsb (fun ev => is_put_of "/l/a.txt" (ev_call ev))
       (log_of (sync_push Sim.env "/l" "/r" ["*"] [] Demo.w0)) = true
  /\ existsb (fun ev => is_put_of "/l/b/c.txt" (ev_call ev))
       (log_of (sync_push Sim.env "/l" "/r" ["*"] [] Demo.w0)) = true.
Proof. vm_compute. repeat split. Qed.

(** The filter of [dry_run_sync_push] is the rule of the specification. *)
Lemma dry_run_filter_is_spec (rel_path : string) (inc exc : list string) :
  dry_run_should_include rel_path inc exc = spec_included rel_path inc exc.
Proof.
  unfold dry_run_should_include, spec_included.
  destruct (truthy inc); cbn; [|destruct (truthy exc); cbn];
    repeat match goal with
           | |- context [existsb ?f ?l] => destruct (existsb f l); cbn
           | |- context [truthy ?l] => destruct (truthy l); cbn
           end; reflexivity.
Qed.

(** The filter of [sync_pull] and [sync_bidirectional] looks at the basename
    only. *)
Lemma passes_filter_basename (fname : string) (inc exc : list string) :
  passes_filter fname inc exc
  = (negb (truthy inc) || any_match fname inc)
    && negb (truthy exc && any_match fname exc).
Proof.
  unfold passes_filter.
  destruct (truthy inc), (any_match fname inc), (truthy exc),
    (any_match fname exc); reflexivity.
Qed.

(** C2 on the code.  The three paths of the example are decided as the
    specification says by the basename filter of pull and bidirectional sync.
    But with the exclude pattern [n/*], which matches the relative path
    [n/z.txt] and not its basename, the specification rejects the path, the
    filter of pull and bidirectional sync lets it through and [sync_pull]
    fetches the file; and [sync_push] uploads [a.txt] although the exclude
    pattern [*] matches it. *)
Theorem filter_ignores_relative_path :
  (passes_filter (Path.basename "notes/secret.txt") ["*.txt"] ["secret*"] = false
   /\ passes_filter (Path.basename "notes/plan.txt") ["*.txt"] ["secret*"] = true
   /\ passes_filter (Path.basename "notes/plan.md") ["*.txt"] ["secret*"] = false)
  /\ (spec_included "n/z.txt" [] ["n/*"] = false
      /\ passes_filter (Path.basename "n/z.txt") [] ["n/*"] = true
      /\ existsb (fun ev => is_get_of "/r/n/z.txt" (ev_call ev))
           (log_of (sync_pull Sim.env 10 "/r" "/l" [] ["n/*"] Demo.w0)) = true)
  /\ (spec_included "a.txt" [] ["*"] = false
      /\ existsb (fun ev => is_put_of "/l/a.txt" (ev_call ev))
           (log_of (sync_push Sim.env "/l" "/r" [] ["*"] Demo.w0)) = true).
Proof. vm_compute. repeat split. Qed.

(** ** Paths *)

Section PathFacts.
Import Str Path.

Lemma length_append (a b : string) :
  String.length (a +:+ b) = String.length a + String.length b.
Proof.
  induction a as [|c a IH]; [reflexivity|].
  change (String c a +:+ b) with (String c (a +:+ b)).
  cbn. now rewrite IH.
Qed.

Lemma append_longer (a b : string) :
  0 < String.length b -> a +:+ b <> a.
Proof.
  intros Hb E. apply (f_equal String.length) in E.
  rewrite length_append in E. lia.
Qed.




(** A prefix no longer than [a] is decided by [a] alone. *)
Lemma startswith_append (a b p : string) :
  String.length p <= String.length a ->
  startswith (a +:+ b) p = startswith a p.
Proof.
  revert p. induction a as [|c a IH]; intros p Hp.
  - destruct p; [destruct b; reflexivity | cbn in Hp; lia].
  - change (String c a +:+ b) with (String c (a +:+ b)).
    destruct p as [|k p]; [reflexivity|]. cbn in Hp. cbn [startswith].
    rewrite IH by lia. reflexivity.
Qed.

End PathFacts.

(** ** sync_bidirectional: the decision for a path present on both sides *)

Section Bidirectional.
Context {W : Type} (env : Env W).

(** Every call of a download is one of the five of its protocol. *)
Lemma atomic_download_calls (rp lp : string) (w : W) :
  forallb (fun ev => download_call rp
                       (download_target (os_path_isdir env lp w) rp lp)
                       (ev_call ev))
    (log_of (atomic_download env rp lp w)) = true.
Proof.
  set (target := download_target (os_path_isdir env lp w) rp lp).
  assert (E : atomic_download env rp lp w
              = catch (download_body env rp target (target +:+ ".tmp"))
                  (download_handler env rp target (target +:+ ".tmp")) w).
  { unfold atomic_download. rewrite bind_ask. reflexivity. }
  rewrite E. clear E. clearbody target.
  unfold_engine.
  destruct (negb _ && negb _); cbn.
  all: repeat step_env env.
  all: try match goal with
       | e : exn |- _ => destruct e; cbn; repeat step_env env
       end.
  all: rewrite ?String.eqb_refl; reflexivity.
Qed.


End Bidirectional.

Section BidirectionalDecision.
Context {W : Type} (env : Env W).
Import Str Path.


End BidirectionalDecision.

(** ** The simulated host: what each call touches *)

Module SimFacts.
Import Sim.

Lemma rem_step_refl (T : list string) (w : world) : rem_step T w w.
Proof.
  split; [reflexivity|]. split; [reflexivity|].
  exists []. rewrite app_nil_r. split; [reflexivity | constructor].
Qed.

Lemma loc_step_refl (T : list string) (w : world) : loc_step T w w.
Proof.
  split; [reflexivity|]. split; [reflexivity|].
  exists []. rewrite app_nil_r. split; [reflexivity | constructor].
Qed.

Lemma rem_step_trans (T : list string) (w1 w2 w3 : world) :
  rem_step T w1 w2 -> rem_step T w2 w3 -> rem_step T w1 w3.
Proof.
  intros (Hl1 & Hr1 & n1 & Hh1 & Hf1) (Hl2 & Hr2 & n2 & Hh2 & Hf2).
  split; [congruence|]. split.
  - intros q Hq. rewrite Hr2, Hr1 by assumption. reflexivity.
  - exists (n1 ++ n2). split; [rewrite Hh2, Hh1, app_assoc; reflexivity|].
    apply Forall_app. split; [exact Hf1|].
    eapply Forall_impl; [exact Hf2|]. cbn.
    intros s [Hs1 Hs2]. split; [congruence|].
    intros q Hq. rewrite Hs2, Hr1 by assumption. reflexivity.
Qed.

Lemma loc_step_trans (T : list string) (w1 w2 w3 : world) :
  loc_step T w1 w2 -> loc_step T w2 w3 -> loc_step T w1 w3.
Proof.
  intros (Hl1 & Hr1 & n1 & Hh1 & Hf1) (Hl2 & Hr2 & n2 & Hh2 & Hf2).
  split; [congruence|]. split.
  - intros q Hq. rewrite Hr2, Hr1 by assumption. reflexivity.
  - exists (n1 ++ n2). split; [rewrite Hh2, Hh1, app_assoc; reflexivity|].
    apply Forall_app. split; [exact Hf1|].
    eapply Forall_impl; [exact Hf2|]. cbn.
    intros s [Hs1 Hs2]. split; [congruence|].
    intros q Hq. rewrite Hs2, Hr1 by assumption. reflexivity.
Qed.

Lemma rem_step_weaken (T T' : list string) (w w' : world) :
  (forall q, In q T -> In q T') -> rem_step T w w' -> rem_step T' w w'.
Proof.
  intros HT (Hl & Hr & n & Hh & Hf).
  split; [exact Hl|]. split; [intros q Hq; apply Hr; auto|].
  exists n. split; [exact Hh|].
  eapply Forall_impl; [exact Hf|]. cbn. intros s [Hs1 Hs2].
  split; [exact Hs1 | intros q Hq; apply Hs2; auto].
Qed.

Lemma loc_step_weaken (T T' : list string) (w w' : world) :
  (forall q, In q T -> In q T') -> loc_step T w w' -> loc_step T' w w'.
Proof.
  intros HT (Hl & Hr & n & Hh & Hf).
  split; [exact Hl|]. split; [intros q Hq; apply Hr; auto|].
  exists n. split; [exact Hh|].
  eapply Forall_impl; [exact Hf|]. cbn. intros s [Hs1 Hs2].
  split; [exact Hs1 | intros q Hq; apply Hs2; auto].
Qed.

(** Consuming a fault changes no store. *)
Lemma next_fault_stores (w : world) :
  loc (snd (next_fault w)) = loc w
  /\ rem (snd (next_fault w)) = rem w
  /\ hist (snd (next_fault w)) = hist w
  /\ now (snd (next_fault w)) = now w
  /\ replace_on_rename (snd (next_fault w)) = replace_on_rename w.
Proof. unfold next_fault. destruct (faults w); repeat split. Qed.

Lemma write_rem_spec (w : world) (p : string) (d : list Byte.byte) (n : nat) :
  loc (write_rem w p d n) = loc w
  /\ dirs (rem (write_rem w p d n)) = dirs (rem w)
  /\ files (rem (write_rem w p d n))
     = <[p := File (take n d) (now w)]> (files (rem w))
  /\ rem_step [p] w (write_rem w p d n).
Proof.
  induction n as [|n (IHl & IHd & IHf & IHs)]; cbn.
  - repeat split; try reflexivity.
    + intros q Hq. cbn. rewrite lookup_insert_ne; [reflexivity|].
      intros ->. apply Hq. left. reflexivity.
    + eexists [_]. split; [reflexivity|]. constructor; [|constructor]. cbn.
      split; [reflexivity|]. intros q Hq.
      rewrite lookup_insert_ne; [reflexivity|].
      intros ->. apply Hq. left. reflexivity.
  - split; [exact IHl|]. split; [exact IHd|]. split.
    + rewrite IHf. rewrite insert_insert_eq. reflexivity.
    + eapply rem_step_trans; [exact IHs|].
      split; [reflexivity|]. split.
      * intros q Hq. cbn. rewrite lookup_insert_ne; [reflexivity|].
        intros ->. apply Hq. left. reflexivity.
      * eexists [_]. split; [reflexivity|]. constructor; [|constructor]. cbn.
        split; [reflexivity|]. intros q Hq.
        rewrite lookup_insert_ne; [reflexivity|].
        intros ->. apply Hq. left. reflexivity.
Qed.

Lemma write_loc_spec (w : world) (p : string) (d : list Byte.byte) (n : nat) :
  rem (write_loc w p d n) = rem w
  /\ dirs (loc (write_loc w p d n)) = dirs (loc w)
  /\ files (loc (write_loc w p d n))
     = <[p := File (take n d) (now w)]> (files (loc w))
  /\ loc_step [p] w (write_loc w p d n).
Proof.
  induction n as [|n (IHl & IHd & IHf & IHs)]; cbn.
  - repeat split; try reflexivity.
    + intros q Hq. cbn. rewrite lookup_insert_ne; [reflexivity|].
      intros ->. apply Hq. left. reflexivity.
    + eexists [_]. split; [reflexivity|]. constructor; [|constructor]. cbn.
      split; [reflexivity|]. intros q Hq.
      rewrite lookup_insert_ne; [reflexivity|].
      intros ->. apply Hq. left. reflexivity.
  - split; [exact IHl|]. split; [exact IHd|]. split.
    + rewrite IHf. rewrite insert_insert_eq. reflexivity.
    + eapply loc_step_trans; [exact IHs|].
      split; [reflexivity|]. split.
      * intros q Hq. cbn. rewrite lookup_insert_ne; [reflexivity|].
        intros ->. apply Hq. left. reflexivity.
      * eexists [_]. split; [reflexivity|]. constructor; [|constructor]. cbn.
        split; [reflexivity|]. intros q Hq.
        rewrite lookup_insert_ne; [reflexivity|].
        intros ->. apply Hq. left. reflexivity.
Qed.

Lemma rem_step_from (T : list string) (w0 w w' : world) :
  loc w = loc w0 -> rem w = rem w0 -> hist w = hist w0 ->
  rem_step T w w' -> rem_step T w0 w'.
Proof. unfold rem_step. intros -> -> ->. auto. Qed.

Lemma loc_step_from (T : list string) (w0 w w' : world) :
  loc w = loc w0 -> rem w = rem w0 -> hist w = hist w0 ->
  loc_step T w w' -> loc_step T w0 w'.
Proof. unfold loc_step. intros -> -> ->. auto. Qed.

Ltac open_fault w :=
  let f := fresh "f" in let w1 := fresh "w" in
  let Hl := fresh "Hl" in let Hr := fresh "Hr" in let Hh := fresh "Hh" in
  let Hn := fresh "Hn" in let Hp := fresh "Hp" in
  destruct (next_fault_stores w) as (Hl & Hr & Hh & Hn & Hp);
  destruct (next_fault w) as [f w1]; cbn [snd] in Hl, Hr, Hh, Hn, Hp.

Ltac split_ifs :=
  repeat match goal with
         | |- context [if ?b then _ else _] => destruct b eqn:?
         | |- context [match ?x with Pass => _ | _ => _ end] => destruct x
         | |- context [match ?x with Some _ => _ | None => _ end] =>
             destruct x eqn:?
         end; cbn [fst snd].

Lemma chdir_spec (d : string) (w : world) :
  rem_step [] w (snd (chdir d w)).
Proof.
  unfold chdir. open_fault w. split_ifs.
  all: eapply rem_step_from; eauto using rem_step_refl.
Qed.

Lemma mkdir_spec (d : string) (w : world) :
  rem_step [] w (snd (mkdir d w)).
Proof.
  unfold mkdir. open_fault w. split_ifs.
  all: eapply rem_step_from; eauto using rem_step_refl.
  split; [reflexivity|]. split; [reflexivity|].
  exists []. rewrite app_nil_r. split; [reflexivity | constructor].
Qed.

Lemma put_spec (l r : string) (w : world) :
  rem_step [r] w (snd (put l r w))
  /\ (fst (put l r w) = Ok tt ->
      exists f t, files (loc w) !! l = Some f
                  /\ files (rem (snd (put l r w))) !! r
                     = Some (File (data f) t)).
Proof.
  unfold put. open_fault w. split_ifs.
  all: split; [| try discriminate].
  all: try (eapply rem_step_from; eauto using rem_step_refl;
            apply write_rem_spec).
  all: intros _; eexists _, _; rewrite <- Hl; split; [eassumption|].
  all: match goal with
       | |- context [write_rem ?w1 ?p ?d ?n] =>
           destruct (write_rem_spec w1 p d n) as (_ & _ & -> & _)
       end.
  all: rewrite lookup_insert_eq, firstn_all; reflexivity.
Qed.

Lemma rename_spec (a b : string) (w : world) :
  let w' := snd (rename a b w) in
  match fst (rename a b w) with
  | Ok _ =>
      exists src,
        files (rem w) !! a = Some src
        /\ files (rem w') = <[b := src]> (delete a (files (rem w)))
        /\ files (loc w') = files (loc w)
        /\ hist w' = hist w ++ [(files (loc w), files (rem w'))]
  | Err _ => rem_step [] w w'
  end.
Proof.
  unfold rename. open_fault w. split_ifs.
  all: cbn [fst snd] in *; try discriminate.
  all: try (eapply rem_step_from; eauto using rem_step_refl; fail).
  all: eexists; rewrite <- Hr, <- Hl, <- Hh; cbn; repeat split; eassumption.
Qed.

Lemma remove_spec (p : string) (w : world) :
  rem_step [p] w (snd (remove p w))
  /\ (fst (remove p w) = Ok tt -> files (rem (snd (remove p w))) !! p = None).
Proof.
  unfold remove. open_fault w. split_ifs.
  all: split; [| try discriminate].
  all: try (eapply rem_step_from; eauto using rem_step_refl).
  - split; [reflexivity|]. split.
    + intros q Hq. cbn. rewrite lookup_delete_ne; [reflexivity|].
      intros ->. apply Hq. left. reflexivity.
    + eexists [_]. split; [reflexivity|]. constructor; [|constructor]. cbn.
      split; [reflexivity|]. intros q Hq.
      rewrite lookup_delete_ne; [reflexivity|].
      intros ->. apply Hq. left. reflexivity.
  - intros _. cbn. apply lookup_delete_eq.
Qed.

Lemma listdir_attr_spec (d : string) (w : world) :
  rem_step [] w (snd (listdir_attr d w)).
Proof.
  unfold listdir_attr. open_fault w. split_ifs.
  all: eapply rem_step_from; eauto using rem_step_refl.
Qed.

Lemma get_spec (r l : string) (w : world) :
  loc_step [l] w (snd (get r l w))
  /\ (fst (get r l w) = Ok tt ->
      exists f t, files (rem w) !! r = Some f
                  /\ files (loc (snd (get r l w))) !! l
                     = Some (File (data f) t)).
Proof.
  unfold get. open_fault w.
  pose proof (write_loc_spec w0 l [] 0) as (Er & _ & _ & Hs0).
  split_ifs.
  all: split; [| try discriminate].
  all: try (eapply loc_step_from; eauto using loc_step_refl; fail).
  all: try (eapply loc_step_from; eauto;
            eapply loc_step_trans; [exact Hs0|]; apply write_loc_spec).
  all: intros _; eexists _, _; rewrite <- Hr, <- Er; split; [eassumption|].
  all: match goal with
       | |- context [write_loc ?w1 ?p ?d ?n] =>
           destruct (write_loc_spec w1 p d n) as (_ & _ & -> & _)
       end.
  all: rewrite lookup_insert_eq, firstn_all; reflexivity.
Qed.

Lemma makedirs_spec (d : string) (w : world) :
  loc_step [] w (snd (makedirs d w)).
Proof.
  unfold makedirs. split_ifs. all: try apply loc_step_refl.
  split; [reflexivity|]. split; [reflexivity|].
  exists []. rewrite app_nil_r. split; [reflexivity | constructor].
Qed.

Lemma replace_spec (a b : string) (w : world) :
  let w' := snd (replace a b w) in
  match fst (replace a b w) with
  | Ok _ =>
      exists src,
        files (loc w) !! a = Some src
        /\ files (loc w') = <[b := src]> (delete a (files (loc w)))
        /\ files (rem w') = files (rem w)
        /\ hist w' = hist w ++ [(files (loc w'), files (rem w))]
  | Err _ => loc_step [] w w'
  end.
Proof.
  unfold replace. split_ifs.
  all: cbn [fst snd] in *; try discriminate.
  all: try apply loc_step_refl.
  all: eexists; cbn; repeat split; eassumption.
Qed.

Lemma unlink_spec (p : string) (w : world) :
  loc_step [p] w (snd (unlink p w))
  /\ (fst (unlink p w) = Ok tt -> files (loc (snd (unlink p w))) !! p = None).
Proof.
  unfold unlink. split_ifs.
  all: split; [| try discriminate].
  all: try apply loc_step_refl.
  - split; [reflexivity|]. split.
    + intros q Hq. cbn. rewrite lookup_delete_ne; [reflexivity|].
      intros ->. apply Hq. left. reflexivity.
    + eexists [_]. split; [reflexivity|]. constructor; [|constructor]. cbn.
      split; [reflexivity|]. intros q Hq.
      rewrite lookup_delete_ne; [reflexivity|].
      intros ->. apply Hq. left. reflexivity.
  - intros _. cbn. apply lookup_delete_eq.
Qed.

End SimFacts.

(** ** Transfers on the simulated host *)

(** Creating the remote directories touches no file. *)
Lemma mkdir_parts_step (ps : list string) :
  forall cur w, rem_step [] w (world_of (mkdir_parts Sim.env cur ps w)).
Proof.
  induction ps as [|p ps IH]; intros cur w; [apply SimFacts.rem_step_refl|].
  cbn [mkdir_parts]. unfold bind, catch_IOError, catch, mkdir, prim.
  set (cur' := if negb (Str.is_empty cur) then Path.join cur p else p).
  change (sftp_mkdir Sim.env cur' w) with (Sim.mkdir cur' w).
  pose proof (SimFacts.mkdir_spec cur' w) as Hm.
  destruct (Sim.mkdir cur' w) as [[[]|e] w1]; cbn [snd] in Hm; cbn.
  - specialize (IH cur' w1).
    destruct (mkdir_parts Sim.env cur' ps w1) as [[r w2] l2].
    eapply SimFacts.rem_step_trans; eassumption.
  - destruct (is_IOError e); cbn; [|exact Hm].
    specialize (IH cur' w1).
    destruct (mkdir_parts Sim.env cur' ps w1) as [[r w2] l2].
    eapply SimFacts.rem_step_trans; eassumption.
Qed.

Lemma ensure_remote_dir_step (remote_path : string) (w : Sim.world) :
  rem_step [] w (world_of (ensure_remote_dir Sim.env remote_path w)).
Proof.
  unfold ensure_remote_dir.
  destruct (negb _ && negb _); [|apply SimFacts.rem_step_refl].
  unfold catch_IOError, catch, chdir, prim.
  change (sftp_chdir Sim.env (Path.dirname remote_path) w)
    with (Sim.chdir (Path.dirname remote_path) w).
  pose proof (SimFacts.chdir_spec (Path.dirname remote_path) w) as Hc.
  destruct (Sim.chdir _ w) as [[[]|e] w1]; cbn [snd] in Hc; cbn; [exact Hc|].
  destruct (is_IOError e); cbn; [|exact Hc].
  pose proof (mkdir_parts_step (Path.parts (Path.dirname remote_path)) "" w1)
    as Hp.
  destruct (mkdir_parts Sim.env "" _ w1) as [[r w2] l2].
  eapply SimFacts.rem_step_trans; eassumption.
Qed.


#[local] Arguments Sim.put : simpl never.
#[local] Arguments Sim.get : simpl never.
#[local] Arguments Sim.rename : simpl never.
#[local] Arguments Sim.remove : simpl never.
#[local] Arguments Sim.chdir : simpl never.
#[local] Arguments Sim.mkdir : simpl never.
#[local] Arguments Sim.makedirs : simpl never.
#[local] Arguments Sim.replace : simpl never.
#[local] Arguments Sim.unlink : simpl never.
#[local] Arguments Sim.isdir : simpl never.
#[local] Arguments reports : simpl never.

(** Case analysis on the next simulated call, with what it touched. *)
Ltac sim_step :=
  match goal with
  | |- context [Sim.put ?a ?b ?w] =>
      is_var w; let H := fresh "Hput" in
      pose proof (SimFacts.put_spec a b w) as H;
      destruct (Sim.put a b w) as [[[]|?] ?]; cbn [fst snd] in H
  | |- context [Sim.rename ?a ?b ?w] =>
      is_var w; let H := fresh "Hren" in
      pose proof (SimFacts.rename_spec a b w) as H; cbv zeta in H;
      destruct (Sim.rename a b w) as [[[]|?] ?]; cbn [fst snd] in H
  | |- context [Sim.remove ?a ?w] =>
      is_var w; let H := fresh "Hrem" in
      pose proof (SimFacts.remove_spec a w) as H;
      destruct (Sim.remove a w) as [[[]|?] ?]; cbn [fst snd] in H
  | |- context [Sim.get ?a ?b ?w] =>
      is_var w; let H := fresh "Hget" in
      pose proof (SimFacts.get_spec a b w) as H;
      destruct (Sim.get a b w) as [[[]|?] ?]; cbn [fst snd] in H
  | |- context [Sim.makedirs ?a ?w] =>
      is_var w; let H := fresh "Hmk" in
      pose proof (SimFacts.makedirs_spec a w) as H;
      destruct (Sim.makedirs a w) as [[[]|?] ?]; cbn [fst snd] in H
  | |- context [Sim.replace ?a ?b ?w] =>
      is_var w; let H := fresh "Hrep" in
      pose proof (SimFacts.replace_spec a b w) as H; cbv zeta in H;
      destruct (Sim.replace a b w) as [[[]|?] ?]; cbn [fst snd] in H
  | |- context [Sim.unlink ?a ?w] =>
      is_var w; let H := fresh "Hunl" in
      pose proof (SimFacts.unlink_spec a w) as H;
      destruct (Sim.unlink a w) as [[[]|?] ?]; cbn [fst snd] in H
  end; cbn.

(** Chain the steps of consecutive calls. *)
Ltac rem_chain :=
  repeat match goal with H : _ /\ _ |- _ => destruct H end;
  match goal with
  | |- rem_step _ ?w ?w => apply SimFacts.rem_step_refl
  | H : rem_step ?T ?w1 ?w2 |- rem_step ?T' ?w1 ?w2 =>
      apply (SimFacts.rem_step_weaken T T');
      [intros ? ?; cbn in *; tauto | exact H]
  | H : rem_step ?T ?w1 ?w2 |- rem_step ?T' ?w0 ?w2 =>
      lazymatch w1 with w2 => fail | _ => idtac end;
      apply (SimFacts.rem_step_trans T' w0 w1 w2);
      [ rem_chain
      | apply (SimFacts.rem_step_weaken T T');
        [intros ? ?; cbn in *; tauto | exact H] ]
  end.

Ltac loc_chain :=
  repeat match goal with H : _ /\ _ |- _ => destruct H end;
  match goal with
  | |- loc_step _ ?w ?w => apply SimFacts.loc_step_refl
  | H : loc_step ?T ?w1 ?w2 |- loc_step ?T' ?w1 ?w2 =>
      apply (SimFacts.loc_step_weaken T T');
      [intros ? ?; cbn in *; tauto | exact H]
  | H : loc_step ?T ?w1 ?w2 |- loc_step ?T' ?w0 ?w2 =>
      lazymatch w1 with w2 => fail | _ => idtac end;
      apply (SimFacts.loc_step_trans T' w0 w1 w2);
      [ loc_chain
      | apply (SimFacts.loc_step_weaken T T');
        [intros ? ?; cbn in *; tauto | exact H] ]
  end.

Lemma new_snapshots_of (w w' : Sim.world)
    (n : list (gmap string Sim.file * gmap string Sim.file)) :
  Sim.hist w' = Sim.hist w ++ n -> new_snapshots w w' = n.
Proof.
  intros H. unfold new_snapshots. rewrite H.
  rewrite skipn_app, skipn_all, Nat.sub_diag. reflexivity.
Qed.

Lemma dir_calls_report_nothing (prefix : string) (l : list event) :
  forallb (fun ev => is_dir_call (ev_call ev)) l = true ->
  reports prefix l = false.
Proof.
  apply existsb_none. intros [c o]. cbn. destruct c; cbn; congruence.
Qed.

Lemma reports_app (prefix : string) (l1 l2 : list event) :
  reports prefix (l1 ++ l2) = reports prefix l1 || reports prefix l2.
Proof. apply existsb_app. Qed.

(** Decide whether a concrete tail of the log reports [prefix]. *)
Ltac eval_reports Hdirs :=
  rewrite <- ?app_assoc, reports_app, (dir_calls_report_nothing _ _ Hdirs);
  unfold reports; cbn [existsb ev_call orb app];
  rewrite ?startswith_append by (cbn; lia);
  cbn.

(** An upload that reports success has put the content of the local file at
    the target and left no temporary file. *)
Lemma upload_sim_success (lp rp : string) (w : Sim.world) :
  reports "Uploaded " (log_of (atomic_upload Sim.env lp rp w)) = true ->
  exists f t,
    Sim.files (Sim.loc w) !! lp = Some f
    /\ Sim.files (Sim.rem (world_of (atomic_upload Sim.env lp rp w)))
         !! upload_target lp rp = Some (Sim.File (Sim.data f) t)
    /\ Sim.files (Sim.rem (world_of (atomic_upload Sim.env lp rp w)))
         !! (upload_target lp rp +:+ ".tmp") = None
    /\ Sim.files (Sim.loc (world_of (atomic_upload Sim.env lp rp w)))
       = Sim.files (Sim.loc w).
Proof.
  set (target := upload_target lp rp). set (tmp := target +:+ ".tmp").
  assert (Hne : tmp <> target) by (apply append_longer; cbn; lia).
  unfold atomic_upload. fold target. fold tmp.
  pose proof (ensure_remote_dir_calls Sim.env target w) as Hdirs.
  pose proof (ensure_remote_dir_step target w) as Hstep.
  unfold upload_body, catch, bind.
  destruct (ensure_remote_dir Sim.env target w) as [[r0 w0] l0].
  unfold log_of, world_of in Hdirs, Hstep. cbn in Hdirs, Hstep.
  clearbody target.
  destruct r0 as [[]|e0].
  2:{ destruct e0; unfold_engine; repeat sim_step; eval_reports Hdirs;
      discriminate. }
  unfold_engine. repeat sim_step.
  all: try match goal with
       | |- context [match ?e with FileNotFoundError _ => _ | _ => _ end] =>
           destruct e; cbn; repeat sim_step
       end.
  all: eval_reports Hdirs; try discriminate; intros _.
  all: destruct Hput as [Hs1 Hok];
       destruct (Hok eq_refl) as (f & t & Hf & Ht); exists f, t.
  all: match goal with
       | H : exists src, Sim.files (Sim.rem ?wp) !! _ = Some src /\ _ |- _ =>
           destruct H as (src & Hsrc & Hfiles & Hloc & _);
           assert (Hfr : rem_step [target] w1 wp) by rem_chain;
           assert (Hall : rem_step [tmp; target] w wp) by rem_chain
       end.
  all: destruct Hfr as (_ & Hfr & _); destruct Hall as (Hall & _).
  all: try rewrite Hfr in Hsrc
         by (cbn; intros [E|[]]; apply Hne; symmetry; exact E).
  all: rewrite Hsrc in Ht; injection Ht as ->.
  all: split; [destruct Hstep as [<- _]; exact Hf|].
  all: rewrite Hfiles, Hloc.
  all: split; [apply lookup_insert_eq|].
  all: split; [|exact Hall].
  all: rewrite lookup_insert_ne by (intros E; apply Hne; symmetry; exact E).
  all: apply lookup_delete_eq.
Qed.

Lemma atomic_download_unfold {W} (env : Env W) (rp lp : string) (w : W) :
  atomic_download env rp lp w
  = catch (download_body env rp
             (download_target (os_path_isdir env lp w) rp lp)
             (download_target (os_path_isdir env lp w) rp lp +:+ ".tmp"))
      (download_handler env rp
         (download_target (os_path_isdir env lp w) rp lp)
         (download_target (os_path_isdir env lp w) rp lp +:+ ".tmp")) w.
Proof. unfold atomic_download. rewrite bind_ask. reflexivity. Qed.

Lemma download_sim_cases (rp lp : string) (w : Sim.world) :
  (loc_step [download_target (Sim.isdir lp w) rp lp +:+ ".tmp"] w
     (world_of (atomic_download Sim.env rp lp w))
   /\ reports "Downloaded " (log_of (atomic_download Sim.env rp lp w)) = false)
  \/ (exists w1 f t,
        loc_step [download_target (Sim.isdir lp w) rp lp +:+ ".tmp"] w w1
        /\ Sim.files (Sim.rem w) !! rp = Some f
        /\ Sim.files (Sim.loc (world_of (atomic_download Sim.env rp lp w)))
           = <[download_target (Sim.isdir lp w) rp lp
               := Sim.File (Sim.data f) t]>
               (delete (download_target (Sim.isdir lp w) rp lp +:+ ".tmp")
                  (Sim.files (Sim.loc w1)))
        /\ Sim.hist (world_of (atomic_download Sim.env rp lp w))
           = Sim.hist w1
             ++ [(Sim.files
                    (Sim.loc (world_of (atomic_download Sim.env rp lp w))),
                  Sim.files (Sim.rem w))]
        /\ Sim.files (Sim.rem (world_of (atomic_download Sim.env rp lp w)))
           = Sim.files (Sim.rem w)).
Proof.
  rewrite atomic_download_unfold.
  change (os_path_isdir Sim.env lp w) with (Sim.isdir lp w).
  set (target := download_target (Sim.isdir lp w) rp lp).
  set (tmp := target +:+ ".tmp"). clearbody target.
  unfold_engine.
  destruct (negb _ && negb _); cbn.
  all: repeat sim_step.
  all: try match goal with
       | |- context [match ?e with FileNotFoundError _ => _ | _ => _ end] =>
           destruct e; cbn; repeat sim_step
       end.
  all: try (left; split;
            [ loc_chain
            | unfold reports; cbn [existsb ev_call orb app];
              rewrite ?startswith_append by (cbn; lia); reflexivity ]; fail).
  all: right.
  all: destruct Hget as [Hs1 Hok];
       destruct (Hok eq_refl) as (f & t & Hf & Ht).
  all: destruct Hrep as (src & Hsrc & Hfiles & Hrem & Hhist).
  all: rewrite Hsrc in Ht; injection Ht as ->.
  all: match goal with
       | H : Sim.files (Sim.loc _) = <[_ := _]> (delete _ (Sim.files (Sim.loc ?wp)))
         |- _ =>
           assert (Hall : loc_step [tmp] w wp) by loc_chain;
           exists wp, f, t
       end.
  all: destruct Hs1 as (Hs1 & _); destruct Hall as (Hr & Hall).
  all: split; [split; [exact Hr | exact Hall]|].
  all: split; [rewrite <- Hr, Hs1; exact Hf|].
  all: split; [exact Hfiles|].
  all: split; [rewrite Hhist, Hr; reflexivity|].
  all: rewrite Hrem; exact Hr.
Qed.

(** A download that reports success has put the content of the remote file at
    the target and left no temporary file. *)
Lemma download_sim_success (rp lp : string) (w : Sim.world) :
  reports "Downloaded " (log_of (atomic_download Sim.env rp lp w)) = true ->
  exists f t,
    Sim.files (Sim.rem w) !! rp = Some f
    /\ Sim.files (Sim.loc (world_of (atomic_download Sim.env rp lp w)))
         !! download_target (Sim.isdir lp w) rp lp
       = Some (Sim.File (Sim.data f) t)
    /\ Sim.files (Sim.loc (world_of (atomic_download Sim.env rp lp w)))
         !! (download_target (Sim.isdir lp w) rp lp +:+ ".tmp") = None
    /\ Sim.files (Sim.rem (world_of (atomic_download Sim.env rp lp w)))
       = Sim.files (Sim.rem w).
Proof.
  intros Hrep.
  destruct (download_sim_cases rp lp w)
    as [[_ H]|(w1 & f & t & _ & Hf & Hfiles & _ & Hrem)]; [congruence|].
  exists f, t. split; [exact Hf|]. rewrite Hfiles.
  split; [apply lookup_insert_eq|]. split; [|exact Hrem].
  rewrite lookup_insert_ne by (intros E; symmetry in E; revert E;
                               apply append_longer; cbn; lia).
  apply lookup_delete_eq.
Qed.

(** ** The conflict copy *)

Section ConflictCopy.
Import Str Path.

Lemma rsplit_slash_append (a b : string) :
  slash_free b = true ->
  rsplit_slash (a +:+ b)
  = (fst (rsplit_slash a), snd (rsplit_slash a) +:+ b).
Proof.
  intros Hb. induction a as [|c a IH].
  - change ("" +:+ b) with b. cbn [rsplit_slash fst snd].
    induction b as [|k b IHb]; [reflexivity|].
    cbn in Hb. apply andb_true_iff in Hb as [Hk Hb].
    cbn [rsplit_slash]. rewrite (IHb Hb). cbn [is_empty negb].
    apply negb_true_iff in Hk. rewrite Hk. reflexivity.
  - change (String c a +:+ b) with (String c (a +:+ b)).
    cbn [rsplit_slash]. rewrite IH.
    destruct (rsplit_slash a) as [h t]. cbn [fst snd].
    destruct (is_empty h); cbn [negb]; [|reflexivity].
    destruct (is_slash c); reflexivity.
Qed.

Lemma ends_with_slash_append (a b : string) :
  slash_free b = true -> is_empty b = false ->
  ends_with_slash (a +:+ b) = false.
Proof.
  intros Hb Hne. induction a as [|c a IH].
  - change ("" +:+ b) with b. clear Hne.
    induction b as [|k b IHb]; [reflexivity|].
    cbn in Hb. apply andb_true_iff in Hb as [Hk Hb].
    apply negb_true_iff in Hk.
    destruct b as [|k' b]; [exact Hk|]. apply (IHb Hb).
  - change (String c a +:+ b) with (String c (a +:+ b)).
    cbn [ends_with_slash].
    destruct (a +:+ b) eqn:E; [|exact IH].
    destruct a; [|discriminate E]. change ("" +:+ b) with b in E.
    subst b. discriminate Hne.
Qed.


End ConflictCopy.

#[local] Arguments reports : simpl never.






(** ** The scanners *)

Section RemoteScan.
Context {W : Type} (env : Env W).

Lemma fold_m_app {X S} (body : S -> X -> M W S) (l1 l2 : list X) (acc : S)
    (w : W) :
  fold_m (l1 ++ l2) body acc w
  = bind (fold_m l1 body acc) (fun acc' => fold_m l2 body acc') w.
Proof.
  revert acc w. induction l1 as [|x l1 IH]; intros acc w; cbn.
  - unfold bind, ret. destruct (fold_m l2 body acc w) as [[r w2] l2'].
    reflexivity.
  - unfold bind at 1 2 3.
    destruct (body acc x w) as [[[a|e] w1] la]; [|reflexivity].
    rewrite IH. unfold bind.
    destruct (fold_m l1 body a w1) as [[[b|e] w2] lb]; [|reflexivity].
    destruct (fold_m l2 body b w2) as [[r w3] lc].
    rewrite app_assoc. reflexivity.
Qed.

(** [_walk] over a listed tree returns the files of the tree, assigned in walk
    order under their root-joined paths. *)
Lemma walk_listed (depth : nat) :
  forall (f : forest) (rdir rel : string) (results : dict meta) (w : W),
    lists_tree env w rdir f ->
    modes_ok f ->
    levels f < depth ->
    exists log,
      _walk env depth rdir rel results w
      = (Ok (dict_of_list (remote_entries rdir f) results), w, log).
Proof.
  induction depth as [|depth IH]; intros f rdir rel results w [Hls Hbelow] Hm Hd;
    [lia|].
  cbn [_walk]. unfold bind at 1, listdir_attr, prim. rewrite Hls. cbn [fst snd].
  assert (Hfold : forall results,
            exists log,
              fold_m (attrs_of f)
                (fun results a =>
                   if S_ISDIR (st_mode (attr_meta a))
                   then _walk env depth (Path.join rdir (filename a))
                          (Path.join rel (filename a)) results
                   else ret (dict_set results (Path.join rdir (filename a))
                               (attr_meta a)))
                results w
              = (Ok (dict_of_list (remote_entries rdir f) results), w, log)).
  { clear Hls. induction f as [|name t rest IHf]; intros res.
    - exists []. reflexivity.
    - cbn [attrs_of fold_m remote_entries]. cbn in Hbelow, Hm, Hd.
      destruct Hbelow as [Ht Hrest]. destruct Hm as [Hmt Hmrest].
      unfold dict_of_list at 1. rewrite fold_left_app.
      unfold bind. cbn [filename attr_meta].
      destruct t as [m|m sub]; cbn [tree_meta].
      + rewrite Hmt.
        change (ret (dict_set res (Path.join rdir name) m) w)
          with (Ok (dict_set res (Path.join rdir name) m), w, @nil event).
        cbv beta iota.
        destruct (IHf Hrest Hmrest ltac:(lia)
                    (dict_set res (Path.join rdir name) m)) as [log2 E2].
        rewrite E2. eexists. reflexivity.
      + destruct Hmt as [Hmt Hmsub]. rewrite Hmt.
        destruct (IH sub (Path.join rdir name) (Path.join rel name) res w Ht
                    Hmsub ltac:(lia)) as [log1 E1].
        rewrite E1.
        destruct (IHf Hrest Hmrest ltac:(lia)
                    (dict_of_list (remote_entries (Path.join rdir name) sub) res))
          as [log2 E2].
        rewrite E2. eexists. reflexivity. }
  destruct (Hfold results) as [log E]. rewrite E. eexists. reflexivity.
Qed.

Lemma first_exn_app (l1 l2 : list event) :
  first_exn (l1 ++ l2)
  = match first_exn l1 with Some e => Some e | None => first_exn l2 end.
Proof.
  induction l1 as [|ev l1 IH]; cbn; [reflexivity|].
  destruct (ev_exn ev); [reflexivity | exact IH].
Qed.

Lemma aborting_ret {A} (a : A) : aborting (@ret W A a).
Proof. intros w e. discriminate. Qed.

Lemma aborting_raise {A} (e0 : exn) : aborting (@raise W A e0).
Proof. intros w e. discriminate. Qed.

Lemma aborting_prim {A} (c : call) (f : W -> result A * W) :
  aborting (prim c f).
Proof.
  intros w e. unfold prim, log_of, result_of.
  destruct (f w) as [[a|e0] w1]; cbn; [discriminate|].
  intros H. injection H as ->. reflexivity.
Qed.

Lemma aborting_bind {A B} (m : M W A) (k : A -> M W B) :
  aborting m -> (forall a, aborting (k a)) -> aborting (bind m k).
Proof.
  intros Hm Hk w e. specialize (Hm w). unfold bind, log_of, result_of in *.
  destruct (m w) as [[[a|e0] w1] l1]; cbn in *;
    [|intros H; specialize (Hm e H); injection Hm as ->; reflexivity].
  specialize (Hk a w1). unfold log_of, result_of in Hk.
  destruct (k a w1) as [[r w2] l2]; cbn in *.
  rewrite first_exn_app.
  destruct (first_exn l1) as [e1|]; [|exact (Hk e)].
  specialize (Hm e1 eq_refl). discriminate Hm.
Qed.

Lemma aborting_fold_m {X S} (body : S -> X -> M W S) (l : list X) :
  (forall acc x, aborting (body acc x)) ->
  forall acc, aborting (fold_m l body acc).
Proof.
  intros Hb. induction l as [|x l IH]; intros acc; cbn [fold_m].
  - apply aborting_ret.
  - apply aborting_bind; [apply Hb | exact IH].
Qed.

(** A failing listing ends the remote scan: no mapping is returned. *)
Lemma walk_aborts (depth : nat) :
  forall (rdir rel : string) (results : dict meta),
    aborting (_walk env depth rdir rel results).
Proof.
  induction depth as [|depth IH]; intros rdir rel results; cbn [_walk].
  - apply aborting_raise.
  - apply aborting_bind; [apply aborting_prim|].
    intros attrs. apply aborting_fold_m. intros acc a.
    destruct (S_ISDIR (st_mode (attr_meta a))); [apply IH | apply aborting_ret].
Qed.

End RemoteScan.

(** ** Relative paths of walked directories *)

Section RelativePaths.
Import Str Path.

Lemma append_cons (c : ascii) (a b : string) :
  String c a +:+ b = String c (a +:+ b).
Proof. reflexivity. Qed.

Lemma append_nil_l (b : string) : "" +:+ b = b.
Proof. reflexivity. Qed.

Lemma append_nil_r (a : string) : a +:+ "" = a.
Proof. induction a as [|c a IH]; [reflexivity|]. rewrite append_cons, IH. reflexivity. Qed.

Lemma append_assoc (a b c : string) : (a +:+ b) +:+ c = a +:+ (b +:+ c).
Proof.
  induction a as [|k a IH]; [reflexivity|].
  rewrite !append_cons, IH. reflexivity.
Qed.

Lemma split_slash_nonempty (s : string) : split_slash s <> [].
Proof.
  induction s as [|c s IH]; cbn; [discriminate|].
  destruct (is_slash c); [discriminate|].
  destruct (split_slash s); [contradiction | discriminate].
Qed.

Lemma split_slash_free (n : string) :
  slash_free n = true -> split_slash n = [n].
Proof.
  induction n as [|c n IH]; [reflexivity|]. cbn.
  intros H. apply andb_true_iff in H as [Hc Hn]. apply negb_true_iff in Hc.
  rewrite Hc, (IH Hn). reflexivity.
Qed.

(** Components on both sides of a separator. *)
Lemma split_slash_sep (a c : string) :
  split_slash (a +:+ "/" +:+ c) = split_slash a ++ split_slash c.
Proof.
  induction a as [|k a IH].
  - reflexivity.
  - rewrite append_cons. cbn [split_slash]. rewrite IH.
    destruct (is_slash k); [reflexivity|].
    pose proof (split_slash_nonempty a) as Hne.
    destruct (split_slash a) as [|x xs]; [contradiction | reflexivity].
Qed.

Lemma ends_with_slash_last (s : string) :
  ends_with_slash s = true -> exists y, s = y +:+ "/".
Proof.
  induction s as [|c s IH]; [discriminate|].
  destruct s as [|c' s'].
  - cbn. unfold is_slash, slash. intros H. apply Ascii.eqb_eq in H. subst c.
    exists "". reflexivity.
  - intros H. change (ends_with_slash (String c' s') = true) in H.
    destruct (IH H) as [y Hy]. exists (String c y). rewrite append_cons, <- Hy.
    reflexivity.
Qed.

Lemma name_ok_parts (n : string) :
  name_ok n = true ->
  is_empty n = false /\ slash_free n = true
  /\ String.eqb n "." = false /\ String.eqb n ".." = false.
Proof.
  unfold name_ok. intros H.
  apply andb_true_iff in H as [H H4]. apply andb_true_iff in H as [H H3].
  apply andb_true_iff in H as [H1 H2].
  apply negb_true_iff in H1, H3, H4. auto.
Qed.

Lemma slash_free_startswith (n : string) :
  slash_free n = true -> is_empty n = false -> startswith n "/" = false.
Proof.
  destruct n as [|c n]; [discriminate|]. cbn [slash_free].
  intros H _. apply andb_true_iff in H as [Hc _]. apply negb_true_iff in Hc.
  unfold is_slash, slash in Hc.
  change (startswith (String c n) "/") with (Ascii.eqb "/" c && startswith n "").
  rewrite Ascii.eqb_sym, Hc. reflexivity.
Qed.

(** Joining a name to a non-empty path. *)
Lemma join_name (x n : string) :
  is_empty x = false -> name_ok n = true ->
  join x n = if ends_with_slash x then x +:+ n else x +:+ "/" +:+ n.
Proof.
  intros Hx Hn. destruct (name_ok_parts n Hn) as (Hne & Hsf & _ & _).
  unfold join. rewrite (slash_free_startswith n Hsf Hne), Hx. reflexivity.
Qed.

(** The component loop of [normpath] sees one more component. *)
Lemma norm_fold_join (k : nat) (x n : string) :
  is_empty x = false -> name_ok n = true ->
  fold_left (norm_step k) (split_slash (join x n)) []
  = n :: fold_left (norm_step k) (split_slash x) [].
Proof.
  intros Hx Hn. destruct (name_ok_parts n Hn) as (Hne & Hsf & Hd & Hdd).
  assert (Hstep : forall st, norm_step k st n = n :: st).
  { intros st. unfold norm_step.
    assert (He : String.eqb n "" = false) by (destruct n; [discriminate | reflexivity]).
    rewrite He, Hd, Hdd. reflexivity. }
  rewrite (join_name x n Hx Hn).
  destruct (ends_with_slash x) eqn:Ex.
  - destruct (ends_with_slash_last x Ex) as [y ->].
    rewrite append_assoc. rewrite split_slash_sep, (split_slash_free n Hsf).
    change (y +:+ "/") with (y +:+ "/" +:+ "").
    rewrite split_slash_sep. cbn [split_slash].
    rewrite !fold_left_app. cbn [fold_left]. rewrite Hstep.
    reflexivity.
  - rewrite split_slash_sep, (split_slash_free n Hsf), fold_left_app.
    cbn [fold_left]. apply Hstep.
Qed.

Lemma initial_slashes_join (x n : string) :
  is_empty x = false -> name_ok n = true ->
  initial_slashes (join x n) = initial_slashes x.
Proof.
  intros Hx Hn. destruct (name_ok_parts n Hn) as (Hne & Hsf & _ & _).
  pose proof (slash_free_startswith n Hsf Hne) as Hns.
  rewrite (join_name x n Hx Hn). unfold initial_slashes.
  destruct x as [|c1 [|c2 [|c3 x]]]; [discriminate| | |].
  - cbn [ends_with_slash]. unfold is_slash, slash.
    rewrite (Ascii.eqb_sym c1 "/").
    destruct (Ascii.eqb "/" c1) eqn:E1;
      rewrite ?append_cons, ?append_nil_l; cbn [startswith];
      rewrite ?E1, ?Hns; destruct n; reflexivity.
  - change (ends_with_slash (String c1 (String c2 ""))) with (is_slash c2).
    unfold is_slash, slash. rewrite (Ascii.eqb_sym c2 "/").
    destruct (Ascii.eqb "/" c2) eqn:E2;
      rewrite ?append_cons, ?append_nil_l; cbn [startswith];
      rewrite ?E2, ?Hns; destruct (Ascii.eqb "/" c1), n; reflexivity.
  - set (y := String c1 (String c2 (String c3 x))).
    destruct (ends_with_slash y);
      rewrite !startswith_append by (subst y; cbn; lia); reflexivity.
Qed.

Lemma norm_comps_join (x n : string) :
  is_empty x = false -> name_ok n = true ->
  norm_comps (join x n) = norm_comps x ++ [n].
Proof.
  intros Hx Hn. unfold norm_comps.
  rewrite initial_slashes_join, norm_fold_join by assumption.
  reflexivity.
Qed.

Lemma split_slash_all_free (s : string) :
  Forall (fun c => slash_free c = true) (split_slash s).
Proof.
  induction s as [|k s IH]; cbn.
  - constructor; [reflexivity | constructor].
  - destruct (is_slash k) eqn:Ek.
    + constructor; [reflexivity | exact IH].
    + destruct (split_slash s) as [|x xs]; inversion IH; subst;
        constructor; cbn; try rewrite Ek; auto.
Qed.

Lemma norm_fold_comps_ok (k : nat) (comps stack : list string) :
  Forall (fun c => slash_free c = true) comps ->
  Forall comp_ok stack ->
  Forall comp_ok (fold_left (norm_step k) comps stack).
Proof.
  revert stack. induction comps as [|c comps IH]; intros stack Hc Hs; [exact Hs|].
  inversion Hc; subst. cbn [fold_left]. apply IH; [assumption|].
  unfold norm_step.
  destruct (String.eqb c "") eqn:E0; cbn [orb]; [exact Hs|].
  destruct (String.eqb c "."); [exact Hs|].
  assert (Hok : comp_ok c).
  { split; [assumption|]. destruct c; [discriminate E0 | reflexivity]. }
  destruct (_ || _).
  - constructor; assumption.
  - destruct stack; [constructor | inversion Hs; assumption].
Qed.

Lemma norm_comps_ok (p : string) : Forall comp_ok (norm_comps p).
Proof.
  unfold norm_comps. apply Forall_rev.
  apply norm_fold_comps_ok; [apply split_slash_all_free | constructor].
Qed.

Lemma split_join_slash (l : list string) :
  Forall comp_ok l -> l <> [] -> split_slash (join_slash l) = l.
Proof.
  induction l as [|x l IH]; [contradiction|]. intros Hl _.
  inversion Hl as [|? ? [Hx _] Hl']; subst.
  destruct l as [|y l].
  - cbn. apply split_slash_free. exact Hx.
  - change (join_slash (x :: y :: l)) with (x +:+ "/" +:+ join_slash (y :: l)).
    rewrite split_slash_sep, (split_slash_free x Hx), IH by (auto; discriminate).
    reflexivity.
Qed.

Lemma filter_comp_ok (l : list string) :
  Forall comp_ok l -> List.filter (fun x => negb (is_empty x)) l = l.
Proof.
  induction 1 as [|x l [_ Hx] Hl IH]; [reflexivity|].
  cbn. rewrite Hx, IH. reflexivity.
Qed.

(** The non-empty components of a normalised absolute path are the components
    [normpath] kept. *)
Lemma nonempty_comps_normpath (p : string) :
  isabs p = true -> nonempty_comps (normpath p) = norm_comps p.
Proof.
  intros Habs. unfold isabs in Habs.
  pose proof (norm_comps_ok p) as Hok.
  unfold normpath, nonempty_comps.
  destruct p as [|c p]; [discriminate|]. cbn [is_empty].
  unfold initial_slashes. rewrite Habs.
  set (C := norm_comps (String c p)) in *.
  assert (Hsplit : List.filter (fun x => negb (is_empty x))
                     (split_slash (join_slash C)) = C).
  { destruct C as [|x C'] eqn:EC; [reflexivity|].
    rewrite split_join_slash by (auto; discriminate).
    apply filter_comp_ok. exact Hok. }
  destruct (_ && _).
  - change (is_empty ("//" +:+ join_slash C)) with false. cbv iota.
    change ("//" +:+ join_slash C)
      with ("" +:+ "/" +:+ ("" +:+ "/" +:+ join_slash C)).
    rewrite !split_slash_sep.
    cbn [split_slash app List.filter is_empty negb]. exact Hsplit.
  - change (is_empty ("/" +:+ join_slash C)) with false. cbv iota.
    change ("/" +:+ join_slash C) with ("" +:+ "/" +:+ join_slash C).
    rewrite split_slash_sep.
    cbn [split_slash app List.filter is_empty negb]. exact Hsplit.
Qed.

Lemma ends_with_slash_app (a b : string) :
  is_empty b = false -> ends_with_slash (a +:+ b) = ends_with_slash b.
Proof.
  intros Hb. induction a as [|c a IH]; [reflexivity|].
  rewrite append_cons. cbn [ends_with_slash].
  destruct (a +:+ b) eqn:E; [|exact IH].
  destruct a; [|discriminate E]. rewrite append_nil_l in E. subst b.
  discriminate Hb.
Qed.

Lemma is_empty_append (a b : string) :
  is_empty b = false -> is_empty (a +:+ b) = false.
Proof. intros Hb. destruct a; [exact Hb | reflexivity]. Qed.

Lemma is_empty_join (x n : string) :
  is_empty x = false -> name_ok n = true -> is_empty (join x n) = false.
Proof.
  intros Hx Hn. rewrite join_name by assumption.
  destruct x; [discriminate|]. destruct (ends_with_slash _); reflexivity.
Qed.

Lemma isabs_join (x n : string) :
  is_empty x = false -> name_ok n = true -> isabs (join x n) = isabs x.
Proof.
  intros Hx Hn. rewrite join_name by assumption. unfold isabs.
  destruct x; [discriminate|].
  destruct (ends_with_slash _); apply startswith_append; cbn; lia.
Qed.

Lemma abs_of_join (cwd x n : string) :
  is_empty x = false -> name_ok n = true ->
  abs_of cwd (join x n) = join (abs_of cwd x) n.
Proof.
  intros Hx Hn. unfold abs_of. rewrite isabs_join by assumption.
  destruct (isabs x) eqn:Ea; [reflexivity|].
  assert (Hj : startswith (join x n) "/" = false).
  { pose proof (isabs_join x n Hx Hn) as H. unfold isabs in H.
    rewrite H. exact Ea. }
  unfold isabs in Ea. unfold join at 1 4. rewrite Hj, Ea.
  set (y := if is_empty cwd || ends_with_slash cwd
            then cwd +:+ x else cwd +:+ "/" +:+ x).
  assert (Hy : is_empty y = false).
  { subst y. destruct (_ || _); apply is_empty_append;
      [exact Hx | reflexivity]. }
  assert (Hye : ends_with_slash y = ends_with_slash x).
  { subst y. destruct (_ || _).
    - apply ends_with_slash_app. exact Hx.
    - rewrite <- append_assoc. apply ends_with_slash_app. exact Hx. }
  rewrite !join_name by assumption. rewrite Hye.
  subst y. destruct (_ || _), (ends_with_slash x);
    rewrite ?append_assoc; reflexivity.
Qed.

Lemma is_empty_abs_of (cwd x : string) :
  is_empty x = false -> is_empty (abs_of cwd x) = false.
Proof.
  intros Hx. unfold abs_of. destruct (isabs x); [exact Hx|].
  unfold join. destruct (startswith x "/"); [exact Hx|].
  destruct (_ || _); apply is_empty_append; [exact Hx | reflexivity].
Qed.

Lemma isabs_abs_of (cwd x : string) :
  isabs cwd = true -> is_empty x = false -> isabs (abs_of cwd x) = true.
Proof.
  intros Hc Hx. unfold abs_of. destruct (isabs x) eqn:Ea; [exact Ea|].
  unfold isabs in *. unfold join. rewrite Ea.
  destruct cwd; [discriminate|].
  destruct (_ || _); rewrite startswith_append by (cbn; lia); exact Hc.
Qed.

(** Walking down through named directories appends their names to the
    components of the absolute path. *)
Lemma norm_comps_walk_root (cwd top : string) (ds : list string) :
  is_empty top = false ->
  forallb name_ok ds = true ->
  is_empty (walk_root top ds) = false
  /\ norm_comps (abs_of cwd (walk_root top ds))
     = norm_comps (abs_of cwd top) ++ ds.
Proof.
  unfold walk_root. revert top. induction ds as [|d ds IH]; intros top Ht Hds.
  - cbn. rewrite app_nil_r. auto.
  - cbn in Hds. apply andb_true_iff in Hds as [Hd Hds]. cbn [fold_left].
    destruct (IH (join top d) (is_empty_join top d Ht Hd) Hds) as [He Hn].
    split; [exact He|]. rewrite Hn, abs_of_join by assumption.
    rewrite norm_comps_join by (auto using is_empty_abs_of).
    rewrite <- app_assoc. reflexivity.
Qed.

Lemma common_len_prefix (a b : list string) :
  common_len a (a ++ b) = length a.
Proof.
  induction a as [|x a IH]; [destruct b; reflexivity|].
  cbn. rewrite String.eqb_refl, IH. reflexivity.
Qed.

(** [os.path.relpath] of a walked directory against the scanned root. *)
Lemma relpath_walk_root (cwd top : string) (ds : list string) :
  isabs cwd = true -> is_empty top = false -> forallb name_ok ds = true ->
  relpath cwd (walk_root top ds) top
  = match ds with [] => "." | d :: ds' => fold_left join ds' d end.
Proof.
  intros Hc Ht Hds. unfold relpath, abspath.
  change (if isabs (walk_root top ds) then walk_root top ds
          else join cwd (walk_root top ds))
    with (abs_of cwd (walk_root top ds)).
  change (if isabs top then top else join cwd top) with (abs_of cwd top).
  destruct (norm_comps_walk_root cwd top ds Ht Hds) as [He Hn].
  rewrite !nonempty_comps_normpath by (apply isabs_abs_of; assumption).
  rewrite Hn, common_len_prefix, Nat.sub_diag. cbn [repeat app].
  rewrite skipn_app, skipn_all, Nat.sub_diag. cbn [skipn app].
  reflexivity.
Qed.

Lemma name_comp_ok (n : string) : name_ok n = true -> comp_ok n.
Proof. intros H. destruct (name_ok_parts n H) as (? & ? & _). split; assumption. Qed.

Lemma names_comp_ok (l : list string) :
  forallb name_ok l = true -> Forall comp_ok l.
Proof.
  induction l as [|x l IH]; cbn; [constructor|].
  intros H. apply andb_true_iff in H as [Hx Hl].
  constructor; [apply name_comp_ok; exact Hx | auto].
Qed.

Lemma join_slash_snoc (l : list string) (n : string) :
  l <> [] -> join_slash (l ++ [n]) = join_slash l +:+ "/" +:+ n.
Proof.
  induction l as [|x l IH]; [contradiction|]. intros _.
  destruct l as [|y l]; [reflexivity|].
  change (join_slash ((x :: y :: l) ++ [n]))
    with (x +:+ "/" +:+ join_slash ((y :: l) ++ [n])).
  rewrite IH by discriminate.
  change (join_slash (x :: y :: l)) with (x +:+ "/" +:+ join_slash (y :: l)).
  rewrite !append_assoc. reflexivity.
Qed.

Lemma join_slash_shape (l : list string) :
  Forall comp_ok l -> l <> [] ->
  is_empty (join_slash l) = false
  /\ ends_with_slash (join_slash l) = false
  /\ startswith (join_slash l) "/" = false.
Proof.
  intros Hl Hne. destruct l as [|x l]; [contradiction|].
  inversion Hl as [|? ? [Hx Hxe] Hl']; subst. clear Hne.
  split; [|split].
  - destruct l; [exact Hxe|]. destruct x; [discriminate | reflexivity].
  - revert x Hx Hxe Hl Hl'. induction l as [|y l IH]; intros x Hx Hxe Hl Hl'.
    + apply (ends_with_slash_append "" x Hx Hxe).
    + change (join_slash (x :: y :: l)) with (x +:+ "/" +:+ join_slash (y :: l)).
      inversion Hl' as [|? ? [Hy Hye] Hl'']; subst.
      specialize (IH y Hy Hye Hl' Hl'').
      rewrite <- append_assoc, ends_with_slash_app; [exact IH|].
      destruct l; [exact Hye|]. destruct y; [discriminate | reflexivity].
  - pose proof (slash_free_startswith x Hx Hxe) as Hs.
    destruct l; [exact Hs|].
    change (join_slash (x :: s :: l)) with (x +:+ ("/" +:+ join_slash (s :: l))).
    rewrite startswith_append; [exact Hs|].
    destruct x; [discriminate | cbn; lia].
Qed.

Lemma fold_join_names (d : string) (ds : list string) :
  forallb name_ok (d :: ds) = true ->
  fold_left join ds d = join_slash (d :: ds).
Proof.
  induction ds as [|n ds IH] using rev_ind; [reflexivity|].
  intros H. change (d :: ds ++ [n]) with ((d :: ds) ++ [n]) in H.
  rewrite forallb_app in H. apply andb_true_iff in H as [Hds Hn].
  cbn in Hn. rewrite andb_true_r in Hn.
  rewrite fold_left_app. cbn [fold_left]. rewrite (IH Hds).
  destruct (join_slash_shape (d :: ds) (names_comp_ok _ Hds) ltac:(discriminate))
    as (He & Hes & _).
  rewrite join_name, Hes by assumption.
  change (d :: ds ++ [n]) with ((d :: ds) ++ [n]).
  rewrite join_slash_snoc by discriminate. reflexivity.
Qed.

Lemma norm_step_name (k : nat) (st : list string) (n : string) :
  name_ok n = true -> norm_step k st n = n :: st.
Proof.
  intros Hn. destruct (name_ok_parts n Hn) as (Hne & _ & Hd & Hdd).
  unfold norm_step.
  assert (He : String.eqb n "" = false)
    by (destruct n; [discriminate | reflexivity]).
  rewrite He, Hd, Hdd. reflexivity.
Qed.

Lemma norm_fold_names (k : nat) (l st : list string) :
  forallb name_ok l = true ->
  fold_left (norm_step k) l st = rev l ++ st.
Proof.
  revert st. induction l as [|n l IH]; intros st H; [reflexivity|].
  cbn in H. apply andb_true_iff in H as [Hn Hl].
  cbn [fold_left]. rewrite norm_step_name, IH by assumption.
  cbn [rev]. rewrite <- app_assoc. reflexivity.
Qed.

(** A relative path made of entry names is its own normal form. *)
Lemma normpath_names (l : list string) :
  forallb name_ok l = true -> l <> [] ->
  normpath (join_slash l) = join_slash l.
Proof.
  intros Hl Hne.
  destruct (join_slash_shape l (names_comp_ok l Hl) Hne) as (He & _ & Hs).
  unfold normpath, norm_comps, initial_slashes. rewrite He, Hs.
  rewrite split_join_slash by (auto using names_comp_ok).
  rewrite norm_fold_names, app_nil_r, rev_involutive by assumption.
  rewrite He. reflexivity.
Qed.

(** The key [list_local] computes is the relative path of the file, or its
    basename when that path begins with [..]. *)
Lemma local_key_rel (cwd top : string) (ds : list string) (f : string) :
  isabs cwd = true -> is_empty top = false ->
  forallb name_ok ds = true -> name_ok f = true ->
  local_key (relpath cwd (walk_root top ds) top) f = rel_key (ds ++ [f]).
Proof.
  intros Hc Ht Hds Hf.
  rewrite relpath_walk_root by assumption.
  assert (Hall : forallb name_ok (ds ++ [f]) = true).
  { rewrite forallb_app, Hds. cbn. rewrite Hf. reflexivity. }
  assert (E : normpath (join (match ds with
                              | [] => "."
                              | d :: ds' => fold_left join ds' d
                              end) f)
              = join_slash (ds ++ [f])).
  { destruct ds as [|d ds'].
    - replace (join "." f) with ("." +:+ "/" +:+ f)
        by (rewrite join_name by (auto; reflexivity); reflexivity).
      destruct (name_ok_parts f Hf) as (Hfe & Hfs & _ & _).
      unfold normpath, norm_comps.
      assert (Hi : initial_slashes ("." +:+ "/" +:+ f) = 0) by reflexivity.
      rewrite Hi, split_slash_sep, (split_slash_free f Hfs).
      change (is_empty ("." +:+ "/" +:+ f)) with false. cbv iota.
      change (split_slash ".") with ["."]. cbn [app fold_left].
      change (norm_step 0 [] ".") with (@nil string).
      rewrite norm_step_name by assumption. cbn [rev app join_slash].
      rewrite Hfe. reflexivity.
    - rewrite fold_join_names by assumption.
      destruct (join_slash_shape (d :: ds') (names_comp_ok _ Hds)
                  ltac:(discriminate)) as (He & Hes & _).
      rewrite join_name, Hes by assumption.
      rewrite <- join_slash_snoc by discriminate.
      apply normpath_names; [exact Hall | destruct ds'; discriminate]. }
  unfold local_key, rel_key. rewrite E, last_last. reflexivity.
Qed.

End RelativePaths.

Section LocalScan.
Context {W : Type} (env : Env W) (w : W) (path : string).
Hypothesis cwd_abs : Path.isabs (os_getcwd env w) = true.
Hypothesis path_nonempty : Str.is_empty path = false.

Lemma walk_root_snoc (ds : list string) (name : string) :
  walk_root path (ds ++ [name]) = Path.join (walk_root path ds) name.
Proof. unfold walk_root. rewrite fold_left_app. reflexivity. Qed.

Lemma dict_of_list_app {V} (l1 l2 : list (string * V)) (d : dict V) :
  dict_of_list (l1 ++ l2) d = dict_of_list l2 (dict_of_list l1 d).
Proof. unfold dict_of_list. apply fold_left_app. Qed.

(** The files of one walked directory. *)
Lemma scan_dir_files (f : forest) (ds dirs : list string)
    (results : dict meta) :
  forallb name_ok ds = true ->
  names_ok f = true ->
  stats_below env w (walk_root path ds) f ->
  exists log,
    scan_dir env path results (walk_root path ds, dirs, file_names f) w
    = (Ok (dict_of_list (file_entries ds f) results), w, log).
Proof.
  intros Hds Hf Hst. unfold scan_dir, os_path_relpath.
  destruct (norm_comps_walk_root (os_getcwd env w) path ds path_nonempty Hds)
    as [Hne _].
  unfold bind at 1. rewrite bind_ask, Hne. unfold ret at 1. cbv beta iota.
  cbn [app].
  set (relroot := Path.relpath (os_getcwd env w) (walk_root path ds) path).
  assert (Hfold : forall results,
            exists log,
              fold_m (file_names f)
                (fun results f0 =>
                   bind (stat env (Path.join (walk_root path ds) f0))
                     (fun st => ret (dict_set results (local_key relroot f0) st)))
                results w
              = (Ok (dict_of_list (file_entries ds f) results), w, log)).
  { clear results. induction f as [|name t rest IH]; intros results.
    - exists []. reflexivity.
    - cbn in Hf. apply andb_true_iff in Hf as [Hf Hrest].
      apply andb_true_iff in Hf as [Hname Ht].
      destruct Hst as [Hstat Hst].
      cbn [file_names file_entries]. rewrite dict_of_list_app.
      destruct t as [m|m sub]; cbn [app].
      + assert (Hb : bind (stat env (Path.join (walk_root path ds) name))
                       (fun st => ret (dict_set results
                                         (local_key relroot name) st)) w
                     = (Ok (dict_set results (rel_key (ds ++ [name])) m), w,
                        [Ev (OsStat (Path.join (walk_root path ds) name)) None])).
        { unfold bind, stat, prim, ret. rewrite Hstat. subst relroot.
          rewrite local_key_rel by assumption. reflexivity. }
        cbn [fold_m]. unfold bind at 1. rewrite Hb.
        destruct (IH Hrest Hst
                    (dict_set results (rel_key (ds ++ [name])) m)) as [log E].
        rewrite E. eexists. reflexivity.
      + destruct (IH Hrest Hst results) as [log E]. exists log. exact E. }
  destruct (Hfold results) as [log E]. rewrite E. eexists. reflexivity.
Qed.

(** The directories below a walked directory. *)
Lemma scan_sub_walks (n : nat) :
  forall (f : forest) (ds : list string) (results : dict meta),
    levels f <= n ->
    forallb name_ok ds = true ->
    names_ok f = true ->
    stats_below env w (walk_root path ds) f ->
    exists log,
      fold_m (sub_walks (walk_root path ds) f) (scan_dir env path) results w
      = (Ok (dict_of_list (sub_entries ds f) results), w, log).
Proof.
  induction n as [|n IHn]; intros f; induction f as [|name t rest IHf];
    intros ds results Hlev Hds Hf Hst.
  - exists []. reflexivity.
  - cbn in Hlev. destruct t as [m|m sub]; [|lia].
    cbn in Hf. apply andb_true_iff in Hf as [Hf Hrest].
    destruct Hst as [_ Hst].
    cbn [sub_walks sub_entries app].
    apply IHf; auto; lia.
  - exists []. reflexivity.
  - cbn in Hlev, Hf. apply andb_true_iff in Hf as [Hf Hrest].
    apply andb_true_iff in Hf as [Hname Ht].
    destruct Hst as [Hsub Hst].
    cbn [sub_walks sub_entries].
    destruct t as [m|m sub]; cbn [app].
    + apply IHf; auto; lia.
    + assert (Hds' : forallb name_ok (ds ++ [name]) = true).
      { rewrite forallb_app, Hds. cbn. rewrite Hname. reflexivity. }
      rewrite <- walk_root_snoc in *.
      change ((walk_root path (ds ++ [name]), dir_names sub, file_names sub)
              :: sub_walks (walk_root path (ds ++ [name])) sub
              ++ sub_walks (walk_root path ds) rest)
        with ([(walk_root path (ds ++ [name]), dir_names sub, file_names sub)]
              ++ sub_walks (walk_root path (ds ++ [name])) sub
              ++ sub_walks (walk_root path ds) rest).
      rewrite fold_m_app, <- !app_assoc, !dict_of_list_app.
      destruct (scan_dir_files sub (ds ++ [name]) (dir_names sub) results
                  Hds' Ht Hsub) as [log1 E1].
      destruct (IHn sub (ds ++ [name])
                  (dict_of_list (file_entries (ds ++ [name]) sub) results)
                  ltac:(lia) Hds' Ht Hsub) as [log2 E2].
      destruct (IHf ds
                  (dict_of_list (sub_entries (ds ++ [name]) sub)
                     (dict_of_list (file_entries (ds ++ [name]) sub) results))
                  ltac:(lia) Hds Hrest Hst) as [log3 E3].
      unfold bind. cbn [fold_m]. unfold bind at 1. rewrite E1.
      unfold ret at 1. cbv beta iota. rewrite fold_m_app. unfold bind.
      rewrite E2, E3. eexists. reflexivity.
Qed.

(** [list_local] over a readable tree. *)
Lemma list_local_tree (f : forest) :
  os_walk env path w = tree_walk path f ->
  names_ok f = true ->
  stats_below env w path f ->
  exists log,
    list_local env path w = (Ok (dict_of_list (local_entries f) []), w, log).
Proof.
  intros Hwalk Hf Hst. unfold list_local. rewrite bind_ask, Hwalk.
  unfold tree_walk, local_entries. rewrite dict_of_list_app.
  destruct (scan_dir_files f [] (dir_names f) [] eq_refl Hf Hst) as [log1 E1].
  destruct (scan_sub_walks (levels f) f []
              (dict_of_list (file_entries [] f) []) (Nat.le_refl _) eq_refl
              Hf Hst) as [log2 E2].
  cbn [fold_m]. unfold bind. unfold walk_root in E1, E2. cbn [fold_left] in E1, E2.
  rewrite E1, E2. eexists. reflexivity.
Qed.

End LocalScan.

(** ** The mappings of the scanners *)

(** The local key falls back to the basename exactly when the relative path
    begins with two dots: a file [f] in a directory named [..d]. *)
Lemma rel_key_escape :
  rel_key ["..d"; "f"] = "f" /\ rel_key ["d"; "f"] = "d/f".
Proof. split; reflexivity. Qed.

(** C7, amended: the local scan records each regular file of a readable tree
    under its path relative to the scanned root, or under its basename when
    that path begins with [..], with the attributes [os.stat] reports; the
    remote scan records each entry that is not a directory under the scanned
    root joined with the names on the way to it, with the attributes of the
    listing and no rule for [..].  Directories are recorded by neither. *)
Theorem scan_mappings :
  (forall (W : Type) (env : Env W) (w : W) (path : string) (f : forest),
      Path.isabs (os_getcwd env w) = true ->
      Str.is_empty path = false ->
      os_walk env path w = tree_walk path f ->
      names_ok f = true ->
      stats_below env w path f ->
      exists log,
        list_local env path w
        = (Ok (dict_of_list (local_entries f) []), w, log))
  /\ (forall (W : Type) (env : Env W) (w : W) (depth : nat) (path : string)
        (f : forest),
      lists_tree env w path f ->
      modes_ok f ->
      levels f < depth ->
      exists log,
        list_remote env depth path w
        = (Ok (dict_of_list (remote_entries path f) []), w, log)).
Proof.
  split.
  - intros W env w path f Hcwd Hpath Hwalk Hf Hst.
    exact (list_local_tree env w path Hcwd Hpath f Hwalk Hf Hst).
  - intros W env w depth path f Hl Hm Hd. unfold list_remote.
    exact (walk_listed env depth f path "" [] w Hl Hm Hd).
Qed.

Lemma scan_mappings_witness :
  (exists log,
      list_local Sim.env "/l" Demo.w0
      = (Ok [("a.txt", Meta 33188 2 100); ("b/c.txt", Meta 33188 2 200)],
         Demo.w0, log))
  /\ (exists log,
         list_remote Sim.env 10 "/r" Demo.w0
         = (Ok [("/r/n/z.txt", Meta 33188 2 200);
                ("/r/a.txt", Meta 33188 6 103)],
            Demo.w0, log)).
Proof.
  split.
  - apply (proj1 scan_mappings _ Sim.env Demo.w0 "/l"
             (FCons "b" (TDir Sim.dir_meta
                           (FCons "c.txt" (TFile (Meta 33188 2 200)) FNil))
                (FCons "a.txt" (TFile (Meta 33188 2 100)) FNil))).
    + reflexivity.
    + reflexivity.
    + vm_compute. reflexivity.
    + reflexivity.
    + vm_compute. repeat split.
  - apply (proj2 scan_mappings _ Sim.env Demo.w0 10 "/r"
             (FCons "n" (TDir Sim.dir_meta
                           (FCons "z.txt" (TFile (Meta 33188 2 200)) FNil))
                (FCons "a.txt" (TFile (Meta 33188 6 103)) FNil))).
    + vm_compute. repeat split.
    + vm_compute. repeat split.
    + vm_compute. lia.
Defined.

(** C7, as stated, fails for the remote scan: the file [a.txt] at the top of
    the scanned root [/r] is recorded under [/r/a.txt], not under its path
    relative to the root. *)
Lemma list_remote_keys_are_joined :
  exists files,
    result_of (list_remote Sim.env 10 "/r" Demo.w0) = Ok files
    /\ dict_get files "a.txt" = None
    /\ dict_get files "/r/a.txt" = Some (Meta 33188 6 103)
    /\ dict_keys files = ["/r/n/z.txt"; "/r/a.txt"].
Proof. eexists. vm_compute. repeat split. Qed.

(** ** Unreadable subtrees *)

(** C5: the remote scan ends with the first exception of a listing, so an
    unreadable remote directory aborts it; the local scan of a tree whose
    directory [/l/b] cannot be listed returns a mapping all the same, without
    the file [/l/b/c.txt] and without any failed call. *)
Theorem scan_unreadable_subtree :
  (forall (W : Type) (env : Env W) (depth : nat) (path : string),
      aborting (list_remote env depth path))
  /\ result_of (list_remote Sim.env 10 "/r" Demo.w_rdenied) = Err Sim.eacces
  /\ Sim.files (Sim.loc Demo.w_denied) !! "/l/b/c.txt"
     = Some (Sim.File (Demo.bytes "yo") 200)
  /\ result_of (list_local Sim.env "/l" Demo.w_denied)
     = Ok [("a.txt", Meta 33188 2 100)]
  /\ first_exn (log_of (list_local Sim.env "/l" Demo.w_denied)) = None.
Proof.
  split.
  - intros W env depth path. unfold list_remote. apply walk_aborts.
  - vm_compute. repeat split.
Qed.

(** ** Sizes as [human_bytes] shows them *)

Section HumanBytes.
Import Utils.

Lemma round_half_even_comp (x y : Q) :
  x == y -> round_half_even x = round_half_even y.
Proof.
  intros H. unfold round_half_even. rewrite (Qfloor_comp _ _ H).
  assert (E : (x - inject_Z (Qfloor y) ?= 1 # 2)%Q
              = (y - inject_Z (Qfloor y) ?= 1 # 2)%Q).
  { apply Qcompare_comp; [rewrite H|]; reflexivity. }
  rewrite E. reflexivity.
Qed.

(** Rounding a fraction, in integers. *)
Lemma round_half_even_frac (a : Z) (b : positive) :
  round_half_even (a # b)
  = match (2 * (a mod Z.pos b) ?= Z.pos b)%Z with
    | Lt => (a / Z.pos b)%Z
    | Gt => (a / Z.pos b + 1)%Z
    | Eq => if Z.even (a / Z.pos b) then (a / Z.pos b)%Z
            else (a / Z.pos b + 1)%Z
    end.
Proof.
  unfold round_half_even. cbn [Qfloor].
  assert (E : ((a # b) - inject_Z (a / Z.pos b) ?= 1 # 2)%Q
              = (2 * (a mod Z.pos b) ?= Z.pos b)%Z).
  { unfold Qcompare, Qminus, Qplus, Qopp, inject_Z. cbn [Qnum Qden].
    pose proof (Z.div_mod a (Z.pos b) ltac:(lia)) as Hd.
    set (d := (a / Z.pos b)%Z) in *. set (m := (a mod Z.pos b)%Z) in *.
    destruct (Z.compare_spec (2 * m) (Z.pos b)) as [H|H|H].
    - apply Z.compare_eq_iff. nia.
    - apply Z.compare_lt_iff. nia.
    - apply Z.compare_gt_iff. nia. }
  rewrite E. reflexivity.
Qed.

(** The rounded value is within one half of the fraction. *)
Lemma round_half_even_near (a : Z) (b : positive) :
  (2 * Z.abs (a - round_half_even (a # b) * Z.pos b) <= Z.pos b)%Z.
Proof.
  rewrite round_half_even_frac.
  pose proof (Z.div_mod a (Z.pos b) ltac:(lia)) as Hd.
  pose proof (Z.mod_pos_bound a (Z.pos b) ltac:(lia)) as Hm.
  set (d := (a / Z.pos b)%Z) in *. set (m := (a mod Z.pos b)%Z) in *.
  destruct (Z.compare_spec (2 * m) (Z.pos b)) as [H|H|H];
    [destruct (Z.even d)| |]; nia.
Qed.

(** A fraction at least half way between an odd [f] and [f + 1] rounds to
    [f + 1]. *)
Lemma round_half_even_up (a f : Z) (b : positive) :
  (f * Z.pos b <= a < (f + 1) * Z.pos b)%Z ->
  (Z.pos b <= 2 * (a - f * Z.pos b))%Z ->
  Z.even f = false ->
  round_half_even (a # b) = (f + 1)%Z.
Proof.
  intros Hf Hhalf Hodd. rewrite round_half_even_frac.
  assert (Hd : (a / Z.pos b)%Z = f).
  { symmetry. apply (Z.div_unique a (Z.pos b) f (a - f * Z.pos b)); lia. }
  assert (Hm : (a mod Z.pos b)%Z = (a - f * Z.pos b)%Z).
  { symmetry. apply (Z.mod_unique a (Z.pos b) f (a - f * Z.pos b)); lia. }
  rewrite Hd, Hm, Hodd.
  destruct (Z.compare_spec (2 * (a - f * Z.pos b)) (Z.pos b)); try reflexivity.
  lia.
Qed.

Lemma format_1f_scaled (n : Z) (b : positive) (q : Q) :
  (0 <= n)%Z -> q == n # b ->
  format_1f q = show_tenths (round_half_even (10 * n # b)).
Proof.
  intros Hn Hq. unfold format_1f.
  assert (H0 : (0 <= q)%Q).
  { rewrite Hq. unfold Qle. cbn. lia. }
  apply Qle_bool_iff in H0 as Hb. rewrite Hb.
  change ("" +:+ ?s) with s. f_equal. apply round_half_even_comp.
  rewrite (Qabs_pos _ H0), Hq. unfold Qeq, Qmult. cbn. lia.
Qed.

Lemma human_loop_more (u : string) (r : list string) (q : Q) :
  (1024 <= q)%Q -> human_loop (u :: r) q = human_loop r (q / 1024).
Proof.
  intros H. apply Qle_bool_iff in H. cbn [human_loop]. rewrite H. reflexivity.
Qed.

Lemma human_loop_stop (u : string) (r : list string) (q : Q) :
  (q < 1024)%Q -> human_loop (u :: r) q = format_1f q +:+ " " +:+ u.
Proof.
  intros H. cbn [human_loop].
  destruct (Qle_bool 1024 q) eqn:E; [|reflexivity].
  apply Qle_bool_iff in E. exfalso. exact (Qlt_not_le _ _ H E).
Qed.

Lemma scaled_div (n : Z) (b : positive) (q : Q) :
  q == n # b -> q / 1024 == n # (b * 1024).
Proof.
  intros H. rewrite H. unfold Qeq, Qdiv, Qmult, Qinv. cbn. lia.
Qed.

Lemma scaled_ge (n : Z) (b : positive) (q : Q) :
  q == n # b -> (1024 * Z.pos b <= n)%Z -> (1024 <= q)%Q.
Proof. intros H Hn. rewrite H. unfold Qle. cbn. lia. Qed.

Lemma scaled_lt (n : Z) (b : positive) (q : Q) :
  q == n # b -> (n < 1024 * Z.pos b)%Z -> (q < 1024)%Q.
Proof. intros H Hn. rewrite H. unfold Qlt. cbn. lia. Qed.

(** The value [human_bytes] formats, for an amount in the range of unit
    [k]. *)
Lemma human_bytes_at (n : Z) (k : nat) :
  (0 <= n)%Z -> (k <= 5)%nat ->
  (k <> 0%nat -> 1024 ^ Z.of_nat k <= n)%Z ->
  (k <> 5%nat -> n < 1024 ^ (Z.of_nat k + 1))%Z ->
  human_bytes n
  = show_tenths
      (round_half_even (10 * n # Z.to_pos (1024 ^ Z.of_nat k)))
    +:+ " " +:+ unit_name k.
Proof.
  intros Hn Hk Hlo Hhi. unfold human_bytes.
  assert (Q0 : inject_Z n == n # 1) by reflexivity.
  pose proof (scaled_div _ _ _ Q0) as Q1.
  pose proof (scaled_div _ _ _ Q1) as Q2.
  pose proof (scaled_div _ _ _ Q2) as Q3.
  pose proof (scaled_div _ _ _ Q3) as Q4.
  pose proof (scaled_div _ _ _ Q4) as Q5.
  destruct k as [|[|[|[|[|[|k]]]]]]; [| | | | | |lia];
    cbn [Z.of_nat Pos.of_succ_nat Pos.succ Z.add Pos.add] in Hlo, Hhi;
    try specialize (Hlo ltac:(discriminate));
    try specialize (Hhi ltac:(discriminate));
    repeat (rewrite human_loop_more
              by (first [ eapply scaled_ge; [exact Q0|lia]
                        | eapply scaled_ge; [exact Q1|lia]
                        | eapply scaled_ge; [exact Q2|lia]
                        | eapply scaled_ge; [exact Q3|lia]
                        | eapply scaled_ge; [exact Q4|lia] ])).
  - rewrite human_loop_stop by (eapply scaled_lt; [exact Q0|lia]).
    rewrite (format_1f_scaled n _ _ Hn Q0). reflexivity.
  - rewrite human_loop_stop by (eapply scaled_lt; [exact Q1|lia]).
    rewrite (format_1f_scaled n _ _ Hn Q1). reflexivity.
  - rewrite human_loop_stop by (eapply scaled_lt; [exact Q2|lia]).
    rewrite (format_1f_scaled n _ _ Hn Q2). reflexivity.
  - rewrite human_loop_stop by (eapply scaled_lt; [exact Q3|lia]).
    rewrite (format_1f_scaled n _ _ Hn Q3). reflexivity.
  - rewrite human_loop_stop by (eapply scaled_lt; [exact Q4|lia]).
    rewrite (format_1f_scaled n _ _ Hn Q4). reflexivity.
  - cbn [human_loop]. rewrite (format_1f_scaled n _ _ Hn Q5). reflexivity.
Qed.

(** X1.  Below 1024 the amount is shown in bytes, as it is, with a zero decimal. *)
Theorem human_bytes_small (n : Z) :
  (0 <= n < 1024)%Z -> human_bytes n = dec (Z.to_N n) +:+ ".0 B".
Proof.
  intros Hn.
  rewrite (human_bytes_at n 0) by (cbn; first [lia | discriminate | idtac]; lia).
  change (Z.to_pos (1024 ^ Z.of_nat 0)) with 1%positive.
  change (unit_name 0) with "B".
  rewrite round_half_even_frac.
  rewrite Z.mod_1_r, Z.div_1_r.
  change (2 * 0 ?= 1)%Z with Lt. cbv iota.
  unfold show_tenths.
  replace (10 * n / 10)%Z with n by (apply Z.div_unique_exact; lia).
  replace ((10 * n) mod 10)%Z with 0%Z
    by (symmetry; rewrite Z.mul_comm; apply Z.mod_mul; lia).
  change (dec (Z.to_N 0)) with "0".
  rewrite append_assoc. reflexivity.
Qed.

(** X2.  An amount of at least [1024^k] and, for the units below PiB, less than
    [1024^(k+1)], is shown in the [k]-th unit, as the number of tenths of that
    unit nearest to it. *)
Theorem human_bytes_scale (n : Z) (k : nat) :
  (0 <= n < 2 ^ 53)%Z -> (k <= 5)%nat ->
  (k <> 0%nat -> 1024 ^ Z.of_nat k <= n)%Z ->
  (k <> 5%nat -> n < 1024 ^ (Z.of_nat k + 1))%Z ->
  exists t : Z,
    human_bytes n = show_tenths t +:+ " " +:+ unit_name k
    /\ (2 * Z.abs (10 * n - t * 1024 ^ Z.of_nat k) <= 1024 ^ Z.of_nat k)%Z.
Proof.
  intros [Hn _] Hk Hlo Hhi.
  eexists. split; [apply human_bytes_at; assumption|].
  pose proof (round_half_even_near (10 * n)
                (Z.to_pos (1024 ^ Z.of_nat k))) as H.
  rewrite Z2Pos.id in H by (apply Z.pow_pos_nonneg; lia).
  exact H.
Qed.

(** X3.  An amount less than one twentieth of a unit below the next unit is shown
    as 1024.0 of its unit, not as 1.0 of the next. *)
Theorem human_bytes_rollover (n : Z) (k : nat) :
  (1 <= k <= 4)%nat ->
  (20479 * 1024 ^ Z.of_nat k <= 20 * n)%Z ->
  (n < 1024 ^ (Z.of_nat k + 1))%Z ->
  human_bytes n = "1024.0 " +:+ unit_name k.
Proof.
  intros Hk Hlo Hhi.
  assert (Hp : (0 < 1024 ^ Z.of_nat k)%Z) by (apply Z.pow_pos_nonneg; lia).
  assert (Hs : (1024 ^ (Z.of_nat k + 1) = 1024 * 1024 ^ Z.of_nat k)%Z).
  { rewrite Z.pow_add_r by lia. lia. }
  rewrite (human_bytes_at n k) by lia.
  rewrite (round_half_even_up _ 10239);
    rewrite ?Z2Pos.id by exact Hp; [reflexivity|lia|lia|reflexivity].
Qed.

End HumanBytes.

Lemma human_bytes_small_witness : Utils.human_bytes 1023 = "1023.0 B".
Proof. apply (human_bytes_small 1023). lia. Defined.

Lemma human_bytes_scale_witness :
  exists t : Z,
    Utils.human_bytes 123456789 = Utils.show_tenths t +:+ " MiB"
    /\ (2 * Z.abs (10 * 123456789 - t * 1024 ^ 2) <= 1024 ^ 2)%Z.
Proof.
  apply (human_bytes_scale 123456789 2); [lia|lia| |]; intros _;
    vm_compute; congruence.
Defined.

Lemma human_bytes_rollover_witness :
  Utils.human_bytes 1048575 = "1024.0 KiB".
Proof.
  apply (human_bytes_rollover 1048575 1); [lia| |]; vm_compute; congruence.
Defined.

(** ** Hashing a file in chunks *)

Section Chunks.
Import Utils.

(** The chunks read are the content, cut into pieces of [size] bytes. *)
Lemma read_chunks_concat (size : nat) :
  (0 < size)%nat ->
  forall (fuel : nat) (data : list Byte.byte),
    (length data < fuel)%nat ->
    concat (read_chunks fuel size data) = data
    /\ Forall (fun c => (0 < length c <= size)%nat)
         (read_chunks fuel size data).
Proof.
  intros Hsize. induction fuel as [|fuel IH]; intros data Hlen; [lia|].
  cbn [read_chunks].
  destruct data as [|b0 data].
  - rewrite take_nil. split; [reflexivity|constructor].
  - destruct size as [|size]; [lia|]. cbn [take drop firstn skipn].
    assert (Hdrop : (length (drop size data) < fuel)%nat).
    { rewrite length_drop. cbn in Hlen. lia. }
    destruct (IH (drop size data) Hdrop) as [Hc Hf].
    split.
    + cbn [concat]. rewrite Hc. cbn [app]. f_equal. apply take_drop.
    + constructor; [|exact Hf].
      cbn [length]. rewrite length_take. lia.
Qed.

Lemma fold_update_concat (hashlib_sha256 : hasher) :
  (forall s a b,
      h_update hashlib_sha256 (h_update hashlib_sha256 s a) b
      = h_update hashlib_sha256 s (a ++ b)) ->
  (forall s, h_update hashlib_sha256 s [] = s) ->
  forall chunks s,
    fold_left (h_update hashlib_sha256) chunks s
    = h_update hashlib_sha256 s (concat chunks).
Proof.
  intros Happ Hnil. induction chunks as [|c chunks IH]; intros s; cbn.
  - symmetry. apply Hnil.
  - rewrite IH. apply Happ.
Qed.

(** X4.  For a hash object whose [update] calls are equivalent to one call on the
    concatenation of their arguments, the digest of the stream read in chunks
    of 64 KiB is the digest of the whole content. *)
Theorem sha256_stream_whole (hashlib_sha256 : hasher)
    (data : list Byte.byte) :
  (forall s a b,
      h_update hashlib_sha256 (h_update hashlib_sha256 s a) b
      = h_update hashlib_sha256 s (a ++ b)) ->
  (forall s, h_update hashlib_sha256 s [] = s) ->
  sha256_stream hashlib_sha256 data
  = h_hexdigest hashlib_sha256
      (h_update hashlib_sha256 (h_new hashlib_sha256) data).
Proof.
  intros Happ Hnil. unfold sha256_stream. cbv zeta.
  rewrite (fold_update_concat _ Happ Hnil).
  destruct (read_chunks_concat (N.to_nat 65536) ltac:(lia)
              (S (length data)) data ltac:(lia)) as [-> _].
  reflexivity.
Qed.

End Chunks.

(** With a hash object that keeps what it was fed. *)
Lemma sha256_stream_whole_witness :
  let keep :=
    Utils.Hasher (list Byte.byte) [] (fun s a => s ++ a) string_of_list_byte in
  Utils.sha256_stream keep (Demo.bytes "hi") = "hi".
Proof.
  intros keep.
  rewrite (sha256_stream_whole keep (Demo.bytes "hi")).
  - vm_compute. reflexivity.
  - intros s a b. cbn. symmetry. apply app_assoc.
  - intros s. cbn. apply app_nil_r.
Defined.

(** ** The calls a run can make *)

Section CallsOnly.
Context {W : Type} (allowed : call -> bool).

Lemma calls_only_ret {A} (a : A) : calls_only allowed (@ret W A a).
Proof. intros w. reflexivity. Qed.

Lemma calls_only_raise {A} (e : exn) : calls_only allowed (@raise W A e).
Proof. intros w. reflexivity. Qed.

Lemma calls_only_lift {A} (r : result A) : calls_only allowed (@lift W A r).
Proof. intros w. reflexivity. Qed.

Lemma calls_only_ask {A} (f : W -> A) : calls_only allowed (ask f).
Proof. intros w. reflexivity. Qed.

Lemma calls_only_query {A} (f : W -> result A) : calls_only allowed (query f).
Proof. intros w. reflexivity. Qed.

Lemma calls_only_prim {A} (c : call) (f : W -> result A * W) :
  allowed c = true -> calls_only allowed (prim c f).
Proof.
  intros Hc w. unfold prim, log_of. destruct (f w) as [r w1]. cbn.
  rewrite Hc. reflexivity.
Qed.

Lemma calls_only_bind {A B} (m : M W A) (k : A -> M W B) :
  calls_only allowed m -> (forall a, calls_only allowed (k a)) ->
  calls_only allowed (bind m k).
Proof.
  intros Hm Hk w. specialize (Hm w). unfold bind, log_of in *.
  destruct (m w) as [[[a|e] w1] l1]; cbn in *; [|exact Hm].
  specialize (Hk a w1). unfold log_of in Hk.
  destruct (k a w1) as [[r w2] l2]. cbn in *.
  rewrite forallb_app, Hm, Hk. reflexivity.
Qed.

Lemma calls_only_catch {A} (m : M W A) (h : exn -> M W A) :
  calls_only allowed m -> (forall e, calls_only allowed (h e)) ->
  calls_only allowed (catch m h).
Proof.
  intros Hm Hh w. specialize (Hm w). unfold catch, log_of in *.
  destruct (m w) as [[[a|e] w1] l1]; cbn in *; [exact Hm|].
  specialize (Hh e w1). unfold log_of in Hh.
  destruct (h e w1) as [[r w2] l2]. cbn in *.
  rewrite forallb_app, Hm, Hh. reflexivity.
Qed.

Lemma calls_only_catch_IOError {A} (m h : M W A) :
  calls_only allowed m -> calls_only allowed h ->
  calls_only allowed (catch_IOError m h).
Proof.
  intros Hm Hh. apply calls_only_catch; [exact Hm|].
  intros e. destruct (is_IOError e); [exact Hh | apply calls_only_raise].
Qed.

Lemma calls_only_ignore (m : M W unit) :
  calls_only allowed m -> calls_only allowed (ignore m).
Proof.
  intros Hm. apply calls_only_catch; [exact Hm|].
  intros e. apply calls_only_ret.
Qed.

Lemma calls_only_for_each {X} (body : X -> M W unit) (l : list X) :
  (forall x, calls_only allowed (body x)) ->
  calls_only allowed (for_each l body).
Proof.
  intros Hb. induction l as [|x l IH]; cbn [for_each].
  - apply calls_only_ret.
  - apply calls_only_bind; [apply Hb | intros _; exact IH].
Qed.

Lemma calls_only_fold_m {X S} (body : S -> X -> M W S) (l : list X) :
  (forall acc x, calls_only allowed (body acc x)) ->
  forall acc, calls_only allowed (fold_m l body acc).
Proof.
  intros Hb. induction l as [|x l IH]; intros acc; cbn [fold_m].
  - apply calls_only_ret.
  - apply calls_only_bind; [apply Hb | exact IH].
Qed.

End CallsOnly.

Lemma calls_only_weaken {W A} (P Q : call -> bool) (m : M W A) :
  (forall c, P c = true -> Q c = true) ->
  calls_only P m -> calls_only Q m.
Proof.
  intros HPQ Hm w. specialize (Hm w).
  induction (log_of (m w)) as [|ev l IH]; [reflexivity|].
  cbn in *. apply andb_true_iff in Hm as [Hc Hl].
  rewrite (HPQ _ Hc), (IH Hl). reflexivity.
Qed.

(** Break a computation of the engine down to its calls. *)
Ltac calls_step :=
  first
    [ apply calls_only_ret | apply calls_only_raise | apply calls_only_lift
    | apply calls_only_ask | apply calls_only_query
    | apply calls_only_prim; reflexivity
    | apply calls_only_bind; [|intros ?]
    | apply calls_only_catch_IOError
    | apply calls_only_ignore
    | apply calls_only_catch; [|intros ?]
    | apply calls_only_for_each; intros ?
    | apply calls_only_fold_m; intros ? ?
    | match goal with
      | |- calls_only _ (if ?b then _ else _) => destruct b
      | |- calls_only _ (match ?x with _ => _ end) => destruct x
      | |- calls_only _ (let '(_, _) := ?x in _) => destruct x
      end ].

Ltac calls_tac := repeat calls_step.

Section EngineCalls.
Context {W : Type} (env : Env W).

Lemma mkdir_parts_upload_calls (ps : list string) :
  forall cur, calls_only upload_call (mkdir_parts env cur ps).
Proof.
  induction ps as [|p ps IH]; intros cur; cbn [mkdir_parts].
  - apply calls_only_ret.
  - apply calls_only_bind; [|intros _; apply IH].
    unfold mkdir. calls_tac.
Qed.

Lemma atomic_upload_calls (lp rp : string) :
  calls_only upload_call (atomic_upload env lp rp).
Proof.
  unfold atomic_upload, upload_body, upload_handler, ensure_remote_dir,
    move_into_place, chdir, put, rename, remove, print.
  cbv zeta.
  apply calls_only_catch.
  - apply calls_only_bind.
    + destruct (_ && _); [|apply calls_only_ret].
      apply calls_only_catch_IOError;
        [calls_tac | apply mkdir_parts_upload_calls].
    + intros _. calls_tac.
  - intros e. calls_tac.
Qed.

Lemma atomic_download_local_calls (rp lp : string) :
  calls_only local_call (atomic_download env rp lp).
Proof.
  unfold atomic_download, download_body, download_handler, makedirs, get,
    replace, unlink, print.
  cbv zeta. calls_tac.
Qed.

Lemma list_local_calls (path : string) :
  calls_only is_stat_call (list_local env path).
Proof.
  unfold list_local, scan_dir, os_path_relpath, stat. calls_tac.
Qed.

Lemma walk_calls (depth : nat) :
  forall rdir rel results,
    calls_only (fun c => match c with SftpListdirAttr _ => true | _ => false end)
      (_walk env depth rdir rel results).
Proof.
  induction depth as [|depth IH]; intros rdir rel results; cbn [_walk].
  - apply calls_only_raise.
  - unfold listdir_attr. apply calls_only_bind; [calls_tac|].
    intros attrs. apply calls_only_fold_m. intros acc a.
    destruct (S_ISDIR _); [apply IH | apply calls_only_ret].
Qed.

End EngineCalls.

(** X5.  A push makes no call that creates, writes, moves or deletes anything on
    the local side, whatever the transport and the host answer. *)
Theorem sync_push_never_writes_local {W} (env : Env W)
    (local_dir remote_dir : string) (include exclude : list string) :
  calls_only (fun c => negb (writes_local c))
    (sync_push env local_dir remote_dir include exclude).
Proof.
  unfold sync_push, push_step, push_ensure_dirs, chdir, mkdir.
  apply calls_only_bind.
  - apply (calls_only_weaken is_stat_call); [|apply list_local_calls].
    intros [] H; try discriminate H; reflexivity.
  - intros local_files. apply calls_only_for_each. intros rel.
    apply calls_only_bind; [apply calls_only_lift|]. intros _.
    apply calls_only_bind.
    + calls_tac.
    + intros _.
      apply (calls_only_weaken upload_call); [|apply atomic_upload_calls].
      intros [] H; try discriminate H; reflexivity.
Qed.

(** X6.  A pull makes no call that creates, writes, moves or deletes anything on
    the remote side, whatever the transport and the host answer. *)
Theorem sync_pull_never_writes_remote {W} (env : Env W) (depth : nat)
    (remote_dir local_dir : string) (include exclude : list string) :
  calls_only (fun c => negb (writes_remote c))
    (sync_pull env depth remote_dir local_dir include exclude).
Proof.
  unfold sync_pull, list_remote, pull_step, os_path_relpath, makedirs.
  apply calls_only_bind.
  - eapply calls_only_weaken; [|apply walk_calls].
    intros [] H; try discriminate H; reflexivity.
  - intros remote_files. apply calls_only_for_each. intros remote_path.
    destruct (passes_filter _ _ _); [|apply calls_only_ret].
    apply calls_only_bind; [calls_tac|]. intros rel_path.
    apply calls_only_bind; [calls_tac|]. intros _.
    apply (calls_only_weaken local_call);
      [|apply atomic_download_local_calls].
    intros [] H; try discriminate H; reflexivity.
Qed.

(** ** The reports of the dry runs *)

Lemma printed_app (l1 l2 : list event) :
  printed (l1 ++ l2) = printed l1 ++ printed l2.
Proof.
  induction l1 as [|ev l1 IH]; [reflexivity|].
  cbn. destruct (ev_call ev); cbn; rewrite IH; reflexivity.
Qed.

Lemma printed_none (P : call -> bool) (l : list event) :
  (forall line, P (Print line) = false) ->
  forallb (fun ev => P (ev_call ev)) l = true ->
  printed l = [].
Proof.
  intros HP. induction l as [|ev l IH]; [reflexivity|].
  cbn. intros H. apply andb_true_iff in H as [Hc Hl].
  destruct (ev_call ev); try (apply IH; exact Hl).
  rewrite HP in Hc. discriminate Hc.
Qed.

#[local] Arguments Utils.human_bytes : simpl never.
#[local] Arguments item_line : simpl never.

Section DryPush.
Context {W : Type} (env : Env W) (host : Host W).

(** The loop over the scanned files: it counts the selected ones and prints
    those that come while the count is at most ten. *)
Lemma dry_push_fold (include exclude : list string) (files : dict meta) :
  forall (count : Z) (w : W),
    (0 <= count)%Z ->
    fold_m files (dry_push_step include exclude) count w
    = (Ok (count + Z.of_nat (length (dry_selected include exclude files)))%Z,
       w,
       map (fun kv =>
              Ev (Print (item_line (fst kv)
                           (Utils.human_bytes (st_size (snd kv))) 2)) None)
         (take (Z.to_nat (10 - count))
            (dry_selected include exclude files))).
Proof.
  induction files as [|[rel_path m] files IH]; intros count w Hc.
  - cbn. rewrite Z.add_0_r, take_nil. reflexivity.
  - cbn [fold_m dry_selected List.filter fst]. unfold bind.
    unfold dry_push_step at 1.
    destruct (dry_run_should_include rel_path include exclude) eqn:E;
      cbn [negb].
    + fold (dry_selected include exclude files).
      destruct (Z.leb_spec (count + 1) 10) as [Hle|Hgt].
      * unfold bind, Utils.format_dry_run_item, print, prim, ret. cbn.
        rewrite (IH (count + 1)%Z w) by lia.
        replace (Z.to_nat (10 - count)) with (S (Z.to_nat (10 - (count + 1))))
          by lia.
        cbn [take firstn map length fst snd].
        replace (count + 1 + Z.of_nat (length (dry_selected include exclude files)))%Z
          with (count + Z.of_nat (S (length (dry_selected include exclude files))))%Z
          by lia.
        reflexivity.
      * unfold bind, ret. cbn.
        rewrite (IH (count + 1)%Z w) by lia.
        replace (Z.to_nat (10 - count)) with 0%nat by lia.
        replace (Z.to_nat (10 - (count + 1))) with 0%nat by lia.
        cbn [take firstn map length].
        replace (count + 1 + Z.of_nat (length (dry_selected include exclude files)))%Z
          with (count + Z.of_nat (S (length (dry_selected include exclude files))))%Z
          by lia.
        reflexivity.
    + fold (dry_selected include exclude files).
      unfold ret. cbn. rewrite (IH count w) by lia. reflexivity.
Qed.

Lemma printed_prints {X} (f : X -> string) (l : list X) :
  printed (map (fun x => Ev (Print (f x)) None) l) = map f l.
Proof. induction l as [|x l IH]; [reflexivity|]. cbn. rewrite IH. reflexivity. Qed.

(** The [try] of [dry_run_sync_push]: it never raises, and prints what the
    outcome of the scan calls for. *)
Lemma dry_push_core (local_dir : string) (include exclude : list string)
    (w : W) :
  let scan := list_local env local_dir w in
  let run :=
    catch (dry_push_body env local_dir include exclude) dry_push_handler w in
  result_of run = Ok tt
  /\ world_of run = world_of scan
  /\ printed (log_of run)
     = dry_push_lines include exclude (result_of scan).
Proof.
  cbv zeta. unfold catch, dry_push_body, bind.
  pose proof (printed_none is_stat_call _ (fun _ => eq_refl)
                (list_local_calls env local_dir w)) as Hl.
  unfold log_of in Hl.
  destruct (list_local env local_dir w) as [[[files|e] w1] l1];
    cbn [snd] in Hl.
  - destruct files as [|kv files].
    + change (0 <? Z.of_nat (length (@nil (string * meta))))%Z with false.
      cbn. rewrite printed_app, Hl. repeat split.
    + assert (Hpos : (0 <? Z.of_nat (length (kv :: files)))%Z = true).
      { apply Z.ltb_lt. cbn [length]. lia. }
      unfold Utils.format_dry_run_section, Utils.format_dry_run_item, print,
        prim, bind.
      rewrite Hpos. rewrite (dry_push_fold include exclude _ 0 w1) by lia.
      rewrite Z.add_0_l, Z.sub_0_r.
      change (Z.to_nat 10) with 10%nat.
      unfold result_of, world_of, log_of, dry_push_lines, dry_summary_line.
      cbn [fst snd]. cbv beta iota zeta.
      remember (dry_selected include exclude (kv :: files)) as sel eqn:Hsel.
      clear Hsel.
      destruct (Z.ltb_spec 10 (Z.of_nat (length sel))) as [H10|H10];
        [|destruct (Z.eqb_spec (Z.of_nat (length sel)) 0) as [H0|H0]].
      * destruct (Nat.ltb_spec 10 (length sel)); [|lia].
        cbn. rewrite !printed_app, Hl. cbn.
        rewrite printed_app, printed_prints. repeat split.
      * destruct (Nat.ltb_spec 10 (length sel)); [lia|].
        destruct (Nat.eqb_spec (length sel) 0); [|lia].
        cbn. rewrite !printed_app, Hl. cbn.
        rewrite printed_app, printed_prints. repeat split.
      * destruct (Nat.ltb_spec 10 (length sel)); [lia|].
        destruct (Nat.eqb_spec (length sel) 0); [lia|].
        cbn. rewrite !printed_app, Hl. cbn.
        rewrite printed_app, printed_prints. repeat split.
  - cbn. rewrite printed_app, Hl. repeat split.
Qed.

End DryPush.

(** X7.  [dry_run_sync_push] never raises.  It prints the header, the parameters,
    then what the outcome of the local scan calls for: the analysis, the
    first ten files that pass the filter and the summary line, or the error
    of the scan; then the footer. *)
Theorem dry_run_sync_push_report {W} (env : Env W) (host : Host W)
    (local_dir remote_dir : string) (recursive : bool)
    (include exclude : list string) (w : W) :
  let run :=
    dry_run_sync_push env host local_dir remote_dir recursive include exclude
      w in
  result_of run = Ok tt
  /\ printed (log_of run)
     = header_lines (now_str host w) "Synchronization push"
         (local_dir +:+ arrow +:+ remote_dir)
       ++ push_parameter_lines local_dir remote_dir recursive include exclude
       ++ dry_push_lines include exclude
            (result_of (list_local env local_dir w))
       ++ footer_lines.
Proof.
  cbv zeta.
  destruct (dry_push_core env local_dir include exclude w) as (Hr & _ & Hp).
  unfold dry_run_sync_push.
  set (core := catch (dry_push_body env local_dir include exclude)
                 dry_push_handler) in *.
  unfold header, Utils.format_dry_run_header, Utils.format_dry_run_section,
    Utils.format_dry_run_item, Utils.format_dry_run_footer, print, prim, ask,
    bind, ret, push_parameter_lines, header_lines, footer_lines.
  unfold result_of, log_of in *.
  destruct include as [|i include]; destruct exclude as [|x exclude];
    cbn [truthy];
    destruct (core w) as [[r w1] l]; cbn [fst snd] in Hr, Hp; subst r;
    cbn [fst snd app printed ev_call]; rewrite printed_app, Hp;
    split; reflexivity.
Qed.

(** X8.  [dry_run_upload] never raises and changes nothing.  It prints the header,
    then the details of the local file and the plan, or, when reading the
    size, the content or the modification time raised, the error section:
    a missing local file for [FileNotFoundError], the text of the exception
    for any other; then the footer. *)
Theorem dry_run_upload_report {W} (host : Host W)
    (local_path remote_path : string) (w : W) :
  let target := dry_upload_target local_path remote_path in
  let run := dry_run_upload host local_path remote_path w in
  result_of run = Ok tt
  /\ world_of run = w
  /\ printed (log_of run)
     = header_lines (now_str host w) "File Upload"
         (local_path +:+ arrow +:+ target)
       ++ dry_upload_lines local_path target
            (dry_upload_inputs host local_path w)
       ++ footer_lines.
Proof.
  cbv zeta. unfold dry_run_upload, dry_upload_body, dry_upload_handler,
    dry_upload_inputs, sha256_file, header, Utils.format_dry_run_header,
    Utils.format_dry_run_section, Utils.format_dry_run_item,
    Utils.format_dry_run_action, Utils.format_dry_run_footer, print, prim,
    ask, catch, bind, query, lift, ret.
  destruct (os_getsize host local_path w) as [size|e];
    [destruct (open_rb host local_path w) as [data|e];
     [destruct (os_getmtime host local_path w) as [t|e];
      [destruct (fromtimestamp_str host t) as [mod_time|e]|]|]|];
    try (destruct e); repeat split; reflexivity.
Qed.

(** X9.  No dry run makes a call other than printing and [os.stat]: nothing is
    sent to the transport and nothing is created, written, moved or deleted
    on the local side. *)
Theorem dry_runs_change_nothing {W} (env : Env W) (host : Host W)
    (a b : string) (recursive : bool) (include exclude : list string) :
  calls_only is_report_call (dry_run_upload host a b)
  /\ calls_only is_report_call (dry_run_download env host a b)
  /\ calls_only is_report_call
       (dry_run_sync_push env host a b recursive include exclude).
Proof.
  split; [|split].
  - unfold dry_run_upload, dry_upload_body, dry_upload_handler, sha256_file,
      header, Utils.format_dry_run_header, Utils.format_dry_run_section,
      Utils.format_dry_run_item, Utils.format_dry_run_action,
      Utils.format_dry_run_footer, print.
    cbv zeta. calls_tac.
  - unfold dry_run_download,
      header, Utils.format_dry_run_header, Utils.format_dry_run_section,
      Utils.format_dry_run_item, Utils.format_dry_run_action,
      Utils.format_dry_run_footer, print.
    cbv zeta. calls_tac.
  - unfold dry_run_sync_push, dry_push_body, dry_push_handler, dry_push_step,
      header, Utils.format_dry_run_header, Utils.format_dry_run_section,
      Utils.format_dry_run_item, Utils.format_dry_run_action,
      Utils.format_dry_run_footer, print.
    cbv zeta.
    repeat first
      [ apply (calls_only_weaken is_stat_call);
          [intros [] H; try discriminate H; reflexivity
          |apply list_local_calls]
      | calls_step ].
Qed.

(** ** Where a transfer lands *)

Section Targets.
Import Str Path.

Lemma slash_free_no_trailing (s : string) :
  slash_free s = true -> ends_with_slash s = false.
Proof.
  induction s as [|c s IH]; [reflexivity|].
  cbn [slash_free]. intros H. apply andb_true_iff in H as [Hc Hs].
  apply negb_true_iff in Hc. cbn [ends_with_slash].
  destruct s; [exact Hc | exact (IH Hs)].
Qed.

(** The two halves of a path split at its last separator. *)
Lemma rsplit_slash_shape (p : string) :
  slash_free (snd (rsplit_slash p)) = true
  /\ (is_empty (fst (rsplit_slash p)) = true ->
      snd (rsplit_slash p) = p)
  /\ is_empty (snd (rsplit_slash p)) = is_empty p || ends_with_slash p.
Proof.
  induction p as [|c p (Hfree & Hhead & Htail)]; [repeat split|].
  cbn [rsplit_slash]. destruct (rsplit_slash p) as [h t] eqn:Er.
  cbn [fst snd] in *.
  destruct (is_empty h) eqn:Eh; cbn [negb fst snd].
  - specialize (Hhead eq_refl). subst t.
    destruct (is_slash c) eqn:Ec; cbn [fst snd is_empty].
    + split; [exact Hfree|]. split; [discriminate|].
      cbn [ends_with_slash orb].
      destruct p as [|k p]; [symmetry; exact Ec|].
      cbn [is_empty]. symmetry.
      exact (slash_free_no_trailing _ Hfree).
    + split; [cbn [slash_free]; rewrite Ec; exact Hfree|].
      split; [reflexivity|].
      cbn [ends_with_slash orb].
      destruct p as [|k p]; [symmetry; exact Ec|].
      symmetry. exact (slash_free_no_trailing _ Hfree).
  - split; [exact Hfree|]. split; [discriminate|].
    destruct p as [|k p];
      [cbn in Er; injection Er as <- <-; discriminate Eh|].
    cbn [is_empty orb] in *. exact Htail.
Qed.

Lemma basename_slash_free (p : string) : slash_free (basename p) = true.
Proof. exact (proj1 (rsplit_slash_shape p)). Qed.

(** A path has no file name exactly when it is empty or ends with a
    separator. *)
Lemma basename_empty (p : string) :
  is_empty (basename p) = is_empty p || ends_with_slash p.
Proof. exact (proj2 (proj2 (rsplit_slash_shape p))). Qed.

(** Joining a file name to a directory gives a path with that file name. *)
Lemma join_file_name (a b : string) :
  slash_free b = true -> is_empty b = false ->
  basename (join a b) = b
  /\ ends_with_slash (join a b) = false
  /\ join a b
     = if is_empty a || ends_with_slash a then a +:+ b else a +:+ "/" +:+ b.
Proof.
  intros Hfree Hne.
  assert (Hs : startswith b "/" = false).
  { destruct b as [|k b]; [discriminate Hne|].
    cbn in Hfree. apply andb_true_iff in Hfree as [Hk _].
    apply negb_true_iff in Hk. unfold is_slash, slash in Hk.
    change (startswith (String k b) "/")
      with (Ascii.eqb "/" k && startswith b "").
    rewrite Ascii.eqb_sym, Hk. reflexivity. }
  unfold join. rewrite Hs.
  split; [|split; [|reflexivity]].
  - unfold basename.
    destruct (is_empty a || ends_with_slash a) eqn:E.
    + rewrite rsplit_slash_append by exact Hfree. cbn [snd].
      fold (basename a).
      assert (Hb : basename a = "").
      { pose proof (basename_empty a) as H. rewrite E in H.
        destruct (basename a); [reflexivity | discriminate H]. }
      rewrite Hb. reflexivity.
    + rewrite <- append_assoc.
      rewrite rsplit_slash_append by exact Hfree. cbn [snd].
      fold (basename (a +:+ "/")).
      assert (Hb : basename (a +:+ "/") = "").
      { pose proof (basename_empty (a +:+ "/")) as H.
        assert (Ht : ends_with_slash (a +:+ "/") = true).
        { clear. induction a as [|c a IH]; [reflexivity|].
          change (String c a +:+ "/") with (String c (a +:+ "/")).
          cbn [ends_with_slash]. destruct (a +:+ "/") eqn:Ea; [|exact IH].
          destruct a; discriminate Ea. }
        rewrite Ht, orb_true_r in H.
        destruct (basename (a +:+ "/")); [reflexivity | discriminate H]. }
      rewrite Hb. reflexivity.
  - destruct (is_empty a || ends_with_slash a).
    + apply ends_with_slash_append; assumption.
    + rewrite <- append_assoc. apply ends_with_slash_append; assumption.
Qed.

(** X10.  An upload to a path that is empty or ends with a separator lands inside
    it, under the name of the local file; any other remote path is the target
    itself. *)
Theorem upload_target_resolution (local_path remote_path : string) :
  is_empty (basename local_path) = false ->
  upload_target local_path remote_path
  = if is_empty remote_path || ends_with_slash remote_path
    then remote_path +:+ basename local_path
    else remote_path.
Proof.
  intros Hl. unfold upload_target.
  destruct (join_file_name remote_path (basename local_path)
              (basename_slash_free _) Hl) as (Hb & He & Hj).
  assert (Hc : ends_with_slash remote_path || is_empty (basename remote_path)
               = is_empty remote_path || ends_with_slash remote_path).
  { rewrite basename_empty.
    destruct (is_empty remote_path), (ends_with_slash remote_path); reflexivity. }
  rewrite Hc.
  destruct (is_empty remote_path || ends_with_slash remote_path) eqn:E.
  - rewrite Hb, Hl. exact Hj.
  - rewrite (basename_empty remote_path), E. reflexivity.
Qed.

(** X11.  A download to an existing directory lands inside it, under the name of
    the remote file; so does a download to a path that is empty or ends with
    a separator; any other local path is the target itself. *)
Theorem download_target_resolution (isdir : bool)
    (remote_path local_path : string) :
  is_empty (basename remote_path) = false ->
  download_target isdir remote_path local_path
  = if isdir then join local_path (basename remote_path)
    else if is_empty local_path || ends_with_slash local_path
         then local_path +:+ basename remote_path
         else local_path.
Proof.
  intros Hr. unfold download_target.
  pose proof (basename_slash_free remote_path) as Hfree.
  destruct isdir.
  - destruct (join_file_name local_path (basename remote_path) Hfree Hr)
      as (Hb & He & _).
    rewrite He, Hb, Hr. cbn [orb]. rewrite Hb, Hr. reflexivity.
  - destruct (join_file_name local_path (basename remote_path) Hfree Hr)
      as (Hb & He & Hj).
    assert (Hc : ends_with_slash local_path || is_empty (basename local_path)
                 = is_empty local_path || ends_with_slash local_path).
    { rewrite basename_empty.
      destruct (is_empty local_path), (ends_with_slash local_path); reflexivity. }
    rewrite Hc.
    destruct (is_empty local_path || ends_with_slash local_path) eqn:E.
    + rewrite Hb, Hr. exact Hj.
    + rewrite (basename_empty local_path), E. reflexivity.
Qed.

(** X12.  The dry runs announce the target of the transfer they stand for: always
    for an upload of a path with a file name; for a download, exactly when
    the local path is an existing directory or a path that is neither empty
    nor ends with a separator. *)
Theorem dry_run_targets (isdir : bool) (remote_path local_path : string) :
  (is_empty (basename local_path) = false ->
   dry_upload_target local_path remote_path
   = upload_target local_path remote_path)
  /\ (is_empty (basename remote_path) = false ->
      (dry_download_target isdir remote_path local_path
       = download_target isdir remote_path local_path
       <-> isdir = true
           \/ is_empty local_path || ends_with_slash local_path = false)).
Proof.
  split.
  - intros Hl. rewrite (upload_target_resolution _ _ Hl).
    unfold dry_upload_target.
    destruct (join_file_name remote_path (basename local_path)
                (basename_slash_free _) Hl) as (_ & _ & Hj).
    assert (Hc : ends_with_slash remote_path || is_empty (basename remote_path)
                 = is_empty remote_path || ends_with_slash remote_path).
    { rewrite basename_empty.
      destruct (is_empty remote_path), (ends_with_slash remote_path); reflexivity. }
    rewrite Hc.
    destruct (is_empty remote_path || ends_with_slash remote_path);
      [exact Hj | reflexivity].
  - intros Hr. rewrite (download_target_resolution _ _ _ Hr).
    unfold dry_download_target. destruct isdir.
    + split; [left; reflexivity | reflexivity].
    + destruct (is_empty local_path || ends_with_slash local_path).
      * split; [|intros [H|H]; discriminate H].
        intros H. symmetry in H. exfalso. revert H.
        apply append_longer.
        destruct (basename remote_path); [discriminate Hr | cbn; lia].
      * split; [right; reflexivity | reflexivity].
Qed.

End Targets.

Lemma upload_target_resolution_witness :
  upload_target "/l/a.txt" "/r/inbox/" = "/r/inbox/a.txt".
Proof. apply (upload_target_resolution "/l/a.txt" "/r/inbox/"). reflexivity. Defined.

Lemma download_target_resolution_witness :
  download_target false "/r/a.txt" "out/" = "out/a.txt".
Proof.
  apply (download_target_resolution false "/r/a.txt" "out/"). reflexivity.
Defined.

Lemma dry_run_targets_witness :
  dry_upload_target "/l/a.txt" "/r/inbox/" = upload_target "/l/a.txt" "/r/inbox/"
  /\ dry_download_target false "/r/a.txt" "out/"
     <> download_target false "/r/a.txt" "out/".
Proof.
  split.
  - apply (proj1 (dry_run_targets false "/r/inbox/" "/l/a.txt")). reflexivity.
  - intros H.
    apply (proj2 (dry_run_targets false "/r/a.txt" "out/") eq_refl) in H.
    destruct H as [H|H]; discriminate H.
Defined.

(** ** Failures of an upload before the rename *)

Section PutFailure.
Context {W : Type} (env : Env W).

(** X13.  When the transfer to the temporary path fails, [atomic_upload] returns
    normally after one error line.  For a [PermissionError] or a
    [FileNotFoundError] that line is all it does: the temporary path is left
    as the failed transfer left it.  For any other exception it first tries to
    remove the temporary path. *)
Theorem upload_put_failure (local_path remote_path : string) (w w1 : W)
    (e : exn) :
  let target := upload_target local_path remote_path in
  let tmp := target +:+ ".tmp" in
  let dirs := ensure_remote_dir env target w in
  result_of dirs = Ok tt ->
  sftp_put env local_path tmp (world_of dirs) = (Err e, w1) ->
  let run := atomic_upload env local_path remote_path w in
  result_of run = Ok tt
  /\ exists cleanup,
       log_of run
       = log_of dirs ++ Ev (SftpPut local_path tmp) (Some e) :: cleanup
       /\ match e with
          | PermissionError _ =>
              cleanup
              = [Ev (Print ("Error: Permission denied for remote path: "
                            +:+ target)) None]
              /\ world_of run = w1
          | FileNotFoundError _ =>
              cleanup
              = [Ev (Print ("Error: Local file not found: " +:+ local_path))
                   None]
              /\ world_of run = w1
          | _ =>
              exists o,
                cleanup
                = [Ev (SftpRemove tmp) o;
                   Ev (Print ("Error uploading " +:+ local_path +:+ " to "
                              +:+ target +:+ ": " +:+ str_exn e)) None]
          end.
Proof.
  cbv zeta. unfold atomic_upload, upload_body, catch, bind.
  set (target := upload_target local_path remote_path).
  unfold result_of, world_of, log_of.
  destruct (ensure_remote_dir env target w) as [[r0 w0] l0]. cbn [fst snd].
  intros -> Hput. unfold put, prim. rewrite Hput. cbn [exn_of].
  unfold upload_handler.
  destruct e; cbn;
    try (split; [reflexivity|]; eexists;
         split; [rewrite <- app_assoc; reflexivity|];
         split; reflexivity);
    unfold ignore, catch, bind, remove, prim, print, ret;
    destruct (sftp_remove env (target +:+ ".tmp") w1) as [[[]|e1] w2];
    cbn; (split; [reflexivity|]); eexists;
    (split; [rewrite <- app_assoc; reflexivity|]);
    eexists; reflexivity.
Qed.

End PutFailure.

(** A transfer to the temporary path that is cut after one byte with a
    [PermissionError]: the fragment stays on the remote side. *)
Lemma upload_put_failure_witness :
  let w := Demo.with_faults [Sim.Pass; Sim.Cut Sim.eacces 1] in
  let run := atomic_upload Sim.env "/l/a.txt" "/r/new.txt" w in
  result_of run = Ok tt
  /\ printed (log_of run)
     = ["Error: Permission denied for remote path: /r/new.txt"]
  /\ Sim.content (Sim.files (Sim.rem (world_of run))) "/r/new.txt.tmp"
     = Some (Demo.bytes "h").
Proof.
  cbv zeta.
  destruct (upload_put_failure Sim.env "/l/a.txt" "/r/new.txt"
              (Demo.with_faults [Sim.Pass; Sim.Cut Sim.eacces 1])
              (world_of
                 (Sim.put "/l/a.txt" "/r/new.txt.tmp"
                    (world_of
                       (ensure_remote_dir Sim.env "/r/new.txt"
                          (Demo.with_faults [Sim.Pass; Sim.Cut Sim.eacces 1]))),
                  @nil event))
              Sim.eacces)
    as (Hr & cleanup & Hlog & Hc & Hw).
  - vm_compute. reflexivity.
  - vm_compute. reflexivity.
  - split; [exact Hr|]. split.
    + rewrite Hlog, Hc. vm_compute. reflexivity.
    + rewrite Hw. vm_compute. reflexivity.
Defined.

(** ** What can end a push *)

Section PushFailures.
Context {W : Type} (env : Env W).

(** A loop that ends with an exception ends in the step that raised it. *)
Lemma for_each_err {X} (body : X -> M W unit) (l : list X) :
  forall (w : W) (e : exn),
    result_of (for_each l body w) = Err e ->
    exists x w' pre,
      In x l /\ result_of (body x w') = Err e
      /\ log_of (for_each l body w) = pre ++ log_of (body x w').
Proof.
  induction l as [|x l IH]; intros w e; [discriminate|].
  cbn [for_each]. unfold bind, result_of, log_of.
  destruct (body x w) as [[[[]|e0] w1] l1] eqn:Eb; cbn [fst snd].
  - specialize (IH w1 e). unfold result_of, log_of in IH.
    destruct (for_each l body w1) as [[r w2] l2]. cbn [fst snd] in *.
    intros H. destruct (IH H) as (y & w' & pre & Hin & Hr & Hl).
    exists y, w', (l1 ++ pre). split; [right; exact Hin|].
    split; [exact Hr|]. rewrite Hl, app_assoc. reflexivity.
  - intros H. injection H as ->.
    exists x, w, []. split; [left; reflexivity|].
    rewrite Eb. split; reflexivity.
Qed.

(** Creating the remote directories raises only what [chdir] or [mkdir]
    raised, and only if that is not an [IOError]. *)
Lemma push_ensure_dirs_err (rfile : string) (w : W) (e : exn) :
  result_of (push_ensure_dirs env rfile w) = Err e ->
  is_IOError e = false
  /\ exists ev,
       In ev (log_of (push_ensure_dirs env rfile w))
       /\ is_dir_call (ev_call ev) = true /\ ev_exn ev = Some e.
Proof.
  set (body := fun p : string => catch_IOError (mkdir env p) (ret tt)).
  assert (Hrun :
            push_ensure_dirs env rfile w
            = match sftp_chdir env (Path.dirname rfile) w with
              | (Ok u, w1) =>
                  (Ok u, w1, [Ev (SftpChdir (Path.dirname rfile)) None])
              | (Err e0, w1) =>
                  if is_IOError e0 then
                    let '(r, w2, l2) :=
                      for_each (rev (Path.parents rfile)) body w1 in
                    (r, w2, Ev (SftpChdir (Path.dirname rfile)) (Some e0) :: l2)
                  else
                    (Err e0, w1,
                     [Ev (SftpChdir (Path.dirname rfile)) (Some e0)])
              end).
  { unfold push_ensure_dirs, catch_IOError at 1. unfold catch at 1.
    unfold chdir, prim.
    destruct (sftp_chdir env (Path.dirname rfile) w) as [[u|e0] w1];
      cbn [exn_of]; [reflexivity|].
    destruct (is_IOError e0); reflexivity. }
  rewrite Hrun. clear Hrun.
  destruct (sftp_chdir env (Path.dirname rfile) w) as [[u|e0] w1];
    [discriminate|].
  destruct (is_IOError e0) eqn:E0.
  - intros H.
    assert (H' : result_of (for_each (rev (Path.parents rfile)) body w1)
                 = Err e).
    { unfold result_of in *.
      destruct (for_each (rev (Path.parents rfile)) body w1) as [[r w2] l2].
      exact H. }
    destruct (for_each_err body _ w1 e H') as (p & w' & pre & _ & Hr & Hl).
    assert (Hp : is_IOError e = false
                 /\ log_of (body p w') = [Ev (SftpMkdir p) (Some e)]).
    { revert Hr.
      unfold body, catch_IOError, catch, mkdir, prim, result_of, log_of.
      destruct (sftp_mkdir env p w') as [[[]|e1] w2]; cbn [exn_of];
        [discriminate|].
      destruct (is_IOError e1) eqn:E1; cbn; [discriminate|].
      intros Hr. injection Hr as <-. split; [exact E1 | reflexivity]. }
    destruct Hp as [He Hlp]. split; [exact He|].
    exists (Ev (SftpMkdir p) (Some e)).
    unfold log_of in *.
    destruct (for_each (rev (Path.parents rfile)) body w1) as [[r w2] l2].
    cbn [snd] in *. rewrite Hl, Hlp.
    split; [|split; reflexivity].
    right. apply in_or_app. right. left. reflexivity.
  - cbn. intros H. injection H as <-. split; [exact E0|].
    exists (Ev (SftpChdir (Path.dirname rfile)) (Some e0)).
    split; [left; reflexivity | split; reflexivity].
Qed.

(** X14.  A push ends with an exception in three cases only: the local scan raised
    it; it is the [NameError] of the filter; or a [chdir] or [mkdir] of the
    push raised it and it is not an [IOError].  No failure of an upload ends
    a push. *)
Theorem sync_push_failure_modes (local_dir remote_dir : string)
    (include exclude : list string) (w : W) (e : exn) :
  let run := sync_push env local_dir remote_dir include exclude w in
  result_of run = Err e ->
  result_of (list_local env local_dir w) = Err e
  \/ e = NameError "name 'rel_path' is not defined"
  \/ (is_IOError e = false
      /\ exists ev,
           In ev (log_of run)
           /\ is_dir_call (ev_call ev) = true /\ ev_exn ev = Some e).
Proof.
  cbv zeta. unfold sync_push, bind, result_of, log_of.
  destruct (list_local env local_dir w) as [[[files|e0] w1] l1];
    cbn [fst snd]; [|intros H; injection H as ->; left; reflexivity].
  set (body := push_step env local_dir remote_dir include exclude).
  intros H. right.
  assert (H' : result_of (for_each (dict_keys files) body w1) = Err e).
  { unfold result_of.
    destruct (for_each (dict_keys files) body w1) as [[r w2] l2]. exact H. }
  destruct (for_each_err body _ w1 e H') as (rel & w' & pre & _ & Hr & Hl).
  unfold log_of in Hl.
  destruct (for_each (dict_keys files) body w1) as [[r w2] l2].
  cbn [fst snd] in *. subst l2. clear H H'.
  revert Hr. unfold body, push_step, bind, lift, result_of, log_of.
  rewrite push_should_include_cases.
  destruct (first_mismatch _ include || first_mismatch _ exclude);
    cbn [fst snd]; [intros H; injection H as <-; left; reflexivity|].
  pose proof (push_ensure_dirs_err (Path.join remote_dir rel) w' e) as Hd.
  unfold result_of, log_of in Hd.
  destruct (push_ensure_dirs env (Path.join remote_dir rel) w')
    as [[[[]|e1] w3] l3]; cbn [fst snd] in *.
  - pose proof (atomic_upload_returns env (Path.join local_dir rel)
                  (Path.join remote_dir rel) w3) as Hu.
    unfold result_of in Hu.
    destruct (atomic_upload env _ _ w3) as [[ru w4] l4]. cbn [fst snd] in *.
    intros H. rewrite Hu in H. discriminate H.
  - intros H. injection H as ->. right.
    destruct (Hd eq_refl) as (He & ev & Hin & Hc & Hx).
    split; [exact He|]. exists ev. split; [|split; assumption].
    apply in_or_app. right. apply in_or_app. right. exact Hin.
Qed.

End PushFailures.

(** The first [chdir] of a push is refused with an exception that is not an
    [IOError]. *)
Lemma sync_push_failure_modes_witness :
  let w := Demo.with_faults [Sim.Fail (OtherError "Channel closed")] in
  exists ev,
    In ev (log_of (sync_push Sim.env "/l" "/r" [] [] w))
    /\ is_dir_call (ev_call ev) = true
    /\ ev_exn ev = Some (OtherError "Channel closed").
Proof.
  cbv zeta.
  destruct (sync_push_failure_modes Sim.env "/l" "/r" [] []
              (Demo.with_faults [Sim.Fail (OtherError "Channel closed")])
              (OtherError "Channel closed"))
    as [H|[H|[_ H]]].
  - vm_compute. reflexivity.
  - vm_compute in H. discriminate H.
  - discriminate H.
  - exact H.
Defined.

(** ** Files on one side only *)

Section OneSide.
Context {W : Type} (env : Env W).
Import Str Path.

(** X15.  In a bidirectional run, a path that passes the filter and is in the local
    mapping only is uploaded, and the step makes no call that writes on the
    local side; a path that is in the remote mapping only is downloaded after
    its local directory is created, and the step makes no call that writes on
    the remote side. *)
Theorem bidirectional_one_side (ld rd : string) (inc exc : list string)
    (lf rf : dict meta) (rel : string) (w : W) :
  passes_filter (basename rel) inc exc = true ->
  let step := bidir_step env ld rd inc exc lf rf rel in
  (dict_get lf rel <> None -> dict_get rf rel = None ->
   step w = atomic_upload env (join ld rel) (join rd rel) w
   /\ forallb (fun ev => negb (writes_local (ev_call ev))) (log_of (step w))
      = true)
  /\ (dict_get lf rel = None -> dict_get rf rel <> None ->
      step w
      = bind (makedirs env (dirname (join ld rel)))
          (fun _ => atomic_download env (join rd rel) (join ld rel)) w
      /\ forallb (fun ev => negb (writes_remote (ev_call ev)))
           (log_of (step w)) = true).
Proof.
  intros Hf. cbv zeta. unfold bidir_step. rewrite Hf. cbn [negb].
  split.
  - intros Hl Hr. rewrite Hr.
    destruct (dict_get lf rel) as [l|]; [|contradiction].
    split; [reflexivity|].
    refine (calls_only_weaken upload_call (fun c => negb (writes_local c)) _
              _ (atomic_upload_calls env _ _) w).
    intros [] H; try discriminate H; reflexivity.
  - intros Hl Hr. rewrite Hl.
    destruct (dict_get rf rel) as [r|]; [|contradiction].
    split; [reflexivity|].
    refine (calls_only_weaken local_call (fun c => negb (writes_remote c)) _
              _ _ w).
    + intros [] H; try discriminate H; reflexivity.
    + apply calls_only_bind;
        [unfold makedirs; apply calls_only_prim; reflexivity|].
      intros _. apply atomic_download_local_calls.
Qed.

End OneSide.

(** The sample trees: [b/c.txt] is local only, [n/z.txt] is remote only. *)
Lemma bidirectional_one_side_witness :
  let lf := [("a.txt", Meta 33188 2 100); ("b/c.txt", Meta 33188 2 200)] in
  let rf := [("n/z.txt", Meta 33188 2 200); ("a.txt", Meta 33188 6 103)] in
  printed (log_of (bidir_step Sim.env "/l" "/r" [] [] lf rf "b/c.txt" Demo.w0))
  = ["Uploaded /l/b/c.txt to /r/b/c.txt"]
  /\ forallb (fun ev => negb (writes_remote (ev_call ev)))
       (log_of (bidir_step Sim.env "/l" "/r" [] [] lf rf "n/z.txt" Demo.w0))
     = true.
Proof.
  cbv zeta. split.
  - destruct (proj1 (bidirectional_one_side Sim.env "/l" "/r" [] []
                       [("a.txt", Meta 33188 2 100);
                        ("b/c.txt", Meta 33188 2 200)]
                       [("n/z.txt", Meta 33188 2 200);
                        ("a.txt", Meta 33188 6 103)]
                       "b/c.txt" Demo.w0 eq_refl)
                ltac:(discriminate) eq_refl) as [-> _].
    vm_compute. reflexivity.
  - apply (proj2 (bidirectional_one_side Sim.env "/l" "/r" [] []
                    [("a.txt", Meta 33188 2 100);
                     ("b/c.txt", Meta 33188 2 200)]
                    [("n/z.txt", Meta 33188 2 200);
                     ("a.txt", Meta 33188 6 103)]
                    "n/z.txt" Demo.w0 eq_refl)
             eq_refl ltac:(discriminate)).
Defined.


(** ** Where a pull puts a file *)

Section TrailingSlashes.
Import Str Path.

Lemma all_slashes_append (a b : string) :
  all_slashes (a +:+ b) = all_slashes a && all_slashes b.
Proof.
  induction a as [|c a IH]; [reflexivity|].
  rewrite append_cons. cbn [all_slashes]. rewrite IH, andb_assoc.
  reflexivity.
Qed.

Lemma rstrip_slash_empty (s : string) :
  is_empty (rstrip_slash s) = all_slashes s.
Proof.
  induction s as [|c s IH]; [reflexivity|].
  cbn [rstrip_slash all_slashes]. rewrite <- IH.
  destruct (is_slash c); cbn [andb]; [|reflexivity].
  destruct (is_empty (rstrip_slash s)) eqn:E; [reflexivity|].
  reflexivity.
Qed.

Lemma rstrip_slash_snoc (y : string) :
  rstrip_slash (y +:+ "/") = rstrip_slash y.
Proof.
  induction y as [|c y IH]; [reflexivity|].
  rewrite append_cons. cbn [rstrip_slash]. rewrite IH. reflexivity.
Qed.

Lemma rstrip_slash_plain (s : string) :
  ends_with_slash s = false -> rstrip_slash s = s.
Proof.
  induction s as [|c s IH]; [reflexivity|].
  cbn [ends_with_slash rstrip_slash].
  destruct s as [|k s].
  - intros Hc. cbn. rewrite Hc. reflexivity.
  - intros H. rewrite (IH H).
    cbn [is_empty]. rewrite andb_false_r. reflexivity.
Qed.

(** A path with a character other than the separator keeps its leading
    separators when one is appended. *)
Lemma initial_slashes_snoc (z : string) :
  all_slashes z = false ->
  initial_slashes (z +:+ "/") = initial_slashes z.
Proof.
  intros Hz. unfold initial_slashes.
  destruct z as [|c1 [|c2 [|c3 z]]].
  - discriminate Hz.
  - cbn in Hz. rewrite andb_true_r in Hz. unfold is_slash, slash in Hz.
    rewrite !append_cons, append_nil_l. cbn [startswith].
    rewrite (Ascii.eqb_sym "/" c1), Hz. reflexivity.
  - rewrite !append_cons, append_nil_l. cbn [startswith].
    cbn in Hz. rewrite andb_true_r in Hz. unfold is_slash, slash in Hz.
    rewrite (Ascii.eqb_sym "/" c1), (Ascii.eqb_sym "/" c2).
    destruct (Ascii.eqb c1 "/"), (Ascii.eqb c2 "/");
      try reflexivity; discriminate Hz.
  - rewrite !startswith_append by (cbn; lia). reflexivity.
Qed.

Lemma norm_comps_snoc (z : string) :
  all_slashes z = false -> norm_comps (z +:+ "/") = norm_comps z.
Proof.
  intros Hz. unfold norm_comps. rewrite (initial_slashes_snoc z Hz).
  change (z +:+ "/") with (z +:+ "/" +:+ "").
  rewrite split_slash_sep, fold_left_app. reflexivity.
Qed.

Lemma abs_of_snoc (cwd y : string) :
  is_empty y = false -> abs_of cwd (y +:+ "/") = abs_of cwd y +:+ "/".
Proof.
  intros Hy. unfold abs_of, isabs, join.
  destruct y as [|c y]; [discriminate Hy|].
  rewrite (startswith_append (String c y) "/" "/") by (cbn; lia).
  destruct (startswith (String c y) "/"); [reflexivity|].
  destruct (is_empty cwd || ends_with_slash cwd);
    rewrite ?append_assoc; reflexivity.
Qed.

Lemma all_slashes_abs_of (cwd y : string) :
  all_slashes y = false -> all_slashes (abs_of cwd y) = false.
Proof.
  intros Hy. unfold abs_of, join.
  destruct (isabs y); [exact Hy|].
  destruct (startswith y "/"); [exact Hy|].
  destruct (is_empty cwd || ends_with_slash cwd);
    rewrite !all_slashes_append, Hy, ?andb_false_r; reflexivity.
Qed.

(** Trailing separators of the root do not change what it normalises to. *)
Lemma norm_comps_rstrip (cwd : string) :
  forall (n : nat) (top : string),
    String.length top <= n ->
    all_slashes top = false ->
    norm_comps (abs_of cwd (rstrip_slash top)) = norm_comps (abs_of cwd top).
Proof.
  induction n as [|n IH]; intros top Hlen Htop.
  - destruct top; [discriminate Htop | cbn in Hlen; lia].
  - destruct (ends_with_slash top) eqn:E.
    + destruct (ends_with_slash_last top E) as [y ->].
      rewrite all_slashes_append in Htop. cbn in Htop.
      rewrite andb_true_r in Htop.
      assert (Hy : is_empty y = false) by (destruct y; [discriminate|reflexivity]).
      rewrite rstrip_slash_snoc, abs_of_snoc by exact Hy.
      rewrite norm_comps_snoc by (apply all_slashes_abs_of; exact Htop).
      apply IH; [|exact Htop].
      rewrite length_append in Hlen. cbn in Hlen. lia.
    + rewrite rstrip_slash_plain by exact E. reflexivity.
Qed.

(** [os.path.relpath] of a walked path against the root stripped of its
    trailing separators. *)
Lemma relpath_walk_root_stripped (cwd top : string) (ds : list string) :
  isabs cwd = true -> all_slashes top = false ->
  forallb name_ok ds = true ->
  relpath cwd (walk_root top ds) (rstrip_slash top)
  = match ds with [] => "." | d :: ds' => fold_left join ds' d end.
Proof.
  intros Hc Ht Hds.
  assert (Hne : is_empty top = false) by (destruct top; [discriminate|reflexivity]).
  assert (Hse : is_empty (rstrip_slash top) = false)
    by (rewrite rstrip_slash_empty; exact Ht).
  unfold relpath, abspath.
  change (if isabs (walk_root top ds) then walk_root top ds
          else join cwd (walk_root top ds))
    with (abs_of cwd (walk_root top ds)).
  change (if isabs (rstrip_slash top) then rstrip_slash top
          else join cwd (rstrip_slash top))
    with (abs_of cwd (rstrip_slash top)).
  destruct (norm_comps_walk_root cwd top ds Hne Hds) as [He Hn].
  rewrite !nonempty_comps_normpath by (apply isabs_abs_of; assumption).
  rewrite (norm_comps_rstrip cwd _ top (Nat.le_refl _) Ht).
  rewrite Hn, common_len_prefix, Nat.sub_diag. cbn [repeat app].
  rewrite skipn_app, skipn_all, Nat.sub_diag. cbn [skipn app].
  reflexivity.
Qed.

End TrailingSlashes.

Section PullPlacement.
Context {W : Type} (env : Env W).
Import Str Path.

(** X16.  The remote file reached from the root [rd] through the directories [ds]
    is downloaded to the same relative place below the local directory: the
    step creates the local directory and then downloads the file.  The root
    may end with separators, but it is not made of separators only. *)
Theorem sync_pull_mirrors_path (rd ld : string) (inc exc : list string)
    (ds : list string) (f : string) (w : W) :
  isabs (os_getcwd env w) = true ->
  all_slashes rd = false ->
  forallb name_ok (ds ++ [f]) = true ->
  passes_filter f inc exc = true ->
  let remote_path := walk_root rd (ds ++ [f]) in
  let lfile := join ld (join_slash (ds ++ [f])) in
  pull_step env (rstrip_slash rd) ld inc exc remote_path w
  = bind (makedirs env (dirname lfile))
      (fun _ => atomic_download env remote_path lfile) w.
Proof.
  intros Hcwd Hrd Hall Hf. cbv zeta.
  assert (Hne : is_empty rd = false) by (destruct rd; [discriminate|reflexivity]).
  pose proof Hall as Hnames. rewrite forallb_app in Hnames.
  apply andb_true_iff in Hnames as [Hds Hname].
  cbn in Hname. rewrite andb_true_r in Hname.
  destruct (name_ok_parts f Hname) as (Hfne & Hfree & _).
  destruct (norm_comps_walk_root (os_getcwd env w) rd (ds ++ [f]) Hne Hall)
    as [Hkey _].
  assert (Hbase : basename (walk_root rd (ds ++ [f])) = f).
  { unfold walk_root. rewrite fold_left_app. cbn [fold_left].
    apply (join_file_name _ f Hfree Hfne). }
  unfold pull_step. rewrite Hbase, Hf.
  unfold os_path_relpath. unfold bind at 1. rewrite bind_ask, Hkey.
  unfold ret at 1. cbv beta iota. cbn [app].
  rewrite (relpath_walk_root_stripped _ rd (ds ++ [f]) Hcwd Hrd Hall).
  destruct (ds ++ [f]) as [|d ds'] eqn:E;
    [destruct ds; discriminate E|].
  rewrite (fold_join_names d ds' Hall).
  unfold bind.
  destruct (makedirs env _ w) as [[[[]|e] w1] l1]; [|reflexivity].
  destruct (atomic_download env _ _ w1) as [[r w2] l2].
  reflexivity.
Qed.

End PullPlacement.

Lemma sync_pull_mirrors_path_witness :
  pull_step Sim.env "/r" "/l" [] [] "/r/n/z.txt" Demo.w0
  = bind (makedirs Sim.env "/l/n")
      (fun _ => atomic_download Sim.env "/r/n/z.txt" "/l/n/z.txt") Demo.w0.
Proof.
  apply (sync_pull_mirrors_path Sim.env "/r/" "/l" [] [] ["n"] "z.txt" Demo.w0);
    reflexivity.
Defined.

(** ** A pull from the remote root *)

Section PullFromRoot.
Context {W : Type} (env : Env W).
Import Str Path.

Lemma fold_join_comps (d : string) (ds : list string) :
  Forall comp_ok (d :: ds) ->
  fold_left join ds d = join_slash (d :: ds).
Proof.
  induction ds as [|n ds IH] using rev_ind; [reflexivity|].
  intros H. change (d :: ds ++ [n]) with ((d :: ds) ++ [n]) in H.
  apply Forall_app in H as [Hds Hn].
  inversion Hn as [|? ? [Hfree Hne] _]; subst.
  rewrite fold_left_app. cbn [fold_left]. rewrite (IH Hds).
  destruct (join_slash_shape (d :: ds) Hds ltac:(discriminate))
    as (He & Hes & _).
  destruct (join_file_name (join_slash (d :: ds)) n Hfree Hne)
    as (_ & _ & ->).
  rewrite He, Hes. cbn [orb].
  change (d :: ds ++ [n]) with ((d :: ds) ++ [n]).
  rewrite join_slash_snoc by discriminate. reflexivity.
Qed.

Lemma walk_root_isabs (top : string) (ds : list string) :
  is_empty top = false -> forallb name_ok ds = true ->
  isabs (walk_root top ds) = isabs top.
Proof.
  unfold walk_root. revert top.
  induction ds as [|d ds IH]; intros top Ht Hds; [reflexivity|].
  cbn in Hds. apply andb_true_iff in Hds as [Hd Hds]. cbn [fold_left].
  rewrite IH by (auto using is_empty_join). apply isabs_join; assumption.
Qed.

(** The components of a path made of names below the root. *)
Lemma norm_comps_rooted (l : list string) :
  forallb name_ok l = true ->
  isabs (walk_root "/" l) = true
  /\ all_slashes (walk_root "/" l) = false \/ l = [].
Proof.
  intros Hl. destruct l as [|d l]; [right; reflexivity|]. left.
  split; [rewrite walk_root_isabs by (auto; reflexivity); reflexivity|].
  apply not_true_is_false. intros Hall.
  assert (Hk : forall s, all_slashes s = true ->
               List.filter (fun x => negb (is_empty x)) (split_slash s) = []).
  { induction s as [|k s IHs]; [reflexivity|].
    cbn [all_slashes split_slash]. intros H.
    apply andb_true_iff in H as [Hk Hs]. rewrite Hk.
    cbn [List.filter is_empty negb]. exact (IHs Hs). }
  destruct (norm_comps_walk_root "/" "/" (d :: l) eq_refl Hl) as [_ Hn].
  assert (Habs : abs_of "/" (walk_root "/" (d :: l)) = walk_root "/" (d :: l)).
  { unfold abs_of.
    rewrite walk_root_isabs by (auto; reflexivity). reflexivity. }
  rewrite Habs in Hn.
  assert (Hnil : norm_comps (walk_root "/" (d :: l)) = []).
  { unfold norm_comps.
    assert (Hf : forall s k st, all_slashes s = true ->
                 fold_left (norm_step k) (split_slash s) st = st).
    { induction s as [|c s IHs]; intros k st H; [reflexivity|].
      cbn [all_slashes] in H. apply andb_true_iff in H as [Hc Hs].
      cbn [split_slash]. rewrite Hc. cbn [fold_left].
      change (norm_step k st "") with st. exact (IHs k st Hs). }
    rewrite Hf by exact Hall. reflexivity. }
  rewrite Hnil in Hn. discriminate Hn.
Qed.

(** X17.  With the remote root [/], stripped to the empty string, the local place
    of a remote file is computed against the working directory of the
    process: when the first directory of the file is not the first directory
    of the working directory, the relative path climbs out of it, one [..]
    for each of its components, and the file is downloaded to the local
    directory joined with that path. *)
Theorem sync_pull_from_root (ld : string) (inc exc : list string)
    (c : string) (cs ds : list string) (f : string) (w : W) :
  os_getcwd env w = walk_root "/" (c :: cs) ->
  forallb name_ok (c :: cs) = true ->
  forallb name_ok (ds ++ [f]) = true ->
  hd f ds <> c ->
  passes_filter f inc exc = true ->
  let remote_path := walk_root "/" (ds ++ [f]) in
  let rel_path := join_slash (repeat ".." (S (length cs)) ++ ds ++ [f]) in
  pull_step env (rstrip_slash "/") ld inc exc remote_path w
  = bind (makedirs env (dirname (join ld rel_path)))
      (fun _ => atomic_download env remote_path (join ld rel_path)) w.
Proof.
  intros Hcwd Hcs Hall Hhd Hf. cbv zeta.
  change (rstrip_slash "/") with "".
  pose proof Hall as Hnames. rewrite forallb_app in Hnames.
  apply andb_true_iff in Hnames as [Hds Hname].
  cbn in Hname. rewrite andb_true_r in Hname.
  destruct (name_ok_parts f Hname) as (Hfne & Hfree & _).
  destruct (norm_comps_walk_root (os_getcwd env w) "/" (ds ++ [f]) eq_refl Hall)
    as [Hkey Hpath].
  assert (Hbase : basename (walk_root "/" (ds ++ [f])) = f).
  { unfold walk_root. rewrite fold_left_app. cbn [fold_left].
    apply (join_file_name _ f Hfree Hfne). }
  unfold pull_step. rewrite Hbase, Hf.
  unfold os_path_relpath. unfold bind at 1. rewrite bind_ask, Hkey.
  unfold ret at 1. cbv beta iota. cbn [app].
  assert (Hrel : relpath (os_getcwd env w) (walk_root "/" (ds ++ [f])) ""
                 = join_slash (repeat ".." (S (length cs)) ++ ds ++ [f])).
  { unfold relpath, abspath.
    change (if isabs (walk_root "/" (ds ++ [f])) then walk_root "/" (ds ++ [f])
            else join (os_getcwd env w) (walk_root "/" (ds ++ [f])))
      with (abs_of (os_getcwd env w) (walk_root "/" (ds ++ [f]))).
    change (if isabs "" then "" else join (os_getcwd env w) "")
      with (join (os_getcwd env w) "").
    destruct (norm_comps_rooted (c :: cs) Hcs) as [[Habs Hns]|Hnil];
      [|discriminate Hnil].
    destruct (norm_comps_walk_root "/" "/" (c :: cs) eq_refl Hcs) as [Hne Hn].
    assert (Hself : abs_of "/" (walk_root "/" (c :: cs))
                    = walk_root "/" (c :: cs)).
    { unfold abs_of. rewrite Habs. reflexivity. }
    rewrite Hself in Hn. change (norm_comps (abs_of "/" "/")) with (@nil string) in Hn.
    cbn [app] in Hn.
    assert (Hstart : norm_comps (join (os_getcwd env w) "") = c :: cs).
    { rewrite Hcwd. unfold join. change (startswith "" "/") with false.
      cbv iota. rewrite Hne. cbn [orb].
      destruct (ends_with_slash (walk_root "/" (c :: cs))).
      - rewrite append_nil_r. exact Hn.
      - change (walk_root "/" (c :: cs) +:+ "/" +:+ "")
          with (walk_root "/" (c :: cs) +:+ "/").
        rewrite norm_comps_snoc by exact Hns. exact Hn. }
    assert (Hjabs : isabs (join (os_getcwd env w) "") = true).
    { rewrite Hcwd. unfold join. change (startswith "" "/") with false.
      cbv iota. unfold isabs in *.
      destruct (_ || _); rewrite startswith_append; try exact Habs;
        destruct (walk_root "/" (c :: cs)); try discriminate Hne; cbn; lia. }
    rewrite (nonempty_comps_normpath _ Hjabs), Hstart.
    rewrite nonempty_comps_normpath
      by (apply isabs_abs_of; [rewrite Hcwd; exact Habs | exact Hkey]).
    rewrite Hpath.
    change (norm_comps (abs_of (os_getcwd env w) "/")) with (@nil string).
    cbn [app].
    assert (Hcl : common_len (c :: cs) (ds ++ [f]) = 0).
    { destruct ds as [|d ds]; cbn [app common_len hd] in *.
      - destruct (String.eqb_spec c f) as [->|]; [contradiction|reflexivity].
      - destruct (String.eqb_spec c d) as [->|]; [contradiction|reflexivity]. }
    rewrite Hcl. cbn [length Nat.sub skipn repeat app].
    apply fold_join_comps.
    constructor; [split; reflexivity|].
    apply Forall_app. split.
    - clear. induction (length cs); constructor; [split; reflexivity|assumption].
    - apply names_comp_ok. exact Hall. }
  rewrite Hrel. unfold bind.
  destruct (makedirs env _ w) as [[[[]|e] w1] l1]; [|reflexivity].
  destruct (atomic_download env _ _ w1) as [[r w2] l2].
  reflexivity.
Qed.

End PullFromRoot.

(** The process works in [/home/u]; the remote file [/r/a.txt] of the root
    [/] is placed two levels above the local directory. *)
Lemma sync_pull_from_root_witness :
  pull_step Sim.env "" "/l" [] [] "/r/a.txt" Demo.w0
  = bind (makedirs Sim.env "/l/../../r")
      (fun _ => atomic_download Sim.env "/r/a.txt" "/l/../../r/a.txt") Demo.w0.
Proof.
  apply (sync_pull_from_root Sim.env "/l" [] [] "home" ["u"] ["r"] "a.txt"
           Demo.w0); try reflexivity.
  cbn. discriminate.
Defined.

(** ** What can end a pull *)

Section PullFailures.
Context {W : Type} (env : Env W).

(** A download raises only its own [RuntimeError]. *)
Lemma atomic_download_err (rp lp : string) (w : W) (e : exn) :
  result_of (atomic_download env rp lp w) = Err e ->
  exists msg,
    e = RuntimeError msg /\ Str.startswith msg "Failed to download " = true.
Proof.
  intros H. pose proof (atomic_download_outcome env rp lp w) as Ho.
  cbv zeta in Ho. rewrite H in Ho.
  destruct (first_exn (log_of (atomic_download env rp lp w))) as [e0|];
    [|discriminate Ho].
  destruct e0; try (destruct Ho as [Ho _]; discriminate Ho);
    destruct Ho as [Ho _]; injection Ho as ->;
    eexists; (split; [reflexivity|]);
    rewrite startswith_append by (cbn; lia); reflexivity.
Qed.

(** X18.  A pull ends with an exception in four cases only: the remote scan raised
    it; it is the [ValueError] of [os.path.relpath] for an empty remote path;
    an [os.makedirs] of the pull raised it; or it is the [RuntimeError] that
    [atomic_download] raises for a failed download.  No handler of
    [sync_pull] stands between a local directory that cannot be created and
    the end of the run. *)
Theorem sync_pull_failure_modes (depth : nat) (remote_dir local_dir : string)
    (include exclude : list string) (w : W) (e : exn) :
  let run := sync_pull env depth remote_dir local_dir include exclude w in
  result_of run = Err e ->
  result_of (list_remote env depth remote_dir w) = Err e
  \/ e = ValueError "no path specified"
  \/ (exists ev d,
        In ev (log_of run)
        /\ ev_call ev = OsMakedirs d /\ ev_exn ev = Some e)
  \/ (exists msg,
        e = RuntimeError msg
        /\ Str.startswith msg "Failed to download " = true).
Proof.
  cbv zeta. unfold sync_pull, bind, result_of, log_of.
  destruct (list_remote env depth remote_dir w) as [[[files|e0] w1] l1];
    cbn [fst snd]; [|intros H; injection H as ->; left; reflexivity].
  set (body := pull_step env (Str.rstrip_slash remote_dir) local_dir include
                 exclude).
  intros H. right.
  assert (H' : result_of (for_each (dict_keys files) body w1) = Err e).
  { unfold result_of.
    destruct (for_each (dict_keys files) body w1) as [[r w2] l2]. exact H. }
  destruct (for_each_err body _ w1 e H') as (rp & w' & pre & _ & Hr & Hl).
  unfold log_of in Hl.
  destruct (for_each (dict_keys files) body w1) as [[r w2] l2].
  cbn [fst snd] in *. subst l2. clear H H'.
  assert (Hbody :
            body rp w'
            = if passes_filter (Path.basename rp) include exclude then
                if Str.is_empty rp
                then (Err (ValueError "no path specified"), w', [])
                else
                  let lfile :=
                    Path.join local_dir
                      (Path.relpath (os_getcwd env w') rp
                         (Str.rstrip_slash remote_dir)) in
                  match os_makedirs env (Path.dirname lfile) w' with
                  | (Ok _, w3) =>
                      let '(r, w4, l4) := atomic_download env rp lfile w3 in
                      (r, w4, Ev (OsMakedirs (Path.dirname lfile)) None :: l4)
                  | (Err e1, w3) =>
                      (Err e1, w3,
                       [Ev (OsMakedirs (Path.dirname lfile)) (Some e1)])
                  end
              else (Ok tt, w', [])).
  { unfold body, pull_step.
    destruct (passes_filter _ _ _); [|reflexivity].
    unfold os_path_relpath. unfold bind at 1. rewrite bind_ask.
    destruct (Str.is_empty rp); [reflexivity|].
    unfold ret at 1. cbv beta iota zeta. cbn [app].
    unfold bind, makedirs, prim.
    destruct (os_makedirs env _ w') as [[[]|e1] w3]; cbn [exn_of];
      [|reflexivity].
    destruct (atomic_download env rp _ w3) as [[r' w4] l4]. reflexivity. }
  rewrite Hbody in *. clear Hbody.
  destruct (passes_filter _ _ _); [|discriminate Hr].
  destruct (Str.is_empty rp).
  { injection Hr as <-. left. reflexivity. }
  cbv zeta in *.
  set (lfile := Path.join local_dir _) in *.
  destruct (os_makedirs env (Path.dirname lfile) w') as [[[]|e1] w3].
  - pose proof (atomic_download_err rp lfile w3 e) as Hd.
    unfold result_of in *.
    destruct (atomic_download env rp lfile w3) as [[r' w4] l4].
    cbn [fst snd] in *. right. right. exact (Hd Hr).
  - injection Hr as ->. right. left.
    exists (Ev (OsMakedirs (Path.dirname lfile)) (Some e)), (Path.dirname lfile).
    split; [|split; reflexivity].
    apply in_or_app. right. apply in_or_app. right. left. reflexivity.
Qed.

End PullFailures.

(** The local name [/l/n] is taken by a file: the directory for [n/z.txt]
    cannot be created and the pull ends there. *)
Lemma sync_pull_failure_modes_witness :
  let w :=
    Sim.World
      (Sim.Side (<["/l/n" := Sim.File [] 0]> (Sim.files Demo.local_side))
         (Sim.dirs Demo.local_side) ∅)
      Demo.remote_side "/home/u" 1000 false [] [] in
  result_of (sync_pull Sim.env 10 "/r" "/l" [] [] w)
  = Err (IOError "[Errno 17] File exists").
Proof.
  cbv zeta.
  destruct (sync_pull_failure_modes Sim.env 10 "/r" "/l" [] []
              (Sim.World
                 (Sim.Side
                    (<["/l/n" := Sim.File [] 0]> (Sim.files Demo.local_side))
                    (Sim.dirs Demo.local_side) ∅)
                 Demo.remote_side "/home/u" 1000 false [] [])
              (IOError "[Errno 17] File exists"))
    as [H|[H|[H|H]]].
  - vm_compute. reflexivity.
  - vm_compute in H. discriminate H.
  - discriminate H.
  - vm_compute. reflexivity.
  - destruct H as (msg & H & _). discriminate H.
Defined.

(** ** The keys the two scans meet on *)

Section Keys.
Context {W : Type} (env : Env W).
Import Str Path.

Lemma last_snoc {X} (l : list X) (x d : X) : List.last (l ++ [x]) d = x.
Proof.
  induction l as [|y l IH]; [reflexivity|].
  cbn [app]. destruct (l ++ [x]) eqn:E; [destruct l; discriminate E|].
  cbn [List.last]. exact IH.
Qed.

Lemma chain_entries (s : meta) (f : string) (m : meta) (ds pre : list string) :
  file_entries pre (chain s ds f m) ++ sub_entries pre (chain s ds f m)
  = [(rel_key (pre ++ ds ++ [f]), m)].
Proof.
  revert pre. induction ds as [|d ds IH]; intros pre; cbn [chain].
  - reflexivity.
  - cbn [file_entries sub_entries app]. rewrite app_nil_r, IH, <- app_assoc.
    reflexivity.
Qed.

Lemma chain_names_ok (s : meta) (f : string) (m : meta) (ds : list string) :
  forallb name_ok (ds ++ [f]) = true -> names_ok (chain s ds f m) = true.
Proof.
  induction ds as [|d ds IH]; cbn [chain names_ok app forallb]; intros H.
  - rewrite andb_true_r in H. rewrite H. reflexivity.
  - apply andb_true_iff in H as [Hd H]. rewrite Hd, (IH H). reflexivity.
Qed.

(** X19.  For a file at the same relative place [ds.../f] below the local and
    the remote root: [list_local], on the tree that holds this file alone,
    returns it under the relative path, unless that path begins with [..],
    when it returns it under the file name alone; the re-keying of
    [sync_bidirectional] gives the remote file the relative path in both
    cases.  A file below a directory whose name begins with [..] is thus seen
    as two different paths. *)
Theorem bidirectional_keys (local_dir remote_dir : string) (s : meta)
    (ds : list string) (f : string) (ml mr : meta) (w : W) :
  isabs (os_getcwd env w) = true ->
  is_empty local_dir = false ->
  all_slashes remote_dir = false ->
  forallb name_ok (ds ++ [f]) = true ->
  os_walk env local_dir w = tree_walk local_dir (chain s ds f ml) ->
  stats_below env w local_dir (chain s ds f ml) ->
  let relfile := join_slash (ds ++ [f]) in
  (exists log,
      list_local env local_dir w
      = (Ok [(if startswith relfile ".." then f else relfile, ml)], w, log))
  /\ rekey_remote env (rstrip_slash remote_dir)
       [(walk_root remote_dir (ds ++ [f]), mr)] w
     = (Ok [(relfile, mr)], w, []).
Proof.
  intros Hcwd Hld Hrd Hall Hwalk Hst. cbv zeta. split.
  - destruct (list_local_tree env w local_dir Hcwd Hld _ Hwalk
                (chain_names_ok s f ml ds Hall) Hst) as [log Hlog].
    exists log. rewrite Hlog. unfold local_entries.
    rewrite chain_entries. cbn [app dict_of_list fold_left fst snd dict_set].
    unfold rel_key. cbv zeta. rewrite last_snoc. reflexivity.
  - assert (Hne : is_empty remote_dir = false)
      by (destruct remote_dir; [discriminate|reflexivity]).
    destruct (norm_comps_walk_root (os_getcwd env w) remote_dir (ds ++ [f])
                Hne Hall) as [Hkey _].
    unfold rekey_remote. cbn [fold_m]. unfold os_path_relpath.
    unfold bind at 1. unfold bind at 1. rewrite bind_ask, Hkey.
    unfold ret at 1. cbv beta iota. cbn [app].
    rewrite (relpath_walk_root_stripped _ remote_dir (ds ++ [f]) Hcwd Hrd Hall).
    destruct (ds ++ [f]) as [|d ds'] eqn:E;
      [destruct ds; discriminate E|].
    rewrite (fold_join_names d ds' Hall). reflexivity.
Qed.

End Keys.

(** The file [..old/z.txt]: local key [z.txt], remote key [..old/z.txt]. *)
Lemma bidirectional_keys_witness :
  (exists log,
      list_local Sim.env "/l" DemoChain.w
      = (Ok [("z.txt", Meta 33188 2 200)], DemoChain.w, log))
  /\ rekey_remote Sim.env "/r" [("/r/..old/z.txt", Meta 33188 2 200)]
       DemoChain.w
     = (Ok [("..old/z.txt", Meta 33188 2 200)], DemoChain.w, []).
Proof.
  apply (bidirectional_keys Sim.env "/l" "/r/" Sim.dir_meta ["..old"] "z.txt"
           (Meta 33188 2 200) (Meta 33188 2 200) DemoChain.w);
    try reflexivity.
  vm_compute. repeat split.
Defined.

(** ** The remote directories of an upload *)

Section RootedPaths.
Import Str Path.

Lemma walk_root_slash (names : list string) :
  forallb name_ok names = true ->
  walk_root "/" names = "/" +:+ join_slash names.
Proof.
  induction names as [|n names IH] using rev_ind; [reflexivity|].
  intros H. pose proof H as Hall. rewrite forallb_app in H.
  apply andb_true_iff in H as [Hns Hn]. cbn in Hn. rewrite andb_true_r in Hn.
  unfold walk_root in *. rewrite fold_left_app. cbn [fold_left].
  rewrite (IH Hns).
  assert (Hne : is_empty ("/" +:+ join_slash names) = false) by reflexivity.
  rewrite (join_name _ n Hne Hn).
  destruct names as [|m names].
  - reflexivity.
  - destruct (join_slash_shape (m :: names) (names_comp_ok _ Hns)
                ltac:(discriminate)) as (He & Hes & _).
    rewrite ends_with_slash_app by exact He. rewrite Hes.
    change ((m :: names) ++ [n]) with ((m :: names) ++ [n]).
    rewrite join_slash_snoc by discriminate.
    rewrite !append_assoc. reflexivity.
Qed.

Lemma rsplit_slash_trailing (y : string) :
  rsplit_slash (y +:+ "/") = (y +:+ "/", "").
Proof.
  induction y as [|c y IH]; [reflexivity|].
  rewrite append_cons. cbn [rsplit_slash]. rewrite IH.
  destruct (y +:+ "/") eqn:E; [destruct y; discriminate E|].
  reflexivity.
Qed.

(** The parent of a path one name below a rooted directory. *)
Lemma dirname_rooted (pre : list string) (n : string) :
  forallb name_ok (pre ++ [n]) = true ->
  dirname (walk_root "/" (pre ++ [n])) = walk_root "/" pre.
Proof.
  intros Hall. pose proof Hall as H. rewrite forallb_app in H.
  apply andb_true_iff in H as [Hpre Hn]. cbn in Hn. rewrite andb_true_r in Hn.
  destruct (name_ok_parts n Hn) as (Hne & Hfree & _).
  assert (Hw : walk_root "/" (pre ++ [n]) = join (walk_root "/" pre) n).
  { unfold walk_root. rewrite fold_left_app. reflexivity. }
  rewrite Hw. unfold dirname.
  destruct pre as [|m pre].
  - change (walk_root "/" []) with "/".
    change (join "/" n) with (if startswith n "/" then n else "/" +:+ n).
    rewrite (slash_free_startswith n Hfree Hne).
    rewrite rsplit_slash_append by exact Hfree. reflexivity.
  - destruct (norm_comps_rooted (m :: pre) Hpre) as [[Habs Hns]|E];
      [|discriminate E].
    set (X := walk_root "/" (m :: pre)) in *.
    assert (HX : is_empty X = false /\ ends_with_slash X = false).
    { subst X. rewrite walk_root_slash by exact Hpre.
      destruct (join_slash_shape (m :: pre) (names_comp_ok _ Hpre)
                  ltac:(discriminate)) as (He & Hes & _).
      split; [reflexivity|]. rewrite ends_with_slash_app by exact He.
      exact Hes. }
    destruct HX as [HXe HXs].
    rewrite (join_name X n HXe Hn), HXs.
    rewrite <- append_assoc.
    rewrite rsplit_slash_append by exact Hfree.
    rewrite rsplit_slash_trailing. cbn [fst].
    assert (Ha : all_slashes (X +:+ "/") = false)
      by (rewrite all_slashes_append, Hns; reflexivity).
    assert (Hi : is_empty (X +:+ "/") = false)
      by (destruct X; [discriminate HXe | reflexivity]).
    rewrite Ha, Hi. cbn [negb andb].
    rewrite rstrip_slash_snoc. apply rstrip_slash_plain. exact HXs.
Qed.

Lemma filter_names (l : list string) :
  forallb name_ok l = true ->
  List.filter (fun x => negb (is_empty x) && negb (String.eqb x ".")) l = l.
Proof.
  induction l as [|x l IH]; [reflexivity|].
  cbn [forallb]. intros H. apply andb_true_iff in H as [Hx Hl].
  destruct (name_ok_parts x Hx) as (Hne & _ & Hd & _).
  cbn [List.filter]. rewrite Hne, Hd. cbn [negb andb].
  rewrite (IH Hl). reflexivity.
Qed.

(** The parts of a rooted path are the root and its names. *)
Lemma parts_rooted (names : list string) :
  forallb name_ok names = true ->
  parts (walk_root "/" names) = "/" :: names.
Proof.
  intros Hall. rewrite walk_root_slash by exact Hall.
  destruct names as [|m names]; [reflexivity|].
  destruct (join_slash_shape (m :: names) (names_comp_ok _ Hall)
              ltac:(discriminate)) as (He & _ & Hs).
  assert (Hi : initial_slashes ("/" +:+ join_slash (m :: names)) = 1).
  { unfold initial_slashes.
    destruct (join_slash (m :: names)) as [|c X]; [discriminate He|].
    rewrite !append_cons, append_nil_l. cbn [startswith] in *.
    assert (Hx : startswith X "" = true) by (destruct X; reflexivity).
    rewrite Hx, andb_true_r in Hs. rewrite Hs. reflexivity. }
  unfold parts. rewrite Hi.
  change ("/" +:+ join_slash (m :: names))
    with ("" +:+ "/" +:+ join_slash (m :: names)).
  rewrite split_slash_sep.
  rewrite split_join_slash by (auto using names_comp_ok; discriminate).
  cbn [split_slash app].
  change (List.filter _ ("" :: m :: names))
    with (List.filter
            (fun x => negb (is_empty x) && negb (String.eqb x "."))
            (m :: names)).
  rewrite (filter_names _ Hall). reflexivity.
Qed.

End RootedPaths.

Section DirectoryCalls.
Context {W : Type} (env : Env W).
Import Str Path.

(** The loop creates one directory after the other, going down. *)
Lemma mkdir_parts_order (ps : list string) :
  forall (cur : string) (w : W),
    is_empty cur = false ->
    forallb name_ok ps = true ->
    result_of (mkdir_parts env cur ps w) = Ok tt ->
    map ev_call (log_of (mkdir_parts env cur ps w))
    = map SftpMkdir (tl (descend cur ps)).
Proof.
  induction ps as [|p ps IH]; intros cur w Hcur Hps; [reflexivity|].
  cbn in Hps. apply andb_true_iff in Hps as [Hp Hps].
  cbn [mkdir_parts descend tl]. rewrite Hcur. cbn [negb].
  unfold bind, catch_IOError, catch, mkdir, prim, result_of, log_of.
  pose proof (is_empty_join cur p Hcur Hp) as Hnext.
  specialize (IH (join cur p)).
  destruct (sftp_mkdir env (join cur p) w) as [[[]|e] w1]; cbn [exn_of].
  - specialize (IH w1 Hnext Hps). unfold result_of, log_of in IH.
    destruct (mkdir_parts env (join cur p) ps w1) as [[r w2] l2].
    cbn [fst snd] in *. intros Hr. cbn [app map ev_call].
    rewrite (IH Hr). destruct ps; reflexivity.
  - destruct (is_IOError e); cbn [fst snd]; [|discriminate].
    specialize (IH w1 Hnext Hps). unfold result_of, log_of in IH.
    unfold ret.
    destruct (mkdir_parts env (join cur p) ps w1) as [[r w2] l2].
    cbn [fst snd] in *. intros Hr. cbn [app map ev_call].
    rewrite (IH Hr). destruct ps; reflexivity.
Qed.

(** X20.  For an upload to a file below the rooted directory [/n1/.../nk]:
    when [chdir] to that directory succeeds, the directory step is that one
    call; when it fails with an [IOError] and the step returns, the step has
    called [mkdir] on [/], [/n1], ..., [/n1/.../nk], in this order, after the
    [chdir], and nothing else. *)
Theorem ensure_remote_dir_order (names : list string) (f : string) (w : W) :
  forallb name_ok (names ++ [f]) = true ->
  let target := walk_root "/" (names ++ [f]) in
  let d := walk_root "/" names in
  let run := ensure_remote_dir env target w in
  (forall w1, sftp_chdir env d w = (Ok tt, w1) ->
     run = (Ok tt, w1, [Ev (SftpChdir d) None]))
  /\ (forall e w1,
        sftp_chdir env d w = (Err e, w1) -> is_IOError e = true ->
        result_of run = Ok tt ->
        map ev_call (log_of run)
        = SftpChdir d :: map SftpMkdir (descend "/" names)).
Proof.
  intros Hall. cbv zeta.
  pose proof Hall as H. rewrite forallb_app in H.
  apply andb_true_iff in H as [Hnames _].
  unfold ensure_remote_dir. rewrite (dirname_rooted names f Hall).
  assert (Hd : negb (is_empty (walk_root "/" names))
               && negb (String.eqb (walk_root "/" names) ".") = true).
  { rewrite walk_root_slash by exact Hnames. reflexivity. }
  rewrite Hd. unfold catch_IOError, catch, chdir, prim.
  split.
  - intros w1 Hc. rewrite Hc. reflexivity.
  - intros e w1 Hc He. rewrite Hc. cbn [exn_of]. rewrite He.
    rewrite (parts_rooted names Hnames).
    cbn [mkdir_parts is_empty negb].
    unfold bind, catch_IOError, catch, mkdir, prim, result_of, log_of.
    pose proof (mkdir_parts_order names "/") as Hord.
    destruct (sftp_mkdir env "/" w1) as [[[]|e0] w2]; cbn [exn_of].
    + specialize (Hord w2 eq_refl Hnames). unfold result_of, log_of in Hord.
      destruct (mkdir_parts env "/" names w2) as [[r w3] l3].
      cbn [fst snd] in *. intros Hr. cbn [app map ev_call].
      rewrite (Hord Hr). destruct names; reflexivity.
    + destruct (is_IOError e0); cbn [fst snd]; [|discriminate].
      specialize (Hord w2 eq_refl Hnames). unfold result_of, log_of in Hord.
      unfold ret.
      destruct (mkdir_parts env "/" names w2) as [[r w3] l3].
      cbn [fst snd] in *. intros Hr. cbn [app map ev_call].
      rewrite (Hord Hr). destruct names; reflexivity.
Qed.

End DirectoryCalls.

Lemma ensure_remote_dir_order_witness :
  map ev_call (log_of (ensure_remote_dir Sim.env "/r/x/y/new.txt" Demo.w0))
  = [SftpChdir "/r/x/y"; SftpMkdir "/"; SftpMkdir "/r"; SftpMkdir "/r/x";
     SftpMkdir "/r/x/y"].
Proof.
  apply (proj2 (ensure_remote_dir_order Sim.env ["r"; "x"; "y"] "new.txt"
                  Demo.w0 eq_refl) Sim.enoent Demo.w0); reflexivity.
Defined.

(** ** Creating the remote directories on the simulated host *)

Section SimDirectories.
Import Str Path.

Lemma has_dir_mono (s s' : Sim.side) (d : string) :
  Sim.dirs s ⊆ Sim.dirs s' ->
  Sim.has_dir s d = true -> Sim.has_dir s' d = true.
Proof.
  unfold Sim.has_dir. intros Hsub H.
  apply orb_true_iff in H. apply orb_true_iff.
  destruct H as [H|H]; [left|right];
    apply bool_decide_eq_true in H; apply bool_decide_eq_true;
    set_solver.
Qed.

(** One [mkdir] without faults: it fails with an [IOError] or succeeds,
    removes no directory, touches no file, and leaves a directory at the path
    when its parent exists and no file is in the way. *)
Lemma sim_mkdir_step (d : string) (w : Sim.world) :
  Sim.faults w = [] ->
  let r := Sim.mkdir d w in
  Sim.faults (snd r) = []
  /\ Sim.files (Sim.rem (snd r)) = Sim.files (Sim.rem w)
  /\ Sim.loc (snd r) = Sim.loc w
  /\ Sim.dirs (Sim.rem w) ⊆ Sim.dirs (Sim.rem (snd r))
  /\ match fst r with Ok _ => True | Err e => is_IOError e = true end
  /\ (Sim.has_dir (Sim.rem w) (dirname d) = true ->
      Sim.has_file (Sim.rem w) d = false ->
      Sim.has_dir (Sim.rem (snd r)) d = true).
Proof.
  intros Hf. cbv zeta. unfold Sim.mkdir, Sim.next_fault. rewrite Hf.
  destruct (Sim.has_dir (Sim.rem w) d) eqn:Ed; cbn [orb fst snd].
  - repeat split; try assumption; try reflexivity. intros _ _. exact Ed.
  - destruct (Sim.has_file (Sim.rem w) d) eqn:Ef; cbn [orb fst snd].
    + repeat split; try assumption; try reflexivity. intros _ H.
      discriminate H.
    + destruct (Sim.parent_ok (Sim.rem w) d) eqn:Ep; cbn [negb fst snd].
      * repeat split; try assumption; try reflexivity.
        -- cbn. set_solver.
        -- intros _ _. unfold Sim.has_dir. cbn.
           apply orb_true_iff. left. apply bool_decide_eq_true. set_solver.
      * repeat split; try assumption; try reflexivity.
        intros Hp _. unfold Sim.parent_ok in Ep. rewrite Hp in Ep.
        rewrite orb_true_r in Ep. discriminate Ep.
Qed.

(** The loop below a directory that exists, or above one that does. *)
Lemma sim_mkdir_parts (ps : list string) :
  forall (pre : list string) (w : Sim.world) (t : nat),
    Sim.faults w = [] ->
    forallb name_ok (pre ++ ps) = true ->
    (forall i, i <= length ps ->
       Sim.has_file (Sim.rem w) (walk_root "/" (pre ++ take i ps)) = false) ->
    t <= length ps ->
    Sim.has_dir (Sim.rem w) (walk_root "/" (pre ++ take t ps)) = true ->
    let r := mkdir_parts Sim.env (walk_root "/" pre) ps w in
    result_of r = Ok tt
    /\ Sim.faults (world_of r) = []
    /\ Sim.files (Sim.rem (world_of r)) = Sim.files (Sim.rem w)
    /\ Sim.loc (world_of r) = Sim.loc w
    /\ Sim.has_dir (Sim.rem (world_of r)) (walk_root "/" (pre ++ ps)) = true.
Proof.
  induction ps as [|p ps IH]; intros pre w t Hf Hall Hfiles Ht Hdir; cbv zeta.
  - cbn. rewrite take_nil in Hdir. repeat split; try assumption.
  - assert (Hpre : forallb name_ok (pre ++ [p]) = true).
    { rewrite forallb_app in Hall. apply andb_true_iff in Hall as [H1 H2].
      cbn in H2. apply andb_true_iff in H2 as [H2 _].
      rewrite forallb_app, H1. cbn. rewrite H2. reflexivity. }
    assert (Hcur : is_empty (walk_root "/" pre) = false).
    { rewrite forallb_app in Hpre. apply andb_true_iff in Hpre as [H1 _].
      rewrite walk_root_slash by exact H1. reflexivity. }
    assert (Hnext : join (walk_root "/" pre) p = walk_root "/" (pre ++ [p])).
    { unfold walk_root. rewrite fold_left_app. reflexivity. }
    cbn [mkdir_parts]. rewrite Hcur. cbn [negb]. rewrite Hnext.
    unfold bind, catch_IOError, catch, mkdir, prim.
    change (sftp_mkdir Sim.env (walk_root "/" (pre ++ [p])) w)
      with (Sim.mkdir (walk_root "/" (pre ++ [p])) w).
    destruct (sim_mkdir_step (walk_root "/" (pre ++ [p])) w Hf)
      as (Hf1 & Hfi1 & Hl1 & Hd1 & He1 & Hmk).
    rewrite (dirname_rooted pre p Hpre) in Hmk.
    assert (Hall' : forallb name_ok ((pre ++ [p]) ++ ps) = true)
      by (rewrite <- app_assoc; exact Hall).
    assert (Hfiles' : forall w1,
               Sim.files (Sim.rem w1) = Sim.files (Sim.rem w) ->
               forall i, i <= length ps ->
                 Sim.has_file (Sim.rem w1)
                   (walk_root "/" ((pre ++ [p]) ++ take i ps)) = false).
    { intros w1 E i Hi. unfold Sim.has_file. rewrite E.
      rewrite <- app_assoc. apply (Hfiles (S i)). cbn. lia. }
    assert (Hdir' : forall w1,
               Sim.files (Sim.rem w1) = Sim.files (Sim.rem w) ->
               Sim.dirs (Sim.rem w) ⊆ Sim.dirs (Sim.rem w1) ->
               (Sim.has_dir (Sim.rem w) (walk_root "/" pre) = true ->
                Sim.has_dir (Sim.rem w1) (walk_root "/" (pre ++ [p])) = true) ->
               exists t', t' <= length ps
                 /\ Sim.has_dir (Sim.rem w1)
                      (walk_root "/" ((pre ++ [p]) ++ take t' ps)) = true).
    { intros w1 E Hsub Hnew. destruct t as [|t].
      - exists 0. split; [lia|]. rewrite take_0, app_nil_r.
        apply Hnew. rewrite take_0, app_nil_r in Hdir. exact Hdir.
      - exists t. split; [cbn in Ht; lia|].
        rewrite <- app_assoc. cbn [app].
        eapply has_dir_mono; [exact Hsub|]. exact Hdir. }
    destruct (Sim.mkdir (walk_root "/" (pre ++ [p])) w) as [[[]|e] w1];
      cbn [fst snd exn_of] in *.
    + destruct (Hdir' w1 Hfi1 Hd1) as (t' & Ht' & Hdt).
      { intros H. apply Hmk; [exact H|]. apply (Hfiles 1). cbn. lia. }
      destruct (IH (pre ++ [p]) w1 t' Hf1 Hall' (Hfiles' w1 Hfi1) Ht' Hdt)
        as (Hr & Hf2 & Hfi2 & Hl2 & Hd2).
      unfold result_of, world_of in *.
      destruct (mkdir_parts Sim.env (walk_root "/" (pre ++ [p])) ps w1)
        as [[r w2] l2]. cbn [fst snd] in *.
      rewrite <- app_assoc in Hd2.
      repeat split; try assumption; congruence.
    + rewrite He1. unfold ret. cbn [app].
      destruct (Hdir' w1 Hfi1 Hd1) as (t' & Ht' & Hdt).
      { intros H. apply Hmk; [exact H|]. apply (Hfiles 1). cbn. lia. }
      destruct (IH (pre ++ [p]) w1 t' Hf1 Hall' (Hfiles' w1 Hfi1) Ht' Hdt)
        as (Hr & Hf2 & Hfi2 & Hl2 & Hd2).
      unfold result_of, world_of in *.
      destruct (mkdir_parts Sim.env (walk_root "/" (pre ++ [p])) ps w1)
        as [[r w2] l2]. cbn [fst snd] in *.
      rewrite <- app_assoc in Hd2.
      repeat split; try assumption; congruence.
Qed.

(** X21.  On the simulated host without faults: for an upload to a file below the
    rooted directory [/n1/.../nk], if one of [/], [/n1], ..., [/n1/.../nk]
    is a remote directory and none of them is a remote file, then after the
    directory step [/n1/.../nk] is a remote directory; the step returns, and
    changes no file on either side. *)
Theorem ensure_remote_dir_creates (names : list string) (f : string)
    (w : Sim.world) (t : nat) :
  Sim.faults w = [] ->
  forallb name_ok (names ++ [f]) = true ->
  (forall i, i <= length names ->
     Sim.has_file (Sim.rem w) (walk_root "/" (take i names)) = false) ->
  t <= length names ->
  Sim.has_dir (Sim.rem w) (walk_root "/" (take t names)) = true ->
  let run := ensure_remote_dir Sim.env (walk_root "/" (names ++ [f])) w in
  result_of run = Ok tt
  /\ Sim.has_dir (Sim.rem (world_of run)) (walk_root "/" names) = true
  /\ Sim.files (Sim.rem (world_of run)) = Sim.files (Sim.rem w)
  /\ Sim.loc (world_of run) = Sim.loc w.
Proof.
  intros Hf Hall Hfiles Ht Hdir. cbv zeta.
  pose proof Hall as H. rewrite forallb_app in H.
  apply andb_true_iff in H as [Hnames _].
  unfold ensure_remote_dir. rewrite (dirname_rooted names f Hall).
  assert (Hd : negb (is_empty (walk_root "/" names))
               && negb (String.eqb (walk_root "/" names) ".") = true).
  { rewrite walk_root_slash by exact Hnames. reflexivity. }
  rewrite Hd. unfold catch_IOError, catch, chdir, prim.
  change (sftp_chdir Sim.env (walk_root "/" names) w)
    with (Sim.chdir (walk_root "/" names) w).
  unfold Sim.chdir, Sim.next_fault. rewrite Hf.
  destruct (Sim.has_dir (Sim.rem w) (walk_root "/" names)) eqn:Ed.
  { cbn. repeat split; try reflexivity. exact Ed. }
  pose proof (Hfiles (length names) (Nat.le_refl _)) as Hnf.
  rewrite firstn_all in Hnf. rewrite Hnf. cbn [exn_of is_IOError Sim.enoent].
  rewrite (parts_rooted names Hnames).
  cbn [mkdir_parts is_empty negb].
  unfold bind, catch_IOError, catch, mkdir, prim.
  change (sftp_mkdir Sim.env "/" w) with (Sim.mkdir "/" w).
  destruct (sim_mkdir_step "/" w Hf) as (Hf1 & Hfi1 & Hl1 & Hd1 & He1 & _).
  assert (Hcont : forall w1,
             Sim.faults w1 = [] ->
             Sim.files (Sim.rem w1) = Sim.files (Sim.rem w) ->
             Sim.loc w1 = Sim.loc w ->
             Sim.dirs (Sim.rem w) ⊆ Sim.dirs (Sim.rem w1) ->
             let r := mkdir_parts Sim.env "/" names w1 in
             result_of r = Ok tt
             /\ Sim.has_dir (Sim.rem (world_of r)) (walk_root "/" names) = true
             /\ Sim.files (Sim.rem (world_of r)) = Sim.files (Sim.rem w)
             /\ Sim.loc (world_of r) = Sim.loc w).
  { intros w1 Hfa Hfi Hlo Hsub.
    destruct (sim_mkdir_parts names [] w1 t Hfa Hnames) as (A & _ & B & C & D).
    - intros i Hi. unfold Sim.has_file. rewrite Hfi. apply (Hfiles i Hi).
    - exact Ht.
    - eapply has_dir_mono; [exact Hsub | exact Hdir].
    - cbv zeta. change (walk_root "/" []) with "/" in *.
      repeat split; try assumption; congruence. }
  destruct (Sim.mkdir "/" w) as [[[]|e] w1]; cbn [fst snd exn_of] in *.
  - specialize (Hcont w1 Hf1 Hfi1 Hl1 Hd1). cbv zeta in Hcont.
    unfold result_of, world_of in *.
    destruct (mkdir_parts Sim.env "/" names w1) as [[r w2] l2].
    cbn [fst snd] in *. exact Hcont.
  - rewrite He1. unfold ret. cbn [app].
    specialize (Hcont w1 Hf1 Hfi1 Hl1 Hd1). cbv zeta in Hcont.
    unfold result_of, world_of in *.
    destruct (mkdir_parts Sim.env "/" names w1) as [[r w2] l2].
    cbn [fst snd] in *. exact Hcont.
Qed.

End SimDirectories.

(** The sample remote side has [/r]; an upload below [/r/x/y] finds both
    directories created. *)
Lemma ensure_remote_dir_creates_witness :
  Sim.has_dir
    (Sim.rem (world_of (ensure_remote_dir Sim.env "/r/x/y/new.txt" Demo.w0)))
    "/r/x/y" = true.
Proof.
  apply (ensure_remote_dir_creates ["r"; "x"; "y"] "new.txt" Demo.w0 1).
  - reflexivity.
  - reflexivity.
  - intros i Hi.
    destruct i as [|[|[|[|i]]]]; [vm_compute; reflexivity ..|cbn in Hi; lia].
  - cbn. lia.
  - vm_compute. reflexivity.
Defined.

(** ** Local files that share a key *)

Section KeyCollision.
Context {W : Type} (env : Env W).
Import Str Path.

(** A file in a directory whose name begins with [..] is recorded under its
    file name alone. *)
Lemma rel_key_escaping (d f : string) :
  startswith d ".." = true -> rel_key [d; f] = f.
Proof.
  intros Hd. unfold rel_key. cbv zeta.
  change (join_slash [d; f]) with (d +:+ "/" +:+ f).
  assert (Hlen : 2 <= String.length d).
  { destruct d as [|a [|b d]]; [discriminate Hd| |cbn; lia].
    cbn [startswith] in Hd. rewrite andb_false_r in Hd. discriminate Hd. }
  rewrite startswith_append by exact Hlen. rewrite Hd. reflexivity.
Qed.

(** X22.  Two files of the same name [f], in two directories at the top of the
    scanned tree whose names begin with [..], share the key [f]: the mapping
    [list_local] returns has one entry for both, with the attributes of the
    file of the directory walked last. *)
Theorem list_local_key_collision (path d1 d2 f : string)
    (s1 s2 m1 m2 : meta) (w : W) :
  isabs (os_getcwd env w) = true ->
  is_empty path = false ->
  name_ok d1 = true -> name_ok d2 = true -> name_ok f = true ->
  startswith d1 ".." = true -> startswith d2 ".." = true ->
  let tree :=
    FCons d1 (TDir s1 (FCons f (TFile m1) FNil))
      (FCons d2 (TDir s2 (FCons f (TFile m2) FNil)) FNil) in
  os_walk env path w = tree_walk path tree ->
  stats_below env w path tree ->
  exists log, list_local env path w = (Ok [(f, m2)], w, log).
Proof.
  intros Hcwd Hpath H1 H2 Hf Hd1 Hd2. cbv zeta. intros Hwalk Hst.
  destruct (list_local_tree env w path Hcwd Hpath _ Hwalk) as [log Hlog].
  - cbn. rewrite H1, H2, Hf. reflexivity.
  - exact Hst.
  - exists log. rewrite Hlog. unfold local_entries.
    cbn [file_entries sub_entries app].
    rewrite (rel_key_escaping d1 f Hd1), (rel_key_escaping d2 f Hd2).
    cbn [dict_of_list fold_left fst snd dict_set].
    rewrite String.eqb_refl. reflexivity.
Qed.

End KeyCollision.

Lemma list_local_key_collision_witness :
  exists log,
    list_local Sim.env "/l" DemoEscape.w
    = (Ok [("f", Meta 33188 6 200)], DemoEscape.w, log).
Proof.
  apply (list_local_key_collision Sim.env "/l" "..a" "..b" "f"
           Sim.dir_meta Sim.dir_meta (Meta 33188 3 100) (Meta 33188 6 200)
           DemoEscape.w); try reflexivity.
  vm_compute. repeat split.
Defined.

(** ** What a transfer leaves alone *)

Lemma rename_frame (a b : string) (w : Sim.world) :
  rem_step [a; b] w (snd (Sim.rename a b w)).
Proof.
  pose proof (SimFacts.rename_spec a b w) as H. cbv zeta in H.
  destruct (fst (Sim.rename a b w)).
  - destruct H as (src & _ & Hfiles & Hloc & Hhist).
    assert (Hq : forall q, ~ In q [a; b] ->
                 Sim.files (Sim.rem (snd (Sim.rename a b w))) !! q
                 = Sim.files (Sim.rem w) !! q).
    { intros q Hq. rewrite Hfiles.
      rewrite lookup_insert_ne by (intros ->; apply Hq; cbn; tauto).
      rewrite lookup_delete_ne by (intros ->; apply Hq; cbn; tauto).
      reflexivity. }
    split; [exact Hloc|]. split; [exact Hq|].
    eexists. split; [exact Hhist|].
    constructor; [|constructor]. split; [reflexivity | exact Hq].
  - apply (SimFacts.rem_step_weaken [] [a; b]); [intros ? []|exact H].
Qed.

Lemma replace_frame (a b : string) (w : Sim.world) :
  loc_step [a; b] w (snd (Sim.replace a b w)).
Proof.
  pose proof (SimFacts.replace_spec a b w) as H. cbv zeta in H.
  destruct (fst (Sim.replace a b w)).
  - destruct H as (src & _ & Hfiles & Hrem & Hhist).
    assert (Hq : forall q, ~ In q [a; b] ->
                 Sim.files (Sim.loc (snd (Sim.replace a b w))) !! q
                 = Sim.files (Sim.loc w) !! q).
    { intros q Hq. rewrite Hfiles.
      rewrite lookup_insert_ne by (intros ->; apply Hq; cbn; tauto).
      rewrite lookup_delete_ne by (intros ->; apply Hq; cbn; tauto).
      reflexivity. }
    split; [exact Hrem|]. split; [exact Hq|].
    eexists. split; [exact Hhist|].
    constructor; [|constructor]. split; [reflexivity | exact Hq].
  - apply (SimFacts.loc_step_weaken [] [a; b]); [intros ? []|exact H].
Qed.

(** Case analysis on the next simulated call, keeping what it may touch. *)
Ltac frame_step :=
  match goal with
  | |- context [Sim.put ?a ?b ?w] =>
      is_var w; pose proof (proj1 (SimFacts.put_spec a b w));
      destruct (Sim.put a b w) as [[[]|?] ?]
  | |- context [Sim.rename ?a ?b ?w] =>
      is_var w; pose proof (rename_frame a b w);
      destruct (Sim.rename a b w) as [[[]|?] ?]
  | |- context [Sim.remove ?a ?w] =>
      is_var w; pose proof (proj1 (SimFacts.remove_spec a w));
      destruct (Sim.remove a w) as [[[]|?] ?]
  | |- context [Sim.get ?a ?b ?w] =>
      is_var w; pose proof (proj1 (SimFacts.get_spec a b w));
      destruct (Sim.get a b w) as [[[]|?] ?]
  | |- context [Sim.makedirs ?a ?w] =>
      is_var w; pose proof (SimFacts.makedirs_spec a w);
      destruct (Sim.makedirs a w) as [[[]|?] ?]
  | |- context [Sim.replace ?a ?b ?w] =>
      is_var w; pose proof (replace_frame a b w);
      destruct (Sim.replace a b w) as [[[]|?] ?]
  | |- context [Sim.unlink ?a ?w] =>
      is_var w; pose proof (proj1 (SimFacts.unlink_spec a w));
      destruct (Sim.unlink a w) as [[[]|?] ?]
  end; cbn [fst snd] in *; cbn.

(** X23.  On the simulated host, under any script of faults: an upload leaves
    every local file, and every remote file other than its target and the
    temporary sibling of the target, as they were, at its end and in every
    snapshot on the way; a download leaves every remote file, and every local
    file other than its target and the temporary sibling, as they were. *)
Theorem transfer_frame :
  (forall lp rp w,
     rem_step [upload_target lp rp; upload_target lp rp +:+ ".tmp"] w
       (world_of (atomic_upload Sim.env lp rp w)))
  /\ (forall rp lp w,
        loc_step [download_target (Sim.isdir lp w) rp lp;
                  download_target (Sim.isdir lp w) rp lp +:+ ".tmp"] w
          (world_of (atomic_download Sim.env rp lp w))).
Proof.
  split.
  - intros lp rp w.
    set (target := upload_target lp rp). set (tmp := target +:+ ".tmp").
    unfold atomic_upload. fold target. fold tmp.
    pose proof (ensure_remote_dir_step target w) as Hstep.
    unfold upload_body, catch, bind.
    destruct (ensure_remote_dir Sim.env target w) as [[r0 w0] l0].
    unfold world_of in Hstep. cbn in Hstep. clearbody target.
    destruct r0 as [[]|e0].
    2:{ destruct e0; unfold_engine; repeat frame_step; rem_chain. }
    unfold_engine. repeat frame_step.
    all: try match goal with
         | |- context [match ?e with FileNotFoundError _ => _ | _ => _ end] =>
             destruct e; cbn; repeat frame_step
         end.
    all: rem_chain.
  - intros rp lp w. rewrite atomic_download_unfold.
    change (os_path_isdir Sim.env lp w) with (Sim.isdir lp w).
    set (target := download_target (Sim.isdir lp w) rp lp).
    set (tmp := target +:+ ".tmp"). clearbody target.
    unfold_engine.
    destruct (negb _ && negb _); cbn.
    all: repeat frame_step.
    all: try match goal with
         | |- context [match ?e with FileNotFoundError _ => _ | _ => _ end] =>
             destruct e; cbn; repeat frame_step
         end.
    all: loc_chain.
Qed.

(** ** What can end a bidirectional run *)

Lemma set_add_in (k x : string) (s : list string) :
  In x (set_add k s) -> x = k \/ In x s.
Proof.
  induction s as [|y s IH]; cbn [set_add].
  - intros [<-|[]]. left. reflexivity.
  - destruct (String.eqb y k); [intros H; right; exact H|].
    intros [<-|H]; [right; left; reflexivity|].
    destruct (IH H) as [->|H']; [left; reflexivity|right; right; exact H'].
Qed.

Lemma set_union_in (a b : list string) (x : string) :
  In x (set_union a b) -> In x a \/ In x b.
Proof.
  unfold set_union. intros H.
  assert (G : forall l acc,
            In x (fold_left (fun s k => set_add k s) l acc) ->
            In x l \/ In x acc).
  { induction l as [|k l IH]; cbn [fold_left]; intros acc Hx.
    - right. exact Hx.
    - destruct (IH _ Hx) as [H1|H1]; [left; right; exact H1|].
      destruct (set_add_in _ _ _ H1) as [->|H2];
        [left; left; reflexivity|right; exact H2]. }
  destruct (G _ _ H) as [H1|[]]. apply in_app_or. exact H1.
Qed.

Lemma dict_get_key {V} (d : dict V) (k : string) :
  In k (dict_keys d) -> dict_get d k <> None.
Proof.
  induction d as [|[k' v] d IH]; cbn [dict_keys map fst dict_get In].
  - intros [].
  - intros [->|H].
    + rewrite String.eqb_refl. discriminate.
    + destruct (String.eqb k' k); [discriminate|]. exact (IH H).
Qed.

Section BidirectionalFailures.
Context {W : Type} (env : Env W).

(** X24.  When the loop visits only paths of the set it iterates, a bidirectional
    run ends with an exception in three cases only: one of the scans, or the
    re-keying of the remote mapping, raised it; an [os.makedirs] of the run
    raised it; or it is the [RuntimeError] that [atomic_download] raises for
    a failed download.  No failure of an upload ends the run. *)
Theorem sync_bidirectional_failure_modes (depth : nat)
    (local_dir remote_dir : string) (include exclude : list string) (w : W)
    (e : exn) :
  (forall l x, In x (set_iter env l) -> In x l) ->
  let run :=
    sync_bidirectional env depth local_dir remote_dir include exclude w in
  result_of run = Err e ->
  result_of (bidir_scan env depth local_dir remote_dir w) = Err e
  \/ (exists ev d,
        In ev (log_of run)
        /\ ev_call ev = OsMakedirs d /\ ev_exn ev = Some e)
  \/ (exists msg,
        e = RuntimeError msg
        /\ Str.startswith msg "Failed to download " = true).
Proof.
  intros Hiter. cbv zeta.
  assert (Hscan : forall lf rf all_files w1 l1,
            bidir_scan env depth local_dir remote_dir w
            = (Ok (lf, rf, all_files), w1, l1) ->
            forall x, In x all_files ->
                      dict_get lf x <> None \/ dict_get rf x <> None).
  { unfold bidir_scan, bind, ret. intros lf rf all_files w1 l1.
    destruct (list_local env local_dir w) as [[[lf0|e0] w2] l2];
      [|discriminate].
    destruct (list_remote env depth remote_dir w2) as [[[raw|e0] w3] l3];
      [|discriminate].
    destruct (rekey_remote env (Str.rstrip_slash remote_dir) raw w3)
      as [[[rf0|e0] w4] l4]; [|discriminate].
    intros E x Hx. injection E as <- <- <- _ _.
    destruct (set_union_in _ _ _ (Hiter _ _ Hx)) as [H|H];
      [left|right]; exact (dict_get_key _ _ H). }
  unfold sync_bidirectional, bind, result_of, log_of.
  destruct (bidir_scan env depth local_dir remote_dir w)
    as [[[[[lf rf] all_files]|e0] w1] l1];
    cbn [fst snd]; [|intros H; injection H as ->; left; reflexivity].
  specialize (Hscan lf rf all_files w1 l1 eq_refl).
  set (body := bidir_step env local_dir (Str.rstrip_slash remote_dir) include
                 exclude lf rf).
  intros H. right.
  assert (H' : result_of (for_each all_files body w1) = Err e).
  { unfold result_of.
    destruct (for_each all_files body w1) as [[r w2] l2]. exact H. }
  destruct (for_each_err body _ w1 e H') as (rel & w' & pre & Hin & Hr & Hl).
  specialize (Hscan rel Hin).
  unfold log_of in Hl.
  destruct (for_each all_files body w1) as [[r w2] l2].
  cbn [fst snd] in *. subst l2. clear H H'.
  set (lfile := Path.join local_dir rel) in *.
  set (rfile := Path.join (Str.rstrip_slash remote_dir) rel) in *.
  assert (Hup : forall a b w0, result_of (atomic_upload env a b w0) <> Err e).
  { intros a b w0 E. rewrite atomic_upload_returns in E. discriminate E. }
  assert (Hbody :
            body rel w'
            = if negb (passes_filter (Path.basename rel) include exclude)
              then (Ok tt, w', [])
              else match dict_get lf rel, dict_get rf rel with
                   | Some _, None => atomic_upload env lfile rfile w'
                   | None, Some _ =>
                       match os_makedirs env (Path.dirname lfile) w' with
                       | (Ok _, w3) =>
                           let '(r, w4, l4) :=
                             atomic_download env rfile lfile w3 in
                           (r, w4,
                            Ev (OsMakedirs (Path.dirname lfile)) None :: l4)
                       | (Err e1, w3) =>
                           (Err e1, w3,
                            [Ev (OsMakedirs (Path.dirname lfile)) (Some e1)])
                       end
                   | Some l, Some r =>
                       if Qle_bool (Qabs (st_mtime l - st_mtime r)) 5 then
                         bind (atomic_download env rfile (lfile +:+ ".remote"))
                           (fun _ =>
                              print ("  conflict: kept " +:+ rel
                                     +:+ ".local and " +:+ rel +:+ ".remote"))
                           w'
                       else if negb (Qle_bool (st_mtime l) (st_mtime r))
                            then atomic_upload env lfile rfile w'
                            else atomic_download env rfile lfile w'
                   | None, None =>
                       (Err (TypeError "'NoneType' object is not subscriptable"),
                        w', [])
                   end).
  { unfold body, bidir_step. fold lfile. fold rfile.
    destruct (negb _); [reflexivity|].
    destruct (dict_get lf rel), (dict_get rf rel); try reflexivity.
    { destruct (Qle_bool _ 5); [reflexivity|].
      destruct (negb _); reflexivity. }
    unfold bind, makedirs, prim.
    destruct (os_makedirs env _ w') as [[[]|e1] w3]; cbn [exn_of];
      [|reflexivity].
    destruct (atomic_download env rfile lfile w3) as [[r' w4] l4].
    reflexivity. }
  rewrite Hbody in *. clear Hbody.
  destruct (negb _); [discriminate Hr|].
  destruct (dict_get lf rel) as [l|], (dict_get rf rel) as [r'|].
  - destruct (Qle_bool _ 5).
    + right. revert Hr. unfold bind, print, prim, result_of.
      pose proof (atomic_download_err env rfile (lfile +:+ ".remote") w' e)
        as Hd.
      unfold result_of in Hd.
      destruct (atomic_download env rfile (lfile +:+ ".remote") w')
        as [[[[]|e1] w3] l3]; cbn [fst snd] in *; [discriminate|].
      exact Hd.
    + destruct (negb _).
      * exfalso. exact (Hup _ _ _ Hr).
      * right. exact (atomic_download_err env _ _ _ _ Hr).
  - exfalso. exact (Hup _ _ _ Hr).
  - destruct (os_makedirs env (Path.dirname lfile) w') as [[[]|e1] w3].
    + pose proof (atomic_download_err env rfile lfile w3 e) as Hd.
      unfold result_of in *.
      destruct (atomic_download env rfile lfile w3) as [[r'' w4] l4].
      cbn [fst snd] in *. right. exact (Hd Hr).
    + injection Hr as ->. left.
      exists (Ev (OsMakedirs (Path.dirname lfile)) (Some e)),
        (Path.dirname lfile).
      split; [|split; reflexivity].
      apply in_or_app. right. apply in_or_app. right. left. reflexivity.
  - exfalso. destruct Hscan as [H|H]; apply H; reflexivity.
Qed.

End BidirectionalFailures.

(** The transport cuts the download of the file that is remote only. *)
Lemma sync_bidirectional_failure_modes_witness :
  let w :=
    Demo.with_faults
      [Sim.Pass; Sim.Pass; Sim.Fail (IOError "Connection reset")] in
  exists msg,
    result_of (sync_bidirectional Sim.env 10 "/l" "/r" ["z*"] [] w)
    = Err (RuntimeError msg)
    /\ Str.startswith msg "Failed to download " = true.
Proof.
  cbv zeta.
  destruct (sync_bidirectional_failure_modes Sim.env 10 "/l" "/r" ["z*"] []
              (Demo.with_faults
                 [Sim.Pass; Sim.Pass; Sim.Fail (IOError "Connection reset")])
              (RuntimeError
                 "Failed to download /r/n/z.txt to /l/n/z.txt: Connection reset"))
    as [H|[H|H]].
  - intros l x Hx. exact Hx.
  - vm_compute. reflexivity.
  - vm_compute in H. discriminate H.
  - destruct H as (ev & d & Hin & Hc & Hx). exfalso.
    vm_compute in Hin.
    repeat (destruct Hin as [<-|Hin]; [discriminate Hx|]).
    exact Hin.
  - eexists. split; [vm_compute; reflexivity | reflexivity].
Defined.

(** ** Transfers that do not reach the direct transfer *)

#[local] Arguments Sim.put : simpl never.
#[local] Arguments Sim.get : simpl never.
#[local] Arguments Sim.rename : simpl never.
#[local] Arguments Sim.remove : simpl never.
#[local] Arguments Sim.chdir : simpl never.
#[local] Arguments Sim.mkdir : simpl never.
#[local] Arguments Sim.makedirs : simpl never.
#[local] Arguments Sim.replace : simpl never.
#[local] Arguments Sim.unlink : simpl never.
#[local] Arguments Sim.isdir : simpl never.
#[local] Arguments reports : simpl never.
#[local] Arguments failed_renames : simpl never.

Lemma failed_renames_app (l1 l2 : list event) :
  failed_renames (l1 ++ l2) = failed_renames l1 + failed_renames l2.
Proof. unfold failed_renames. rewrite List.filter_app. apply length_app. Qed.

Lemma dir_calls_no_rename (l : list event) :
  forallb (fun ev => is_dir_call (ev_call ev)) l = true ->
  failed_renames l = 0.
Proof.
  unfold failed_renames. induction l as [|[c o] l IH]; [reflexivity|].
  cbn. intros H. apply andb_true_iff in H as [Hc Hl].
  destruct c; cbn in Hc; try discriminate Hc; cbn; exact (IH Hl).
Qed.

(** Before its second rename fails, the only [put] of an upload goes to the
    temporary path. *)
Lemma upload_writes_tmp {W} (env : Env W) (lp rp : string) (w : W) :
  failed_renames (log_of (atomic_upload env lp rp w)) < 2 ->
  forallb (fun ev => writes_only (upload_target lp rp +:+ ".tmp") (ev_call ev))
    (log_of (atomic_upload env lp rp w)) = true.
Proof.
  set (target := upload_target lp rp). set (tmp := target +:+ ".tmp").
  unfold atomic_upload. fold target. fold tmp.
  pose proof (ensure_remote_dir_calls env target w) as Hdirs.
  unfold upload_body, catch, bind.
  destruct (ensure_remote_dir env target w) as [[r0 w0] l0].
  unfold log_of in Hdirs. cbn in Hdirs.
  assert (Hl0 : forallb (fun ev => writes_only tmp (ev_call ev)) l0 = true).
  { revert Hdirs. apply forallb_weaken. intros [c o].
    destruct c; cbn; congruence. }
  clearbody target.
  destruct r0 as [[]|e0].
  2:{ intros _. destruct e0; unfold_engine; repeat step_env env;
      rewrite forallb_app, Hl0; reflexivity. }
  unfold_engine. repeat step_env env.
  all: try match goal with
       | |- context [match ?e with FileNotFoundError _ => _ | _ => _ end] =>
           destruct e; cbn; repeat step_env env
       end.
  all: rewrite <- ?app_assoc, failed_renames_app, (dir_calls_no_rename _ Hdirs);
       unfold failed_renames; cbn; intros Hrf; try lia.
  all: rewrite forallb_app, Hl0; cbn; rewrite ?String.eqb_refl; reflexivity.
Qed.

(** A removal changes nothing, or deletes the file and takes one snapshot. *)
Lemma remove_outcome (p : string) (w : Sim.world) :
  let w' := snd (Sim.remove p w) in
  (Sim.hist w' = Sim.hist w /\ Sim.files (Sim.rem w') = Sim.files (Sim.rem w))
  \/ (Sim.hist w'
      = Sim.hist w
        ++ [(Sim.files (Sim.loc w), delete p (Sim.files (Sim.rem w)))]
      /\ Sim.files (Sim.rem w') = delete p (Sim.files (Sim.rem w))).
Proof.
  cbv zeta. unfold Sim.remove.
  destruct (SimFacts.next_fault_stores w) as (Hl & Hr & Hh & _).
  destruct (Sim.next_fault w) as [f w1]. cbn [snd] in Hl, Hr, Hh.
  destruct f; cbn [snd]; try (left; rewrite Hh, Hr; split; reflexivity).
  destruct (Sim.has_file (Sim.rem w1) p); cbn [snd].
  - right. cbn. rewrite Hh, Hr, Hl. split; reflexivity.
  - left. rewrite Hh, Hr. split; reflexivity.
Qed.

(** The snapshots of an upload whose second rename did not fail: up to some
    world the upload touched the temporary path only; the snapshots after it
    show the target removed, after a failed rename, or holding the content of
    the local file. *)
Lemma upload_sim_paths (lp rp : string) (w : Sim.world) :
  failed_renames (log_of (atomic_upload Sim.env lp rp w)) < 2 ->
  exists w1 mid,
    rem_step [upload_target lp rp +:+ ".tmp"] w w1
    /\ Sim.hist (world_of (atomic_upload Sim.env lp rp w)) = Sim.hist w1 ++ mid
    /\ Forall (fun s =>
                 Sim.content (snd s) (upload_target lp rp)
                 = Sim.content (Sim.files (Sim.loc w)) lp
                 \/ (Sim.content (snd s) (upload_target lp rp) = None
                     /\ rename_failed (log_of (atomic_upload Sim.env lp rp w))
                        = true)) mid.
Proof.
  set (target := upload_target lp rp). set (tmp := target +:+ ".tmp").
  assert (Hne : tmp <> target) by (apply append_longer; cbn; lia).
  unfold atomic_upload. fold target. fold tmp.
  pose proof (ensure_remote_dir_calls Sim.env target w) as Hdirs.
  pose proof (ensure_remote_dir_step target w) as Hstep.
  unfold upload_body, catch, bind.
  destruct (ensure_remote_dir Sim.env target w) as [[r0 w0] l0].
  unfold log_of, world_of in Hdirs, Hstep. cbn in Hdirs, Hstep.
  clearbody target.
  assert (Hfr : forall l, failed_renames (l0 ++ l) = failed_renames l).
  { intros l. rewrite failed_renames_app, (dir_calls_no_rename _ Hdirs).
    reflexivity. }
  assert (Hrf : forall l,
            rename_failed l = true -> rename_failed (l0 ++ l) = true).
  { intros l H. unfold rename_failed. rewrite existsb_app.
    unfold rename_failed in H. rewrite H. apply orb_true_r. }
  destruct r0 as [[]|e0].
  2:{ intros _. destruct e0; unfold_engine; repeat sim_step.
      all: match goal with
           | |- exists w1 mid, _ /\ Sim.hist ?wk = _ /\ _ => exists wk, []
           end.
      all: split; [rem_chain|].
      all: split; [rewrite app_nil_r; reflexivity|constructor]. }
  unfold_engine.
  pose proof (SimFacts.put_spec lp tmp w0) as Hput.
  destruct (Sim.put lp tmp w0) as [[[]|e] w1]; cbn [fst snd] in Hput; cbn.
  2:{ intros _. destruct e; cbn; repeat sim_step.
      all: match goal with
           | |- exists w1 mid, _ /\ Sim.hist ?wk = _ /\ _ => exists wk, []
           end.
      all: split; [rem_chain|].
      all: split; [rewrite app_nil_r; reflexivity|constructor]. }
  destruct Hput as [Hs1 Hok]. destruct (Hok eq_refl) as (f & t & Hf & Ht).
  assert (Hl0 : Sim.files (Sim.loc w0) = Sim.files (Sim.loc w))
    by (destruct Hstep as [H _]; exact H).
  assert (Hl1 : Sim.files (Sim.loc w1) = Sim.files (Sim.loc w0))
    by (destruct Hs1 as [H _]; exact H).
  assert (Hnew : Sim.content (Sim.files (Sim.loc w)) lp = Some (Sim.data f)).
  { unfold Sim.content. rewrite <- Hl0, Hf. reflexivity. }
  pose proof (SimFacts.rename_spec tmp target w1) as Hren. cbv zeta in Hren.
  destruct (Sim.rename tmp target w1) as [[[]|e1] w2];
    cbn [fst snd] in Hren; cbn.
  - intros _. destruct Hren as (src & Hsrc & Hfiles & Hloc & Hhist).
    exists w1, [(Sim.files (Sim.loc w1), Sim.files (Sim.rem w2))].
    split; [rem_chain|]. split; [exact Hhist|].
    constructor; [|constructor]. left. cbn [snd].
    rewrite Hnew. unfold Sim.content. rewrite Hfiles, lookup_insert_eq.
    rewrite Hsrc in Ht. injection Ht as ->. reflexivity.
  - pose proof (remove_outcome target w2) as Hout. cbv zeta in Hout.
    pose proof (proj1 (SimFacts.remove_spec target w2)) as Hrm.
    destruct (Sim.remove target w2) as [r3 w3]; cbn [fst snd] in Hout, Hrm.
    assert (Htmp3 : Sim.files (Sim.rem w3) !! tmp
                    = Some (Sim.File (Sim.data f) t)).
    { destruct Hrm as (_ & Hq & _).
      rewrite Hq by (cbn; intros [E|[]]; apply Hne; symmetry; exact E).
      destruct Hren as (_ & Hq2 & _). rewrite Hq2 by (intros []). exact Ht. }
    pose proof (SimFacts.rename_spec tmp target w3) as Hren2. cbv zeta in Hren2.
    destruct r3 as [[]|e3]; cbn;
      destruct (Sim.rename tmp target w3) as [[[]|e2] w4];
      cbn [fst snd] in Hren2; cbn.
    all: repeat sim_step.
    all: rewrite <- ?app_assoc, ?Hfr; unfold failed_renames; cbn;
         intros Hlt; try lia.
    all: destruct Hren2 as (src & Hsrc & Hfiles & Hloc & Hhist).
    all: rewrite Htmp3 in Hsrc; injection Hsrc as <-.
    all: exists w2.
    all: destruct Hout as [[Hh3 Hf3]|[Hh3 Hf3]].
    all: rewrite Hhist, Hh3, <- ?app_assoc.
    all: eexists; split; [rem_chain|]; split; [reflexivity|].
    all: cbn [app]; repeat (apply List.Forall_cons); try apply List.Forall_nil.
    all: cbn [snd].
    all: first
           [ left; rewrite Hnew; unfold Sim.content;
             rewrite Hfiles, lookup_insert_eq; reflexivity
           | right; split;
             [unfold Sim.content; rewrite lookup_delete_eq; reflexivity|] ].
    all: apply Hrf; reflexivity.
Qed.

Section NeverPartial.
Import Sim.

(** C8, amended.  On the simulated host, where [put] and [get] write their
    target byte by byte and every change of a store is a snapshot: during an
    upload whose second rename did not fail (the direct transfer to the final
    path was not entered), the final path holds in every snapshot what it
    held before the upload, or the whole content of the local file, or, in
    an upload whose first rename failed, nothing; and the only [put] goes to
    [target.tmp].  During a download the final local path holds in every
    snapshot what it held before or the whole content of the remote file, and
    the only [get] goes to [target.tmp]. *)
Theorem transfer_never_partial :
  (forall lp rp w,
     failed_renames (log_of (atomic_upload env lp rp w)) < 2 ->
     Forall (fun s =>
               content (snd s) (upload_target lp rp)
               = content (files (rem w)) (upload_target lp rp)
               \/ content (snd s) (upload_target lp rp)
                  = content (files (loc w)) lp
               \/ (content (snd s) (upload_target lp rp) = None
                   /\ rename_failed (log_of (atomic_upload env lp rp w))
                      = true))
       (new_snapshots w (world_of (atomic_upload env lp rp w)))
     /\ forallb (fun ev => writes_only (upload_target lp rp +:+ ".tmp")
                             (ev_call ev))
          (log_of (atomic_upload env lp rp w)) = true)
  /\ (forall rp lp w,
        Forall (fun s =>
                  content (fst s) (download_target (isdir lp w) rp lp)
                  = content (files (loc w)) (download_target (isdir lp w) rp lp)
                  \/ content (fst s) (download_target (isdir lp w) rp lp)
                     = content (files (rem w)) rp)
          (new_snapshots w (world_of (atomic_download env rp lp w)))
        /\ forallb (fun ev => writes_only
                                (download_target (isdir lp w) rp lp +:+ ".tmp")
                                (ev_call ev))
             (log_of (atomic_download env rp lp w)) = true).
Proof.
  split.
  - intros lp rp w Hlt. split; [|apply upload_writes_tmp; exact Hlt].
    set (target := upload_target lp rp) in *.
    assert (Hne : ~ In target [target +:+ ".tmp"]).
    { cbn. intros [E|[]]. revert E. apply append_longer. cbn. lia. }
    destruct (upload_sim_paths lp rp w Hlt) as (w1 & mid & Hs & Hh & Hmid).
    destruct Hs as (_ & _ & n & Hh1 & Hf).
    rewrite Hh1, <- app_assoc in Hh. rewrite (new_snapshots_of _ _ _ Hh).
    apply Forall_app. split.
    + eapply Forall_impl; [exact Hf|]. cbn. intros s [_ Hs]. left.
      unfold content. rewrite Hs by exact Hne. reflexivity.
    + eapply Forall_impl; [exact Hmid|]. cbn. intros s H. right. exact H.
  - intros rp lp w. split.
    2:{ pose proof (atomic_download_calls env rp lp w) as H.
        revert H. apply forallb_weaken. intros [c o]. cbn.
        destruct c; cbn; try reflexivity; try discriminate.
        intros H. apply andb_true_iff in H as [_ H]. exact H. }
    set (target := download_target (isdir lp w) rp lp) in *.
    assert (Hne : ~ In target [target +:+ ".tmp"]).
    { cbn. intros [E|[]]. revert E. apply append_longer. cbn. lia. }
    destruct (download_sim_cases rp lp w)
      as [[(_ & _ & n & Hh & Hf) _]|(w1 & f & t & Hs & Hrp & Hfiles & Hh & _)].
    + rewrite (new_snapshots_of _ _ _ Hh).
      eapply Forall_impl; [exact Hf|]. cbn. intros s [_ Hs]. left.
      unfold content. rewrite Hs by exact Hne. reflexivity.
    + destruct Hs as (_ & _ & n & Hh1 & Hf).
      rewrite Hh1, <- app_assoc in Hh. rewrite (new_snapshots_of _ _ _ Hh).
      apply Forall_app. split.
      * eapply Forall_impl; [exact Hf|]. cbn. intros s [_ Hs]. left.
        unfold content. rewrite Hs by exact Hne. reflexivity.
      * constructor; [|constructor]. right. cbn [fst].
        unfold content. fold target. rewrite Hfiles, lookup_insert_eq, Hrp.
        reflexivity.
Qed.

End NeverPartial.

(** An upload of [/l/a.txt] over the existing [/r/a.txt], where the first
    rename fails on the occupied destination and the retry succeeds. *)
Lemma transfer_never_partial_witness :
  Forall (fun s =>
            Sim.content (snd s) (upload_target "/l/a.txt" "/r/a.txt")
            = Sim.content (Sim.files (Sim.rem Demo.w0))
                (upload_target "/l/a.txt" "/r/a.txt")
            \/ Sim.content (snd s) (upload_target "/l/a.txt" "/r/a.txt")
               = Sim.content (Sim.files (Sim.loc Demo.w0)) "/l/a.txt"
            \/ (Sim.content (snd s) (upload_target "/l/a.txt" "/r/a.txt")
                = None
                /\ rename_failed
                     (log_of (atomic_upload Sim.env "/l/a.txt" "/r/a.txt"
                                Demo.w0)) = true))
    (new_snapshots Demo.w0
       (world_of (atomic_upload Sim.env "/l/a.txt" "/r/a.txt" Demo.w0)))
  /\ forallb (fun ev => writes_only
                          (upload_target "/l/a.txt" "/r/a.txt" +:+ ".tmp")
                          (ev_call ev))
       (log_of (atomic_upload Sim.env "/l/a.txt" "/r/a.txt" Demo.w0))
     = true.
Proof.
  apply (proj1 transfer_never_partial "/l/a.txt" "/r/a.txt" Demo.w0).
  vm_compute. lia.
Defined.

(** C8, as stated, fails for an upload over an existing file on a transport
    whose rename does not replace: the upload reports success without ever
    putting to the final path, and between the removal of the old file and
    the retried rename the final path holds neither the old file nor the new
    one. *)
Lemma upload_retry_leaves_gap :
  let run := atomic_upload Sim.env "/l/a.txt" "/r/a.txt" Demo.w0 in
  reports "Uploaded " (log_of run) = true
  /\ failed_renames (log_of run) = 1
  /\ put_landed "/r/a.txt" (log_of run) = false
  /\ map (fun s => Sim.content (snd s) "/r/a.txt")
       (new_snapshots Demo.w0 (world_of run))
     = [Some (Demo.bytes "remote"); Some (Demo.bytes "remote");
        Some (Demo.bytes "remote"); None; Some (Demo.bytes "hi")]
  /\ ~ Forall (fun s =>
                 Sim.content (snd s) "/r/a.txt" = Some (Demo.bytes "remote")
                 \/ Sim.content (snd s) "/r/a.txt" = Some (Demo.bytes "hi"))
         (new_snapshots Demo.w0 (world_of run)).
Proof.
  cbv zeta.
  assert (Hmap : map (fun s => Sim.content (snd s) "/r/a.txt")
                   (new_snapshots Demo.w0
                      (world_of (atomic_upload Sim.env "/l/a.txt" "/r/a.txt"
                                   Demo.w0)))
                 = [Some (Demo.bytes "remote"); Some (Demo.bytes "remote");
                    Some (Demo.bytes "remote"); None; Some (Demo.bytes "hi")])
    by (vm_compute; reflexivity).
  do 3 (split; [vm_compute; reflexivity|]). split; [exact Hmap|].
  intros H.
  apply (List.Forall_map
           (fun s => Sim.content (snd s) "/r/a.txt")
           (fun c => c = Some (Demo.bytes "remote")
                     \/ c = Some (Demo.bytes "hi"))) in H.
  rewrite Hmap in H.
  do 3 apply List.Forall_inv_tail in H. apply List.Forall_inv in H.
  destruct H as [H|H]; discriminate H.
Qed.

(** ** Uploads that end in the direct transfer *)

#[local] Arguments Sim.put : simpl never.
#[local] Arguments Sim.get : simpl never.
#[local] Arguments Sim.rename : simpl never.
#[local] Arguments Sim.remove : simpl never.
#[local] Arguments Sim.chdir : simpl never.
#[local] Arguments Sim.mkdir : simpl never.
#[local] Arguments Sim.makedirs : simpl never.
#[local] Arguments Sim.replace : simpl never.
#[local] Arguments Sim.unlink : simpl never.
#[local] Arguments Sim.isdir : simpl never.
#[local] Arguments reports : simpl never.
#[local] Arguments put_landed : simpl never.
#[local] Arguments remove_failed : simpl never.

Lemma put_landed_app (target : string) (l1 l2 : list event) :
  put_landed target (l1 ++ l2) = put_landed target l1 || put_landed target l2.
Proof. apply existsb_app. Qed.

Lemma dir_calls_no_put (target : string) (l : list event) :
  forallb (fun ev => is_dir_call (ev_call ev)) l = true ->
  put_landed target l = false.
Proof.
  apply existsb_none. intros [c o]. cbn. destruct c; cbn; congruence.
Qed.

Lemma remove_failed_app (p : string) (l1 l2 : list event) :
  remove_failed p (l1 ++ l2) = remove_failed p l1 || remove_failed p l2.
Proof. apply existsb_app. Qed.

(** An upload whose direct transfer to the final path returned has put the
    content of the local file there; the temporary file is gone unless its
    removal failed. *)
Lemma upload_sim_direct (lp rp : string) (w : Sim.world) :
  put_landed (upload_target lp rp) (log_of (atomic_upload Sim.env lp rp w))
  = true ->
  exists f t,
    Sim.files (Sim.loc w) !! lp = Some f
    /\ Sim.files (Sim.rem (world_of (atomic_upload Sim.env lp rp w)))
         !! upload_target lp rp = Some (Sim.File (Sim.data f) t)
    /\ (Sim.files (Sim.rem (world_of (atomic_upload Sim.env lp rp w)))
          !! (upload_target lp rp +:+ ".tmp") = None
        \/ (reports "Uploaded " (log_of (atomic_upload Sim.env lp rp w))
            = false
            /\ remove_failed (upload_target lp rp +:+ ".tmp")
                 (log_of (atomic_upload Sim.env lp rp w)) = true))
    /\ Sim.files (Sim.loc (world_of (atomic_upload Sim.env lp rp w)))
       = Sim.files (Sim.loc w).
Proof.
  set (target := upload_target lp rp). set (tmp := target +:+ ".tmp").
  assert (Hne : tmp <> target) by (apply append_longer; cbn; lia).
  assert (Hneb : String.eqb tmp target = false)
    by (apply String.eqb_neq; exact Hne).
  unfold atomic_upload. fold target. fold tmp.
  pose proof (ensure_remote_dir_calls Sim.env target w) as Hdirs.
  pose proof (ensure_remote_dir_step target w) as Hstep.
  unfold upload_body, catch, bind.
  destruct (ensure_remote_dir Sim.env target w) as [[r0 w0] l0].
  unfold log_of, world_of in Hdirs, Hstep. cbn in Hdirs, Hstep.
  clearbody target.
  destruct r0 as [[]|e0].
  2:{ destruct e0; unfold_engine; repeat sim_step.
      all: rewrite <- ?app_assoc, put_landed_app, (dir_calls_no_put _ _ Hdirs).
      all: unfold put_landed; cbn; discriminate. }
  unfold_engine. repeat sim_step.
  all: try match goal with
       | |- context [match ?e with FileNotFoundError _ => _ | _ => _ end] =>
           destruct e; cbn; repeat sim_step
       end.
  all: rewrite <- ?app_assoc, put_landed_app, (dir_calls_no_put _ _ Hdirs).
  all: unfold put_landed; cbn [existsb ev_call ev_exn orb app];
       rewrite ?Hneb, ?String.eqb_refl; cbn [orb]; try discriminate; intros _.
  all: repeat match goal with H : _ /\ _ |- _ => destruct H end.
  all: match goal with
       | |- exists f t, _ /\ Sim.files (Sim.rem ?wb) !! ?tg = _ /\ _ =>
           match goal with
           | Hp : Ok tt = Ok tt ->
                  exists f t, Sim.files (Sim.loc ?wa) !! _ = Some f
                              /\ Sim.files (Sim.rem wb) !! tg = _ |- _ =>
               destruct (Hp eq_refl) as (f & t & Hf & Ht); exists f, t;
               assert (Hall : rem_step [tmp; target] w wb) by rem_chain;
               assert (Hpre : rem_step [tmp; target] w wa) by rem_chain;
               assert (Hlast : rem_step [target] wa wb) by assumption
           end
       end.
  all: split; [destruct Hpre as [<- _]; exact Hf|].
  all: split; [exact Ht|].
  all: split; [|destruct Hall as [H' _]; exact H'].
  all: first
         [ left;
           destruct Hlast as (_ & Hq & _);
           rewrite Hq by (cbn; intros [E|[]]; apply Hne; symmetry; exact E);
           match goal with
           | |- Sim.files (Sim.rem ?wa) !! ?y = None =>
               match goal with
               | Hr : Ok tt = Ok tt -> Sim.files (Sim.rem wa) !! y = None
                 |- _ => exact (Hr eq_refl)
               end
           end
         | right; split;
           [ eval_reports Hdirs; reflexivity
           | rewrite remove_failed_app; unfold remove_failed;
             cbn [existsb ev_call ev_exn orb app];
             rewrite String.eqb_refl, ?orb_true_r; reflexivity ] ].
Qed.

(** An upload that brought the file to its target, either way. *)
Lemma upload_sim_done (lp rp : string) (w : Sim.world) :
  upload_done (upload_target lp rp) (log_of (atomic_upload Sim.env lp rp w))
  = true ->
  exists f t,
    Sim.files (Sim.loc w) !! lp = Some f
    /\ Sim.files (Sim.rem (world_of (atomic_upload Sim.env lp rp w)))
         !! upload_target lp rp = Some (Sim.File (Sim.data f) t)
    /\ (Sim.files (Sim.rem (world_of (atomic_upload Sim.env lp rp w)))
          !! (upload_target lp rp +:+ ".tmp") = None
        \/ (reports "Uploaded " (log_of (atomic_upload Sim.env lp rp w))
            = false
            /\ remove_failed (upload_target lp rp +:+ ".tmp")
                 (log_of (atomic_upload Sim.env lp rp w)) = true)).
Proof.
  unfold upload_done. intros H. apply orb_true_iff in H as [H|H].
  - destruct (upload_sim_success lp rp w H) as (f & t & Hlp & Htgt & Htmp & _).
    exists f, t. split; [exact Hlp|]. split; [exact Htgt|]. left. exact Htmp.
  - destruct (upload_sim_direct lp rp w H) as (f & t & Hlp & Htgt & Htmp & _).
    exists f, t. split; [exact Hlp|]. split; [exact Htgt|]. exact Htmp.
Qed.

Section RoundTrip.
Import Sim.

(** C9, amended.  On the simulated host: when an upload of [lp] brought the
    file to its target (it reported success, or its direct transfer to the
    final path returned) and the download of the uploaded file to [lp2]
    reports success, the local file the download produced has the bytes the
    local file [lp] had before the upload, and the local side is left
    without the temporary file of the download; the remote side is left
    without the temporary file of the upload, unless the upload ended in the
    direct transfer, without a report, and a removal of that temporary file
    failed. *)
Theorem round_trip_identity (lp rp lp2 : string) (w : world) :
  upload_done (upload_target lp rp) (log_of (atomic_upload env lp rp w))
  = true ->
  reports "Downloaded " (log_of (round_trip lp rp lp2 w)) = true ->
  is_Some (files (loc w) !! lp)
  /\ content (files (loc (world_of (round_trip lp rp lp2 w))))
       (download_target (isdir lp2 (world_of (atomic_upload env lp rp w)))
          (upload_target lp rp) lp2)
     = content (files (loc w)) lp
  /\ files (loc (world_of (round_trip lp rp lp2 w)))
       !! (download_target (isdir lp2 (world_of (atomic_upload env lp rp w)))
             (upload_target lp rp) lp2 +:+ ".tmp") = None
  /\ (files (rem (world_of (round_trip lp rp lp2 w)))
        !! (upload_target lp rp +:+ ".tmp") = None
      \/ (reports "Uploaded " (log_of (atomic_upload env lp rp w)) = false
          /\ remove_failed (upload_target lp rp +:+ ".tmp")
               (log_of (atomic_upload env lp rp w)) = true)).
Proof.
  intros Hup Hdown.
  destruct (upload_sim_done lp rp w Hup) as (f & t & Hlp & Htgt & Htmp).
  destruct (download_sim_success _ _ _ Hdown)
    as (f' & t' & Hsrc & Hdst & Hdtmp & Hrem).
  rewrite Htgt in Hsrc. injection Hsrc as <-.
  split; [rewrite Hlp; eexists; reflexivity|].
  split; [unfold content, round_trip; rewrite Hdst, Hlp; reflexivity|].
  split; [exact Hdtmp|].
  unfold round_trip. rewrite Hrem. exact Htmp.
Qed.

End RoundTrip.

(** Upload [/l/a.txt] over [/r/a.txt] where both renames fail and the upload
    ends in the direct transfer, then download it back to [/l/back.txt]. *)
Lemma round_trip_identity_witness :
  let w :=
    Demo.with_faults
      [Sim.Pass; Sim.Pass; Sim.Fail Sim.failure; Sim.Pass;
       Sim.Fail Sim.failure] in
  is_Some (Sim.files (Sim.loc w) !! "/l/a.txt")
  /\ Sim.content
       (Sim.files
          (Sim.loc (world_of (round_trip "/l/a.txt" "/r/a.txt" "/l/back.txt"
                                w))))
       (download_target
          (Sim.isdir "/l/back.txt"
             (world_of (atomic_upload Sim.env "/l/a.txt" "/r/a.txt" w)))
          (upload_target "/l/a.txt" "/r/a.txt") "/l/back.txt")
     = Sim.content (Sim.files (Sim.loc w)) "/l/a.txt"
  /\ Sim.files
       (Sim.loc (world_of (round_trip "/l/a.txt" "/r/a.txt" "/l/back.txt" w)))
       !! (download_target
             (Sim.isdir "/l/back.txt"
                (world_of (atomic_upload Sim.env "/l/a.txt" "/r/a.txt" w)))
             (upload_target "/l/a.txt" "/r/a.txt") "/l/back.txt" +:+ ".tmp")
     = None
  /\ (Sim.files
        (Sim.rem (world_of (round_trip "/l/a.txt" "/r/a.txt" "/l/back.txt"
                              w)))
        !! (upload_target "/l/a.txt" "/r/a.txt" +:+ ".tmp") = None
      \/ (reports "Uploaded "
            (log_of (atomic_upload Sim.env "/l/a.txt" "/r/a.txt" w)) = false
          /\ remove_failed (upload_target "/l/a.txt" "/r/a.txt" +:+ ".tmp")
               (log_of (atomic_upload Sim.env "/l/a.txt" "/r/a.txt" w))
             = true)).
Proof.
  cbv zeta.
  apply (round_trip_identity "/l/a.txt" "/r/a.txt" "/l/back.txt"
           (Demo.with_faults
              [Sim.Pass; Sim.Pass; Sim.Fail Sim.failure; Sim.Pass;
               Sim.Fail Sim.failure])).
  - vm_compute. reflexivity.
  - vm_compute. reflexivity.
Defined.

(** C9, as stated, fails: both renames of the upload fail, the removal of
    the temporary file fails, the direct transfer to the final path returns
    and the upload prints nothing; the download brings back the bytes of the
    original, and the remote side is left with [/r/a.txt.tmp]. *)
Lemma round_trip_leaves_tmp :
  let w :=
    Demo.with_faults
      [Sim.Pass; Sim.Pass; Sim.Fail Sim.failure; Sim.Pass;
       Sim.Fail Sim.failure; Sim.Fail Sim.failure] in
  let up := atomic_upload Sim.env "/l/a.txt" "/r/a.txt" w in
  let back := round_trip "/l/a.txt" "/r/a.txt" "/l/back.txt" w in
  result_of up = Ok tt
  /\ put_landed "/r/a.txt" (log_of up) = true
  /\ existsb (fun ev => match ev_call ev with Print _ => true | _ => false end)
       (log_of up) = false
  /\ reports "Downloaded " (log_of back) = true
  /\ Sim.content (Sim.files (Sim.loc (world_of back))) "/l/back.txt"
     = Sim.content (Sim.files (Sim.loc w)) "/l/a.txt"
  /\ Sim.content (Sim.files (Sim.loc w)) "/l/a.txt" = Some (Demo.bytes "hi")
  /\ Sim.content (Sim.files (Sim.rem (world_of back))) "/r/a.txt.tmp"
     = Some (Demo.bytes "hi").
Proof. vm_compute. repeat split. Qed.

(** ** The filter of the bidirectional loop *)

(** C1 on the code.  The loop of [sync_bidirectional] decides on the basename
    alone: a path whose basename fails the filter is skipped without any
    call, whatever its relative path matches.  The path [n/z.txt], present on
    both sides with the local file 100 seconds newer, passes the filter of
    the specification under the include pattern [n/*], which matches its
    relative path; the run lists it in both mappings, transfers nothing and
    leaves both sides as they were. *)
Theorem bidirectional_skips_relative_match :
  (forall (W : Type) (env : Env W) (ld rd : string) (inc exc : list string)
      (lf rf : dict meta) (rel : string) (w : W),
      passes_filter (Path.basename rel) inc exc = false ->
      bidir_step env ld rd inc exc lf rf rel w = (Ok tt, w, []))
  /\ spec_included "n/z.txt" ["n/*"] [] = true
  /\ passes_filter (Path.basename "n/z.txt") ["n/*"] [] = false
  /\ (let run :=
        sync_bidirectional Sim.env 10 "/l" "/r" ["n/*"] [] DemoBoth.w in
      result_of (bidir_scan Sim.env 10 "/l" "/r" DemoBoth.w)
      = Ok ([("n/z.txt", Meta 33188 5 300)], [("n/z.txt", Meta 33188 2 200)],
            ["n/z.txt"])
      /\ result_of run = Ok tt
      /\ existsb (fun ev => is_put_of "/l/n/z.txt" (ev_call ev)
                            || is_get_of "/r/n/z.txt" (ev_call ev))
           (log_of run) = false
      /\ Sim.files (Sim.rem (world_of run)) = Sim.files (Sim.rem DemoBoth.w)
      /\ Sim.files (Sim.loc (world_of run)) = Sim.files (Sim.loc DemoBoth.w)).
Proof.
  split.
  - intros W env ld rd inc exc lf rf rel w H. unfold bidir_step.
    rewrite H. reflexivity.
  - vm_compute. repeat split.
Qed.
